(** * ai-utils: the tool-calling loop, its argument validator and its tool selector

    A shallow embedding of [runWithTools] and [runAndProcessToolCall]
    ([src/runWithTools.ts]), of [convertToZodSchema], [validateArgsWithZod]
    and [autoTrimTools] ([utils.ts], which the source tree holds in one file
    with [logger.ts]), of [Logger.error], and of the part of the invoker
    built by [createToolFunction] ([src/createToolsFromOpenAPISpec.ts]) that
    decides the query parameters of the request; then of the creation of the
    tools from an OpenAPI document, [createToolsFromOpenAPISpec] with its
    [fetchSpec], [getServerUrl], [isHttpMethod], [extractParameters],
    [extractRequestBody] and [resolveReference], and of [fetchSpec] of
    [utils.ts].

    Conventions.
    - JavaScript values that travel through the code (tool-call arguments,
      parameter schemas) are JSON trees; [undefined] is [None] of an option.
      An object is the list of its own enumerable properties in [for .. in]
      order, because that order decides which schema error is thrown first and
      in which order query parameters are appended.
    - Strings are byte strings (UTF-8); where the code indexes a string, it
      is by UTF-16 code units ([code_units]).  Numbers are rationals, which
      include every finite double.  The rendering of a number as text is the
      engine's [Number::toString] and is a parameter of the development.
    - The model endpoint and the tool invokers are external and stateful: they
      are functions over an abstract [World].  A rejected promise is a throw
      at its [await].  What the code, the engine and the libraries throw is
      an [Error], and [Thrown message] carries its [message].  What the
      endpoint, an invoker or a trim function rejects with is any value
      ([thrown]): the catch clauses of the loop read [message] off it, which
      is itself a [TypeError] when the value is [undefined] or [null].  An
      invoker is an asynchronous function, as its type says: it starts when
      it is called, and its failure is a rejection.
    - A tool call of a response is what its type says, an object of a [name]
      and [arguments], and is serialized as such.
    - The tool calls of one round are in flight together.  Their callbacks
      run their synchronous parts in the order of the list; the order in
      which they resume after [await] is the scheduler's, an arbitrary
      permutation.  A callback that throws before its first [await] has
      rejected its promise before any other resumes, so that [Promise.all]
      rejects with the first such error of the list, if there is one.
    - [zod] is a library: [zod_accepts] states what [parse] does on the
      schemas that [convertToZodSchema] can build (zod 3).  The getters of
      its classes, which decide what becomes of a property declared after
      one under the key [__proto__], are a parameter of the development.
    - [Logger.error] entries are kept (the console is part of the state), since
      "log and skip" is part of what is specified.  [Logger.info] diagnostics
      and the [totalCharacters] counter only feed the console and are left out.
    - A document is read by keys that it provides itself.  Where such a key
      may reach a built-in of a prototype instead of an own property, the
      reading [Strays]: the embedding does not follow it, and says so.
    - [JSON.parse], [YAML.parse], [fetch] and [new URL] are the engine's and
      the libraries', and are parameters of what reads a document. *)

From Stdlib Require Import String Ascii List Bool Arith ZArith QArith_base Lia Permutation Sorted.
From Stdlib Require DecimalString.
Import ListNotations.

Local Open Scope string_scope.
Local Open Scope list_scope.
Local Open Scope nat_scope.

Set Implicit Arguments.
Set Warnings "-register-all".


(* ------------------------------------------------------------------------- *)
(** ** Outcomes of a call that may throw *)

(** A call returns a value or throws one; a promise is fulfilled with a
    value or rejected with one. *)
Inductive result_of (E A : Type) : Type :=
| Returned (a : A)
| Thrown (e : E).

Arguments Returned {E A} a.
Arguments Thrown {E A} e.

(** What the code itself, the engine and the libraries throw is an [Error],
    known by its [message]. *)
Abbreviation result := (result_of string).

Definition result_bind {E A B} (r : result_of E A) (k : A -> result_of E B) : result_of E B :=
  match r with
  | Returned a => k a
  | Thrown e => Thrown e
  end.

Definition result_map {E A B} (f : A -> B) (r : result_of E A) : result_of E B :=
  result_bind r (fun a => Returned (f a)).

(** What the model endpoint, an invoker or a trim function rejects with is
    any value.  A catch clause of the code reads [error.message] off it and
    renders that as text: a value off which a property can be read is known
    by that text (the message of an [Error]; ["undefined"] for a string, a
    number or an object without a [message]); [undefined] and [null] are
    apart, as nothing can be read off them. *)
Inductive thrown : Type :=
| Error (message : string)
| Undefined
| Null.

Abbreviation settled := (result_of thrown).

(** [(error as Error).message]. *)
Definition message_of (error : thrown) : result string :=
  match error with
  | Error message => Returned message
  | Undefined => Thrown "Cannot read properties of undefined (reading 'message')"
  | Null => Thrown "Cannot read properties of null (reading 'message')"
  end.

(** [new Error(`<prefix>${(error as Error).message}`)] as a catch clause
    throws it, or the [TypeError] of the read. *)
Definition wrapped (prefix : string) (error : thrown) : thrown :=
  match message_of error with
  | Returned message => Error (prefix ++ message)
  | Thrown type_error => Error type_error
  end.

(** An error of the code, as a value thrown. *)
Definition raised {A} (r : result A) : settled A :=
  match r with
  | Returned a => Returned a
  | Thrown message => Thrown (Error message)
  end.

(* ------------------------------------------------------------------------- *)
(** ** Strings *)

Definition dquote : ascii := "034"%char.
Definition backslash : ascii := "\"%char.
Definition newline : string := String "010"%char "".

(** [Array.prototype.join] on strings. *)
Fixpoint join (sep : string) (l : list string) : string :=
  match l with
  | [] => ""
  | [s] => s
  | s :: rest => (s ++ sep ++ join sep rest)%string
  end.

Definition hex_digit (n : nat) : ascii :=
  nth n (list_ascii_of_string "0123456789abcdef") "0"%char.

(** One code unit of [QuoteJSONString]. *)
Definition quote_char (c : ascii) : string :=
  let n := nat_of_ascii c in
  if Nat.eqb n 34 then String backslash (String dquote "")
  else if Nat.eqb n 92 then String backslash (String backslash "")
  else if Nat.eqb n 8 then String backslash "b"
  else if Nat.eqb n 12 then String backslash "f"
  else if Nat.eqb n 10 then String backslash "n"
  else if Nat.eqb n 13 then String backslash "r"
  else if Nat.eqb n 9 then String backslash "t"
  else if Nat.ltb n 32 then
    String backslash ("u00" ++ String (hex_digit (n / 16)) (String (hex_digit (n mod 16)) ""))%string
  else String c "".

Fixpoint quote_chars (s : string) : string :=
  match s with
  | EmptyString => ""
  | String c rest => (quote_char c ++ quote_chars rest)%string
  end.

(** [JSON.stringify] of a string. *)
Definition QuoteJSONString (s : string) : string :=
  String dquote (quote_chars s ++ String dquote "")%string.

(** The decimal text of an array index or a length. *)
Definition nat_to_string (n : nat) : string :=
  DecimalString.NilEmpty.string_of_uint (Nat.to_uint n).

(* ------------------------------------------------------------------------- *)
(** ** JSON values *)

Inductive json : Type :=
| JNull
| JBool (b : bool)
| JNum (q : Q)
| JStr (s : string)
| JArr (elems : list json)
| JObj (fields : list (string * json)).

(** [obj[key]] on the property list of an object. *)
Fixpoint lookup {A} (key : string) (fields : list (string * A)) : option A :=
  match fields with
  | [] => None
  | (k, v) :: rest => if String.eqb key k then Some v else lookup key rest
  end.

(** [obj[key] = v]: an existing property keeps its place, a new one goes last. *)
Fixpoint assign {A} (key : string) (v : A) (fields : list (string * A)) : list (string * A) :=
  match fields with
  | [] => [(key, v)]
  | (k, w) :: rest =>
      if String.eqb key k then (k, v) :: rest else (k, w) :: assign key v rest
  end.

(** [v.key] for the property names the code reads ([type], [items],
    [properties], [tools]): a [TypeError] on [null], the property of an
    object, and [undefined] on anything else (arrays, strings, numbers and
    booleans have no property of these names). *)
Definition prop (v : json) (key : string) : result (option json) :=
  match v with
  | JNull => Thrown ("Cannot read properties of null (reading '" ++ key ++ "')")%string
  | JObj fields => Returned (lookup key fields)
  | _ => Returned None
  end.

(** [v.key] where [v] itself may be [undefined]. *)
Definition prop_of (v : option json) (key : string) : result (option json) :=
  match v with
  | None => Thrown ("Cannot read properties of undefined (reading '" ++ key ++ "')")%string
  | Some j => prop j key
  end.

Fixpoint index_from {A} (i : nat) (l : list A) : list (string * A) :=
  match l with
  | [] => []
  | x :: rest => (nat_to_string i, x) :: index_from (S i) rest
  end.

(** The number of bytes that follow the first byte of a character in
    UTF-8. *)
Definition continuation_bytes (first : ascii) : nat :=
  let n := nat_of_ascii first in
  if n <? 192 then 0 else if n <? 224 then 1 else if n <? 240 then 2 else 3.

(** U+FFFD. *)
Definition replacement_character : string :=
  String "239"%char (String "191"%char (String "189"%char "")).

(** The UTF-16 code units of a text, which are what [s.length] counts and
    what [s[i]] reads, each as a text of its own.  A character of the basic
    plane (one to three bytes) is one code unit.  A character outside it
    (four bytes) is two, the halves of a surrogate pair; a half is no
    character, and what reads it as text (a URL, a property name) takes it
    for U+FFFD, which is how it is carried here. *)
Fixpoint code_units_from (bytes : list ascii) (current : string) (more : nat) : list string :=
  match bytes with
  | [] =>
      match current with
      | EmptyString => []
      | _ => [current]
      end
  | b :: rest =>
      match more with
      | 0 =>
          match continuation_bytes b with
          | 0 => String b "" :: code_units_from rest "" 0
          | n => code_units_from rest (String b "") n
          end
      | S more' =>
          let current' := (current ++ String b "")%string in
          match more' with
          | 0 =>
              (if String.length current' =? 4
               then [replacement_character; replacement_character]
               else [current'])
              ++ code_units_from rest "" 0
          | _ => code_units_from rest current' more'
          end
      end
  end.

Definition code_units (s : string) : list string :=
  code_units_from (list_ascii_of_string s) "" 0.

(** The (key, value) pairs that [for (const key in v)] visits, with [v[key]]:
    the own properties of an object, the indices of an array with its
    elements, the indices of a string with its code units. *)
Definition for_in (v : option json) : list (string * json) :=
  match v with
  | Some (JObj fields) => fields
  | Some (JArr elems) => index_from 0 elems
  | Some (JStr s) => index_from 0 (map JStr (code_units s))
  | _ => []
  end.

Section Rendering.

(** [Number::toString], the engine's rendering of a number. *)
Variable Number_toString : Q -> string.

(** [JSON.stringify(v)]. *)
Fixpoint JSON_stringify (v : json) : string :=
  match v with
  | JNull => "null"
  | JBool true => "true"
  | JBool false => "false"
  | JNum q => Number_toString q
  | JStr s => QuoteJSONString s
  | JArr elems => ("[" ++ join "," (map JSON_stringify elems) ++ "]")%string
  | JObj fields =>
      ("{" ++ join "," (map (fun kv => let '(k, w) := kv in
                                       QuoteJSONString k ++ ":" ++ JSON_stringify w) fields)
           ++ "}")%string
  end.

(** [String(v)], as in a template literal or [URLSearchParams.append]. *)
Fixpoint ToString (v : json) : string :=
  match v with
  | JNull => "null"
  | JBool true => "true"
  | JBool false => "false"
  | JNum q => Number_toString q
  | JStr s => s
  | JArr elems =>
      join "," (map (fun e => match e with JNull => "" | _ => ToString e end) elems)
  | JObj _ => "[object Object]"
  end.

Definition ToString_opt (v : option json) : string :=
  match v with
  | None => "undefined"
  | Some j => ToString j
  end.

End Rendering.

(** JavaScript truthiness, [Boolean(v)]. *)
Definition truthy (v : json) : bool :=
  match v with
  | JNull => false
  | JBool b => b
  | JNum q => negb (Z.eqb (Qnum q) 0)
  | JStr s => negb (String.eqb s "")
  | JArr _ | JObj _ => true
  end.

(** [Number.isInteger]. *)
Definition isInteger (q : Q) : bool :=
  Z.eqb (Z.modulo (Qnum q) (Zpos (Qden q))) 0.


(** A rendering of numbers that is right on the natural numbers, to run the
    definitions on sample data. *)
Definition decimal (q : Q) : string :=
  nat_to_string (Z.to_nat (Z.div (Qnum q) (Zpos (Qden q)))).

(* ------------------------------------------------------------------------- *)
(** ** The data model *)

(** [RoleScopedChatInput]: one turn of the conversation. *)
Module Message.
Inductive Role : Type := user | assistant | system | tool.

Record t : Type := mk {
  role : Role;
  content : string;
  name : option string
}.

Definition role_name (r : Role) : string :=
  match r with
  | user => "user"
  | assistant => "assistant"
  | system => "system"
  | tool => "tool"
  end.

(** The turn as the object literal the code pushes; a [name] that is not
    set is not a property of it. *)
Definition to_json (m : t) : json :=
  JObj ([("role", JStr (role_name (role m))); ("content", JStr (content m))]
        ++ match name m with
           | Some n => [("name", JStr n)]
           | None => []
           end).
End Message.

(** A tool-call request of the model, [{name, arguments}]. *)
Module ToolCall.
Record t : Type := mk {
  name : string;
  arguments : json
}.

Definition to_json (c : t) : json :=
  JObj [("name", JStr (name c)); ("arguments", arguments c)].
End ToolCall.

(** [AiTextGenerationToolInputWithFunction]: a tool descriptor.  The invoker
    [function] is an asynchronous function of the arguments; it runs in the
    world and its promise is fulfilled with a string or rejected. *)
Module Tool.
Record t (World : Type) : Type := mk {
  name : string;
  description : string;
  parameters : option json;
  function : option (json -> World -> settled string * World)
}.
Arguments mk {World} name description parameters function.
End Tool.

(** An entry of the [tools] list sent to the model,
    [{type: "function", function: {...}}]. *)
Module ToolInput.
Record t (World : Type) : Type := mk {
  type : string;
  function : Tool.t World
}.
Arguments mk {World} type function.
End ToolInput.

(** The second argument of [ai.run]; [tools] is absent on the final call. *)
Module AiInput.
Record t (World : Type) : Type := mk {
  messages : list Message.t;
  stream : bool;
  tools : option (list (ToolInput.t World))
}.
Arguments mk {World} messages stream tools.
End AiInput.

(** The [input] argument of [runWithTools]. *)
Module Input.
Record t (World : Type) : Type := mk {
  messages : list Message.t;
  tools : list (Tool.t World)
}.
Arguments mk {World} messages tools.
End Input.

(** [AiTextGenerationOutput]: a structured answer or a byte stream.  An entry
    of [tool_calls] that [filter(Boolean)] drops (null) is [None]. *)
Inductive AiTextGenerationOutput : Type :=
| Output (response : option string) (tool_calls : option (list (option ToolCall.t)))
| Stream (chunks : list string).

(** [response.tool_calls]; a stream has no such property. *)
Definition tool_calls_of (response : AiTextGenerationOutput) : option (list (option ToolCall.t)) :=
  match response with
  | Output _ tcs => tcs
  | Stream _ => None
  end.

(** [xs.filter(Boolean)]. *)
Fixpoint filter_Boolean {A} (xs : list (option A)) : list A :=
  match xs with
  | [] => []
  | Some x :: rest => x :: filter_Boolean rest
  | None :: rest => filter_Boolean rest
  end.

(* ------------------------------------------------------------------------- *)
(** ** Reading an OpenAPI document ([src/createToolsFromOpenAPISpec.ts])

    The document is what [JSON.parse] or [YAML.parse] returned: a JSON tree,
    whose objects have [Object.prototype] for prototype.  The code uses names
    taken from the document as property keys ([acc[part]],
    [parameters[resolvedParam.in]]); such a read also finds what the
    prototype chain provides ([constructor], [toString], [__proto__], the
    methods of arrays and strings, ...), which is no part of the document.
    The model follows the document, and says so when a read leaves it. *)

(** What a function that reads the document comes to: a value, an error, or
    a built-in that a name of the document has reached, which is not
    followed. *)
Inductive outcome (A : Type) : Type :=
| Yields (a : A)
| Raises (message : string)
| Strays.

Arguments Yields {A} a.
Arguments Raises {A} message.
Arguments Strays {A}.

Definition outcome_bind {A B} (o : outcome A) (k : A -> outcome B) : outcome B :=
  match o with
  | Yields a => k a
  | Raises e => Raises e
  | Strays => Strays
  end.

Definition of_result {A} (r : result A) : outcome A :=
  match r with
  | Returned a => Yields a
  | Thrown e => Raises e
  end.

(** [Boolean(v)] where [v] may be [undefined]. *)
Definition truthy_opt (v : option json) : bool :=
  match v with
  | Some j => truthy j
  | None => false
  end.

(** [c.toLowerCase()] for a letter from A to Z. *)
Definition lower (c : ascii) : ascii :=
  let n := nat_of_ascii c in
  if (65 <=? n) && (n <=? 90) then ascii_of_nat (n + 32) else c.

(** [s.toLowerCase()] on the letters from A to Z.  A letter outside of the
    basic Latin alphabet is left as it is; its lower case is no such letter
    either (the Kelvin sign apart, whose lower case is a k), so that
    [isHttpMethod] is not concerned. *)
Fixpoint toLowerCase (s : string) : string :=
  match s with
  | EmptyString => ""
  | String c rest => String (lower c) (toLowerCase rest)
  end.

Definition httpMethods : list string :=
  ["get"; "post"; "put"; "patch"; "delete"; "options"; "head"].

(** [isHttpMethod(method)]: [httpMethods.includes(method.toLowerCase())]. *)
Definition isHttpMethod (method : string) : bool :=
  existsb (String.eqb (toLowerCase method)) httpMethods.

(** [s.split(sep)] for a separator of one character. *)
Fixpoint split (sep : ascii) (s : string) : list string :=
  match s with
  | EmptyString => [""]
  | String c rest =>
      if Ascii.eqb c sep then "" :: split sep rest
      else match split sep rest with
           | part :: parts => String c part :: parts
           | [] => [String c ""]
           end
  end.

(** [s.replace(/^#\//, "")]. *)
Definition strip_fragment (s : string) : string :=
  match s with
  | String "#" (String "/" rest) => rest
  | _ => s
  end.

(** [s.replace(/\/$/, "")]. *)
Fixpoint strip_trailing_slash (s : string) : string :=
  match s with
  | EmptyString => ""
  | String c EmptyString => if Ascii.eqb c "/" then "" else s
  | String c rest => String c (strip_trailing_slash rest)
  end.

(** The characters (code points) of a string, as [...s] iterates them: a
    byte that continues a UTF-8 sequence goes with the byte before it. *)
Definition continues (s : string) : bool :=
  match s with
  | String c _ => let n := nat_of_ascii c in (128 <=? n) && (n <? 192)
  | EmptyString => false
  end.

Fixpoint code_points (s : string) : list string :=
  match s with
  | EmptyString => []
  | String c rest =>
      match code_points rest with
      | p :: ps => if continues rest then String c p :: ps else String c "" :: p :: ps
      | [] => [String c ""]
      end
  end.

(** [s.trimStart()]: the white space and the line terminators of ECMAScript,
    in UTF-8: U+0009 to U+000D, U+0020, U+00A0, U+1680, U+2000 to U+200A,
    U+2028, U+2029, U+202F, U+205F, U+3000 and U+FEFF. *)
Fixpoint trimStart (s : string) : string :=
  match s with
  | String "009" rest | String "010" rest | String "011" rest
  | String "012" rest | String "013" rest | String " " rest => trimStart rest
  | String "194" (String "160" rest) => trimStart rest
  | String "225" (String "154" (String "128" rest)) => trimStart rest
  | String "226" (String "128" (String c rest)) =>
      let n := nat_of_ascii c in
      if ((128 <=? n) && (n <=? 138)) || (n =? 168) || (n =? 169) || (n =? 175)
      then trimStart rest else s
  | String "226" (String "129" (String "159" rest)) => trimStart rest
  | String "227" (String "128" (String "128" rest)) => trimStart rest
  | String "239" (String "187" (String "191" rest)) => trimStart rest
  | _ => s
  end.

(** [s.trimEnd()]: what is left of [s] once a tail of white space is cut. *)
Fixpoint trimEnd (s : string) : string :=
  match s with
  | EmptyString => ""
  | String c rest =>
      match trimStart s with
      | EmptyString => ""
      | _ => String c (trimEnd rest)
      end
  end.

(** [s.trim()]. *)
Definition trim (s : string) : string := trimEnd (trimStart s).

(** The value of a string of decimal digits. *)
Fixpoint digits (s : string) (acc : N) : option N :=
  match s with
  | EmptyString => Some acc
  | String c rest =>
      let n := N_of_ascii c in
      if ((48 <=? n) && (n <=? 57))%N then digits rest (10 * acc + (n - 48))%N else None
  end.

(** A property key that is an array index: the canonical decimal text of an
    integer from 0 to 2^32 - 2. *)
Definition array_index (key : string) : option N :=
  match key with
  | EmptyString => None
  | String "0" EmptyString => Some 0%N
  | String "0" _ => None
  | _ =>
      match digits key 0%N with
      | Some n => if (n <? 4294967295)%N then Some n else None
      | None => None
      end
  end.

(** Whether a new property [key] comes before the property [k] when the
    properties of an object are enumerated: array indices come first, in
    ascending order, then the other keys in the order of their creation. *)
Definition comes_before (key k : string) : bool :=
  match array_index key, array_index k with
  | Some i, Some j => (i <? j)%N
  | Some _, None => true
  | None, _ => false
  end.

(** [obj[key] = v] on an ordinary object given by its properties in the
    order of their enumeration (for a [key] other than [__proto__]). *)
Fixpoint define {A} (key : string) (v : A) (fields : list (string * A)) : list (string * A) :=
  match fields with
  | [] => [(key, v)]
  | (k, w) :: rest =>
      if String.eqb key k then (k, v) :: rest
      else if comes_before key k then (key, v) :: (k, w) :: rest
      else (k, w) :: define key v rest
  end.

(** The names that [Object.prototype] defines. *)
Definition Object_prototype : list string :=
  ["constructor"; "__defineGetter__"; "__defineSetter__"; "hasOwnProperty";
   "__lookupGetter__"; "__lookupSetter__"; "isPrototypeOf"; "propertyIsEnumerable";
   "toString"; "valueOf"; "__proto__"; "toLocaleString"].

Definition inherited (key : string) : bool :=
  existsb (String.eqb key) Object_prototype.

(** [v[key]] for a key taken from the document: a property of an object, an
    element of an array, [undefined], or something else than the document
    holds (a method, the length or a character of a string, ...). *)
Definition member (v : json) (key : string) : outcome (option json) :=
  match v with
  | JNull => Raises ("Cannot read properties of null (reading '" ++ key ++ "')")%string
  | JObj fields =>
      match lookup key fields with
      | Some w => Yields (Some w)
      | None => if inherited key then Strays else Yields None
      end
  | JArr elems =>
      match array_index key with
      | Some i => Yields (nth_error elems (N.to_nat i))
      | None => Strays
      end
  | _ => Strays
  end.

(** [resolveReference(ref, openapiSpec)]:
    [refPath.reduce((acc, part) => acc && acc[part], openapiSpec)]. *)
Definition resolveReference (ref : json) (openapiSpec : json) : outcome (option json) :=
  outcome_bind (of_result (prop ref "$ref"))
    (fun r =>
       if truthy_opt r then
         match r with
         | Some (JStr s) =>
             fold_left
               (fun acc part =>
                  outcome_bind acc
                    (fun v => match v with
                              | Some j => if truthy j then member j part else Yields v
                              | None => Yields None
                              end))
               (split "/" (strip_fragment s)) (Yields (Some openapiSpec))
         | _ => Raises "ref.$ref.replace is not a function"
         end
       else Yields (Some ref)).

(** [extractRequestBody(operation, openapiSpec)]: the schema of the
    [application/json] body, or [undefined]. *)
Definition extractRequestBody (operation : json) (openapiSpec : json) : outcome (option json) :=
  outcome_bind (of_result (prop operation "requestBody"))
    (fun requestBody =>
       match requestBody with
       | None => Yields None
       | Some body =>
           if truthy body then
             outcome_bind (resolveReference body openapiSpec)
               (fun resolvedBody =>
                  outcome_bind (of_result (prop_of resolvedBody "content"))
                    (fun content =>
                       match content with
                       | None => Yields None
                       | Some content =>
                           if truthy content then
                             outcome_bind (of_result (prop content "application/json"))
                               (fun media =>
                                  match media with
                                  | None => Yields None
                                  | Some media =>
                                      if truthy media then
                                        outcome_bind (of_result (prop media "schema"))
                                          (fun schema =>
                                             if truthy_opt schema then Yields schema
                                             else Yields None)
                                      else Yields None
                                  end)
                           else Yields None
                       end))
           else Yields None
       end).

(** The [Parameters] of an operation: for each of the six places a
    parameter can be in, the object that maps the name of a parameter to its
    [paramInfo], an object given by its properties. *)
Module Parameters.
Record t : Type := mk {
  path : list (string * list (string * json));
  query : list (string * list (string * json));
  header : list (string * list (string * json));
  cookie : list (string * list (string * json));
  formData : list (string * list (string * json));
  body : list (string * list (string * json))
}.

Definition empty : t := mk [] [] [] [] [] [].

(** [parameters[key]], when [key] names one of the six properties. *)
Definition get (key : string) (p : t) : option (list (string * list (string * json))) :=
  if String.eqb key "path" then Some (path p)
  else if String.eqb key "query" then Some (query p)
  else if String.eqb key "header" then Some (header p)
  else if String.eqb key "cookie" then Some (cookie p)
  else if String.eqb key "formData" then Some (formData p)
  else if String.eqb key "body" then Some (body p)
  else None.

(** The parameters with the object under [key] updated. *)
Definition set (key : string) (fields : list (string * list (string * json))) (p : t) : t :=
  if String.eqb key "path" then mk fields (query p) (header p) (cookie p) (formData p) (body p)
  else if String.eqb key "query" then mk (path p) fields (header p) (cookie p) (formData p) (body p)
  else if String.eqb key "header" then mk (path p) (query p) fields (cookie p) (formData p) (body p)
  else if String.eqb key "cookie" then mk (path p) (query p) (header p) fields (formData p) (body p)
  else if String.eqb key "formData" then mk (path p) (query p) (header p) (cookie p) fields (body p)
  else if String.eqb key "body" then mk (path p) (query p) (header p) (cookie p) (formData p) fields
  else p.
End Parameters.

(** The object literal [{type: ..., description: ...}]; a property whose
    value is [undefined] is left out of the list (nothing enumerates the
    properties of a [paramInfo]). *)
Definition paramInfo (type : json) (description : option json) : list (string * json) :=
  ("type", type) :: match description with
                    | Some d => [("description", d)]
                    | None => []
                    end.

(** Lines 108-114, for one place: [{type: "object", properties: ..., required:
    Object.keys(...).filter((param) => ...[param].required)}]. *)
Definition location_schema (fields : list (string * list (string * json))) : json :=
  JObj [("type", JStr "object");
        ("properties", JObj (map (fun kv => (fst kv, JObj (snd kv))) fields));
        ("required",
         JArr (map JStr
                 (filter (fun param => match lookup param fields with
                                       | Some info => truthy_opt (lookup "required" info)
                                       | None => false
                                       end)
                    (map fst fields))))].

(** Lines 105-160: [parameterProperties], with a property for every place
    that holds a parameter. *)
Definition parameterProperties (parameters : Parameters.t) : list (string * json) :=
  let place (key : string) (fields : list (string * list (string * json))) :=
    if 0 <? length fields then [(key, location_schema fields)] else [] in
  place "path" (Parameters.path parameters)
  ++ place "query" (Parameters.query parameters)
  ++ place "header" (Parameters.header parameters)
  ++ place "cookie" (Parameters.cookie parameters)
  ++ place "formData" (Parameters.formData parameters)
  ++ place "body" (Parameters.body parameters).

(** The [parameters] of a generated descriptor, lines 165-170. *)
Definition tool_parameters (parameters : Parameters.t) : json :=
  JObj [("type", JStr "object");
        ("properties", JObj (parameterProperties parameters));
        ("required", JArr [])].

(** What [new URL(...)] gives, as far as the code reads it. *)
Module URL.
Record t : Type := mk {
  protocol : string;
  host : string;
  pathname : string
}.
End URL.

(** The [Response] of a [fetch], as far as the code reads it: [ok],
    [status], [statusText] and what [await response.text()] does. *)
Module Response.
Record t (World : Type) : Type := mk {
  ok : bool;
  status : Q;
  statusText : string;
  text : World -> result string * World
}.
Arguments mk {World}.
Arguments ok {World}.
Arguments status {World}.
Arguments statusText {World}.
Arguments text {World}.
End Response.

(** What the invoker built by [createToolFunction] keeps of its arguments:
    [meta] and [requestBody] (it does not use [parameters]). *)
Module Invoker.
Record t : Type := mk {
  url : string;
  method : string;
  requestBody : option json
}.
End Invoker.

(** A descriptor as [createToolsFromOpenAPISpec] pushes it: its name and its
    description are what the document holds, whatever that is. *)
Module GeneratedTool.
Record t : Type := mk {
  name : json;
  description : json;
  parameters : json;
  function : Invoker.t
}.
End GeneratedTool.

(** The [config] of [createToolsFromOpenAPISpec], as far as the creation of
    the tools reads it: the patterns, each by what its [test] answers (a
    pattern without the flags [g] and [y], whose [test] keeps no state), and
    [config.options?.verbose]. *)
Module OpenAPIConfig.
Record t : Type := mk {
  matchPatterns : option (list (string -> bool));
  verbose : option bool
}.
End OpenAPIConfig.

(* ------------------------------------------------------------------------- *)
(** ** The world, the observation logs and the monad of the code *)

Section AiUtils.

Variable Number_toString : Q -> string.
Variable World : Type.

Local Abbreviation Tool := (Tool.t World).
Local Abbreviation ToolInput := (ToolInput.t World).
Local Abbreviation AiInput := (AiInput.t World).
Local Abbreviation Input := (Input.t World).
Local Abbreviation Message := Message.t.
Local Abbreviation ToolCall := ToolCall.t.

(** The [Ai] binding: [ai.run(model, input)]. *)
Definition Ai : Type :=
  string -> AiInput -> World -> settled AiTextGenerationOutput * World.

(** What a spy on [ai.run] records: the call and how it ended. *)
Record AiCall : Type := {
  call_model : string;
  call_input : AiInput;
  call_output : settled AiTextGenerationOutput
}.

(** What a spy on the invokers records. *)
Record Invocation : Type := {
  invoked_tool : string;
  invoked_args : json;
  invoked_outcome : settled string
}.

Record St : Type := {
  world : World;
  calls : list AiCall;
  invocations : list Invocation;
  enabled : bool;          (* Logger.enabled *)
  console : list string
}.

(** A computation that reads and writes the state and may throw; the state
    reached when it throws is kept, as effects are not rolled back. *)
Definition M_of (E A : Type) : Type := St -> result_of E A * St.

(** The code that throws nothing but errors of its own. *)
Local Abbreviation M := (M_of string).

(** The code that awaits the model endpoint or a trim function, whose
    rejections pass through it. *)
Local Abbreviation Async := (M_of thrown).

Definition ret {E A} (a : A) : M_of E A := fun s => (Returned a, s).

Definition throw {E A} (e : E) : M_of E A := fun s => (Thrown e, s).

Definition bind {E A B} (m : M_of E A) (k : A -> M_of E B) : M_of E B :=
  fun s =>
    match m s with
    | (Returned a, s') => k a s'
    | (Thrown e, s') => (Thrown e, s')
    end.

(** [try { m } catch (error) { handler(error) }]. *)
Definition try_catch {E A} (m : M_of E A) (handler : E -> M_of E A) : M_of E A :=
  fun s =>
    match m s with
    | (Returned a, s') => (Returned a, s')
    | (Thrown e, s') => handler e s'
    end.

Definition lift {E A} (r : result_of E A) : M_of E A := fun s => (r, s).

(** A computation of the code's own, where rejections pass. *)
Definition errors {A} (m : M A) : Async A :=
  fun s => let (r, s') := m s in (raised r, s').

Notation "x <- m ;; k" := (bind m (fun x => k))
  (at level 61, m at next level, right associativity).
Notation "m ;;; k" := (bind m (fun _ => k))
  (at level 61, right associativity).

(** [Logger.enableLogging()]. *)
Definition Logger_enableLogging : M unit :=
  fun s => (Returned tt,
            {| world := world s; calls := calls s; invocations := invocations s;
               enabled := true; console := console s |}).

(** [Logger.error(message, data)]: the first console argument. *)
Definition Logger_error (message : string) : M unit :=
  fun s => (Returned tt,
            if enabled s
            then {| world := world s; calls := calls s; invocations := invocations s;
                    enabled := enabled s;
                    console := console s ++ [("ERROR: " ++ message)%string] |}
            else s).

(** [await ai.run(model, input)]. *)
Definition ai_run (ai : Ai) (model : string) (input : AiInput) : Async AiTextGenerationOutput :=
  fun s =>
    let (r, w) := ai model input (world s) in
    (r, {| world := w;
           calls := calls s ++ [{| call_model := model; call_input := input; call_output := r |}];
           invocations := invocations s; enabled := enabled s; console := console s |}).

(** [fn(args)]: the invoker starts at once; how its promise settles is
    returned as a value, to be consumed where the code awaits it. *)
Definition call_invoker (name : string) (fn : json -> World -> settled string * World)
    (args : json) : M (settled string) :=
  fun s =>
    let (r, w) := fn args (world s) in
    (Returned r,
     {| world := w; calls := calls s;
        invocations := invocations s
          ++ [{| invoked_tool := name; invoked_args := args; invoked_outcome := r |}];
        enabled := enabled s; console := console s |}).

(* ------------------------------------------------------------------------- *)
(** ** The argument validator ([utils.ts]) *)

(** The zod schemas that [convertToZodSchema] builds: [z.string()],
    [z.number()] (with [.int()] when [int]), [z.boolean()], [z.array(e)] and
    [z.object(shape)]. *)
Inductive ZodTypeAny : Type :=
| ZodString
| ZodNumber (int : bool)
| ZodBoolean
| ZodArray (element : ZodTypeAny)
| ZodObject (shape : list (string * ZodTypeAny)).

(** Whether [schema.parse(v)] returns rather than throws a [ZodError].  None
    of the schemas is optional, so [undefined] is refused everywhere; an
    object schema requires every key of its shape and strips the others. *)
Fixpoint zod_accepts (schema : ZodTypeAny) (v : option json) : bool :=
  match schema, v with
  | ZodString, Some (JStr _) => true
  | ZodNumber int, Some (JNum q) => if int then isInteger q else true
  | ZodBoolean, Some (JBool _) => true
  | ZodArray element, Some (JArr elems) =>
      forallb (fun e => zod_accepts element (Some e)) elems
  | ZodObject shape, Some (JObj fields) =>
      forallb (fun kz => let '(key, z) := kz in zod_accepts z (lookup key fields)) shape
  | _, _ => false
  end.

(** zod's classes define getters that have no setter ([description] on
    every schema, [shape] on an object schema, [isEmail] on a string schema
    and the like; which ones depends on the version of zod).  In strict
    code, which a module is, assigning a property of such a name on an
    object whose prototype is a schema throws a [TypeError]:
    [Zod_getter z key] is its message when the schema [z] inherits a getter
    named [key]. *)
Variable Zod_getter : ZodTypeAny -> string -> option string.

(** [properties[key] = z] on the object that a loop fills, [prototype]
    being the schema that an earlier turn of the loop has made its
    prototype, if any.  Under the key [__proto__] the assignment reaches
    the setter of [Object.prototype]: it makes [z] the prototype of the
    object and gives it no property.  Under a key that the object does not
    hold and that names a getter of its prototype, it throws.  Otherwise it
    sets an own property. *)
Definition set_property (key : string) (z : ZodTypeAny) (prototype : option ZodTypeAny)
    (properties : list (string * ZodTypeAny))
  : result (option ZodTypeAny * list (string * ZodTypeAny)) :=
  if String.eqb key "__proto__" then Returned (Some z, properties)
  else
    match lookup key properties, prototype with
    | None, Some p =>
        match Zod_getter p key with
        | Some type_error => Thrown type_error
        | None => Returned (prototype, assign key z properties)
        end
    | _, _ => Returned (prototype, assign key z properties)
    end.

(** The recursive calls of [convertToZodSchema] go through the properties
    of the schema it is given; the loops that reach them are written over
    the property list, with the conversion as a parameter.  The lemmas
    [convertToZodSchema_array] and [convertToZodSchema_object] below state
    the two recursive branches in the words of the source. *)
Section Traversal.

Variable convert : json -> result ZodTypeAny.

(** [for (const key in obj) { properties[key] = convert(obj[key]); }] over
    the properties of an object; what it returns are the own properties of
    the object filled, which is what [z.object] takes its shape from. *)
Fixpoint convert_fields (fields : list (string * json)) (prototype : option ZodTypeAny)
    (properties : list (string * ZodTypeAny)) : result (list (string * ZodTypeAny)) :=
  match fields with
  | [] => Returned properties
  | (key, s) :: rest =>
      result_bind (convert s)
        (fun z =>
           result_bind (set_property key z prototype properties)
             (fun filled => convert_fields rest (fst filled) (snd filled)))
  end.

(** The same loop over the indices of an array, none of which is
    [__proto__]. *)
Fixpoint convert_elems (i : nat) (elems : list json) (properties : list (string * ZodTypeAny))
  : result (list (string * ZodTypeAny)) :=
  match elems with
  | [] => Returned properties
  | s :: rest =>
      result_bind (convert s)
        (fun z => convert_elems (S i) rest (assign (nat_to_string i) z properties))
  end.

(** [convert(schema.items)]. *)
Fixpoint convert_items (fields : list (string * json)) : result ZodTypeAny :=
  match fields with
  | [] => Thrown "Cannot read properties of undefined (reading 'type')"
  | (k, items) :: rest =>
      if String.eqb "items" k then result_map ZodArray (convert items)
      else convert_items rest
  end.

(** The [case "object"] branch: the loop over [schema.properties]. *)
Fixpoint convert_properties (fields : list (string * json)) : result ZodTypeAny :=
  match fields with
  | [] => Returned (ZodObject [])
  | (k, properties) :: rest =>
      if String.eqb "properties" k then
        match properties with
        | JObj entries => result_map ZodObject (convert_fields entries None [])
        | JArr elems => result_map ZodObject (convert_elems 0 elems [])
        | JStr EmptyString => Returned (ZodObject [])
        | JStr (String _ _) => Thrown "Unsupported schema type: undefined"
        | _ => Returned (ZodObject [])
        end
      else convert_properties rest
  end.

End Traversal.

(** [convertToZodSchema(schema)] for a schema that is not [undefined]. *)
Fixpoint convertToZodSchema (schema : json) : result ZodTypeAny :=
  match schema with
  | JNull => Thrown "Cannot read properties of null (reading 'type')"
  | JObj fields =>
      match lookup "type" fields with
      | Some (JStr type) =>
          if String.eqb type "string" then Returned ZodString
          else if String.eqb type "number" then Returned (ZodNumber false)
          else if String.eqb type "integer" then Returned (ZodNumber true)
          else if String.eqb type "boolean" then Returned ZodBoolean
          else if String.eqb type "array" then convert_items convertToZodSchema fields
          else if String.eqb type "object" then convert_properties convertToZodSchema fields
          else Thrown ("Unsupported schema type: " ++ type)%string
      | type =>
          Thrown ("Unsupported schema type: " ++ ToString_opt Number_toString type)%string
      end
  | _ => Thrown "Unsupported schema type: undefined"
  end.

(** [convertToZodSchema(schema)] where [schema] may be [undefined]. *)
Definition convertToZodSchema_opt (schema : option json) : result ZodTypeAny :=
  match schema with
  | None => Thrown "Cannot read properties of undefined (reading 'type')"
  | Some s => convertToZodSchema s
  end.

(** The loop [for (const key in properties) zodSchema[key] = convertToZodSchema(properties[key])]. *)
Definition zodSchema_of (properties : option json) : result (list (string * ZodTypeAny)) :=
  convert_fields convertToZodSchema (for_in properties) None [].

(** [validateArgsWithZod(args, properties)].  The schema is built outside the
    [try]; only [schema.parse(args)] is guarded. *)
Definition validateArgsWithZod (args : json) (properties : option json) : M bool :=
  zodSchema <- lift (zodSchema_of properties) ;;
  let schema := ZodObject zodSchema in
  if zod_accepts schema (Some args)
  then ret true
  else Logger_error "Validation failed:" ;;; ret false.

(* ------------------------------------------------------------------------- *)
(** ** The orchestration loop ([src/runWithTools.ts]) *)

(** The order in which the promises of one round settle is the event loop's.
    It cannot look into what it orders, and it loses and invents nothing. *)
Record Scheduler : Type := {
  order : forall A : Type, World -> list A -> list A;
  order_perm : forall (A : Type) (w : World) (l : list A), Permutation (order w l) l
}.

(** The promise of one tool-call callback, once its synchronous part has
    run: it has returned, it has thrown, or it awaits [fn(args)], whose
    settlement is known to the world. *)
Inductive Pending : Type :=
| Done
| Rejected (message : string)
| Awaiting (selectedTool : Tool) (outcome : settled string).

Definition TrimFunction : Type :=
  list Tool -> Ai -> string -> list Message -> Async (list Tool).

(** [({ function: _function, ...rest }) => rest] and
    [{ ...tool, function: undefined }]: the descriptor without its invoker. *)
Definition without_function (tool : Tool) : Tool :=
  {| Tool.name := Tool.name tool;
     Tool.description := Tool.description tool;
     Tool.parameters := Tool.parameters tool;
     Tool.function := None |}.

(** [(tool) => ({ type: "function", function: { ...tool, function: undefined } })]. *)
Definition offer (tool : Tool) : ToolInput :=
  {| ToolInput.type := "function"; ToolInput.function := without_function tool |}.

Section Closure.

(** What [runAndProcessToolCall] closes over. *)
Variable sched : Scheduler.
Variable ai : Ai.
Variable model : string.
Variable input_tools : list Tool.            (* input.tools *)
Variable tools : list ToolInput.             (* the offer list *)
Variable strictValidation : bool.
Variable streamFinalResponse : bool.

(** The synchronous part of the callback of [tool_calls.map], up to its
    [await fn(args)]. *)
Definition toolCallCallback (toolCall : ToolCall) (messages : list Message)
  : M (list Message * Pending) :=
  let messages :=
    messages ++ [{| Message.role := Message.assistant;
                    Message.content := JSON_stringify Number_toString (ToolCall.to_json toolCall);
                    Message.name := None |}] in
  try_catch
    (match find (fun tool => String.eqb (Tool.name tool) (ToolCall.name toolCall)) input_tools with
     | None =>
         Logger_error ("Tool " ++ ToolCall.name toolCall ++ " not found, maybe AI hallucinated") ;;;
         ret (messages, Done)
     | Some selectedTool =>
         match Tool.function selectedTool, Tool.parameters selectedTool with
         | Some fn, Some parameters =>
             let args := ToolCall.arguments toolCall in
             invalid <- (if strictValidation
                         then properties <- lift (prop parameters "properties") ;;
                              valid <- validateArgsWithZod args properties ;;
                              ret (negb valid)
                         else ret false) ;;
             if invalid : bool then
               Logger_error ("Invalid arguments for tool " ++ Tool.name selectedTool ++ ": "
                               ++ JSON_stringify Number_toString args) ;;;
               ret (messages, Done)
             else
               outcome <- call_invoker (Tool.name selectedTool) fn args ;;
               ret (messages, Awaiting selectedTool outcome)
         | _, _ =>
             Logger_error ("Function for tool " ++ ToolCall.name toolCall ++ " is undefined") ;;;
             ret (messages, Done)
         end
     end)
    (fun message => ret (messages, Rejected message)).

(** [tool_calls.map(async (toolCall) => ...)]: every callback runs its
    synchronous part in turn, whatever became of the ones before. *)
Fixpoint start_all (tool_calls : list ToolCall) (messages : list Message)
  : M (list Message * list Pending) :=
  match tool_calls with
  | [] => ret (messages, [])
  | toolCall :: rest =>
      r <- toolCallCallback toolCall messages ;;
      rs <- start_all rest (fst r) ;;
      ret (fst rs, snd r :: snd rs)
  end.

(** The turn pushed when [await fn(args)] returns or throws; the catch
    clause reads the message off what was thrown, which throws in its turn
    when that is [undefined] or [null]. *)
Definition settled_turn (selectedTool : Tool) (outcome : settled string) : result Message :=
  match outcome with
  | Returned result =>
      Returned {| Message.role := Message.tool;
                  Message.content := JSON_stringify Number_toString (JStr result);
                  Message.name := Some (Tool.name selectedTool) |}
  | Thrown error =>
      result_map
        (fun message =>
           {| Message.role := Message.tool;
              Message.content :=
                ("Error executing tool " ++ Tool.name selectedTool ++ ": " ++ message)%string;
              Message.name := Some (Tool.name selectedTool) |})
        (message_of error)
  end.

(** The assistant turn pushed for a requested tool call. *)
Definition assistant_turn (toolCall : ToolCall) : Message :=
  {| Message.role := Message.assistant;
     Message.content := JSON_stringify Number_toString (ToolCall.to_json toolCall);
     Message.name := None |}.

(** The rest of a callback after its [await]. *)
Definition resume (p : Tool * settled string) (messages : list Message) : M (list Message) :=
  (match snd p with
   | Returned _ => ret tt
   | Thrown _ => Logger_error ("Error executing tool " ++ Tool.name (fst p) ++ ":")
   end) ;;;
  turn <- lift (settled_turn (fst p) (snd p)) ;;
  ret (messages ++ [turn]).

Fixpoint resume_all (ps : list (Tool * settled string)) (messages : list Message)
  : M (list Message) :=
  match ps with
  | [] => ret messages
  | p :: rest => messages' <- resume p messages ;; resume_all rest messages'
  end.

Fixpoint first_rejection (ps : list Pending) : option string :=
  match ps with
  | [] => None
  | Rejected message :: _ => Some message
  | _ :: rest => first_rejection rest
  end.

Fixpoint awaiting (ps : list Pending) : list (Tool * settled string) :=
  match ps with
  | [] => []
  | Awaiting selectedTool outcome :: rest => (selectedTool, outcome) :: awaiting rest
  | _ :: rest => awaiting rest
  end.

(** [await Promise.all(toolCallPromises)]: the first rejection is thrown,
    that of a callback whose synchronous part threw or else that of the
    first callback that throws as it resumes; until then the awaiting
    callbacks resume in the scheduler's order.  (After a rejection the
    callbacks still awaiting resume once the run has thrown; what they then
    push and log is no longer part of the run.) *)
Definition Promise_all (toolCallPromises : list Pending) (messages : list Message)
  : M (list Message) :=
  match first_rejection toolCallPromises with
  | Some message => throw message
  | None =>
      fun s => resume_all (order sched (world s) (awaiting toolCallPromises)) messages s
  end.

(** Lines 150-219, one dispatch round: [tool_calls.map(...)] and
    [await Promise.all(toolCallPromises)]. *)
Definition dispatch (tool_calls : list ToolCall) (messages : list Message) : M (list Message) :=
  started <- start_all tool_calls messages ;;
  Promise_all (snd started) (fst started).

(** [response.tool_calls?.filter(Boolean) ?? []]. *)
Definition requested (response : AiTextGenerationOutput) : list ToolCall :=
  match tool_calls_of response with
  | Some tcs => filter_Boolean tcs
  | None => []
  end.

(** [runAndProcessToolCall].  The counter only ever is compared with 0 and
    decremented, so it is a natural number here; [messages] is the array
    the recursive call receives. *)
Fixpoint runAndProcessToolCall (maxRecursiveToolRuns : nat) (messages : list Message)
  : Async AiTextGenerationOutput :=
  try_catch
    (response <- ai_run ai model
                   {| AiInput.messages := messages; AiInput.stream := false;
                      AiInput.tools := Some tools |} ;;
     let tool_calls := requested response in
     messages <- errors (dispatch tool_calls messages) ;;
     match maxRecursiveToolRuns, tool_calls with
     | S maxRecursiveToolRuns, _ :: _ => runAndProcessToolCall maxRecursiveToolRuns messages
     | _, _ =>
         ai_run ai model
           {| AiInput.messages := messages; AiInput.stream := streamFinalResponse;
              AiInput.tools := None |}
     end)
    (fun error =>
       errors (Logger_error "Error in runAndProcessToolCall:") ;;;
       throw (wrapped "Error in runAndProcessToolCall: " error)).

End Closure.

(** The [config] argument; an option that is not given takes its default. *)
Record Config : Type := {
  streamFinalResponse : option bool;
  maxRecursiveToolRuns : option Z;
  strictValidation : option bool;
  verbose : option bool;
  trimFunction : option TrimFunction
}.

Definition default {A} (d : A) (o : option A) : A :=
  match o with
  | Some a => a
  | None => d
  end.

(** [runWithTools(ai, model, input, config)].  A counter that is not
    positive stops the recursion at once, as 0 does. *)
Definition runWithTools (sched : Scheduler) (ai : Ai) (model : string) (input : Input)
    (config : Config) : Async AiTextGenerationOutput :=
  let streamFinalResponse := default false (streamFinalResponse config) in
  let maxRecursiveToolRuns := default 0%Z (maxRecursiveToolRuns config) in
  let verbose := default false (verbose config) in
  let trimFunction :=
    default (fun tools _ _ _ => ret tools) (trimFunction config) in
  let strictValidation := default false (strictValidation config) in
  errors (if verbose then Logger_enableLogging else ret tt) ;;;
  let initialtoolsWithoutFunctions := map without_function (Input.tools input) in
  let tools := map offer initialtoolsWithoutFunctions in
  let messages := Input.messages input in
  chosenTools <- trimFunction (Input.tools input) ai model messages ;;
  let tools := map offer chosenTools in
  try_catch
    (runAndProcessToolCall sched ai model (Input.tools input) tools strictValidation
       streamFinalResponse (Z.to_nat maxRecursiveToolRuns) messages)
    (fun error =>
       errors (Logger_error "Error in runWithTools:") ;;;
       throw (wrapped "Error in runWithTools: " error)).

(* ------------------------------------------------------------------------- *)
(** ** The tool selector [autoTrimTools] ([utils.ts]) *)

(** The synthetic tool the selector offers. *)
Definition chooseTools : Tool :=
  {| Tool.name := "chooseTool";
     Tool.description := "This tool will choose the best tools for a given task";
     Tool.parameters :=
       Some (JObj [("type", JStr "object");
                   ("properties",
                    JObj [("tools", JObj [("type", JStr "array");
                                          ("items", JObj [("type", JStr "string")])])]);
                   ("required", JArr [JStr "tools"])]);
     Tool.function := None |}.

Definition toolsPrompt (tools : list Tool) (messages : list Message) : string :=
  ("For the following prompt, please find the best tool names that will be suitable to complete some tasks. For this, you must run the "
   ++ String dquote ("chooseTool" ++ String dquote (" tool. " ++ newline
   ++ "Here are the available tool names to choose from: "
   ++ join ", " (map (fun tool => Tool.name tool) tools) ++ ". " ++ newline
   ++ "Here are the messages: " ++ newline ++ newline
   ++ JSON_stringify Number_toString (JArr (map Message.to_json messages)) ++ ".")))%string.

(** [names.includes(name)] for a string [name]. *)
Definition includes (names : list json) (name : string) : bool :=
  existsb (fun e => match e with JStr s => String.eqb s name | _ => false end) names.

Definition autoTrimTools : TrimFunction :=
  fun tools ai model messages =>
    let returnedTools := tools in
    if length tools <? 5 then
      errors (Logger_error "autoTrimTools is only supported for tasks with more than 4 tools") ;;;
      ret returnedTools
    else
      toolsResponse <- ai_run ai model
                         {| AiInput.messages :=
                              [{| Message.role := Message.user;
                                  Message.content := toolsPrompt tools messages;
                                  Message.name := None |}];
                            AiInput.stream := false;
                            AiInput.tools :=
                              Some [{| ToolInput.type := "function";
                                       ToolInput.function := chooseTools |}] |} ;;
      let chooseToolCalls := option_map (@filter_Boolean ToolCall) (tool_calls_of toolsResponse) in
      match chooseToolCalls with
      | Some (first :: _) =>
          chosen <- lift (raised (prop (ToolCall.arguments first) "tools")) ;;
          match chosen with
          | Some (JArr names) =>
              ret (filter (fun tool => includes names (Tool.name tool)) returnedTools)
          | _ => ret returnedTools
          end
      | _ => ret returnedTools
      end.

(* ------------------------------------------------------------------------- *)
(** ** The query string of a generated invoker ([src/createToolsFromOpenAPISpec.ts]) *)

(** A property of the [args] object of an invoker: a JSON value, or the
    [args] object itself, which is what [args.query] is once
    [args.query = args] has run. *)
Inductive ArgValue : Type :=
| Value (v : json)
| Itself.

Definition arg_truthy (v : option ArgValue) : bool :=
  match v with
  | None => false
  | Some Itself => true
  | Some (Value j) => truthy j
  end.

(** Lines 313-324 of [createToolFunction]: the flat-arguments heuristic. *)
Definition reinterpret_args (args : list (string * ArgValue)) : list (string * ArgValue) :=
  if (0 <? length args)
     && negb (arg_truthy (lookup "header" args))
     && negb (arg_truthy (lookup "query" args))
     && negb (arg_truthy (lookup "cookie" args))
     && negb (arg_truthy (lookup "formData" args))
     && negb (arg_truthy (lookup "body" args))
  then assign "query" Itself args
  else args.

Definition arg_ToString (v : ArgValue) : string :=
  match v with
  | Value j => ToString Number_toString j
  | Itself => "[object Object]"
  end.

(** Lines 389-392: [for (const key in args.query) queryParams.append(key, args.query[key])],
    as the list of pairs appended. *)
Definition args_query (args : list (string * ArgValue)) : list (string * string) :=
  match lookup "query" args with
  | None => []
  | Some Itself => map (fun kv => (fst kv, arg_ToString (snd kv))) args
  | Some (Value query) =>
      map (fun kv => (fst kv, ToString Number_toString (snd kv))) (for_in (Some query))
  end.

(** The entries of [queryParams] when the invoker sets [url.search]:
    those the override rules appended, then those of the arguments. *)
Definition createToolFunction_queryParams (overrides : list (string * string))
    (args : list (string * json)) : list (string * string) :=
  let args := reinterpret_args (map (fun kv => (fst kv, Value (snd kv))) args) in
  overrides ++ args_query args.

(* ------------------------------------------------------------------------- *)
(** ** Tools from an OpenAPI document ([src/createToolsFromOpenAPISpec.ts]) *)

(** What the engine and the libraries provide: [JSON.parse], [YAML.parse],
    [await fetch(spec)], [new URL(s)], the string that
    [generateRandomString] draws ([Math.random().toString(36).substring(7)])
    and the message of the [TypeError] for spreading a value that is not
    iterable. *)
Record Engine : Type := {
  JSON_parse : string -> result json;
  YAML_parse : string -> result json;
  fetch : string -> World -> result (Response.t World) * World;
  URL_parse : string -> result URL.t;
  generateRandomString : World -> string * World;
  TypeError_not_iterable : json -> string
}.

Section OpenAPI.

Variable engine : Engine.

(** [[...(v || [])]]. *)
Definition spread_or_empty (v : option json) : result (list json) :=
  match v with
  | None => Returned []
  | Some j =>
      if truthy j then
        match j with
        | JArr elems => Returned elems
        | JStr s => Returned (map JStr (code_points s))
        | _ => Thrown (TypeError_not_iterable engine j)
        end
      else Returned []
  end.

(** The body of the loop of [extractParameters], lines 249-259. *)
Definition add_param (openapiSpec : json) (parameters : Parameters.t) (param : json)
  : outcome Parameters.t :=
  outcome_bind (resolveReference param openapiSpec) (fun resolvedParam =>
  outcome_bind (of_result (prop_of resolvedParam "schema")) (fun schema =>
  outcome_bind (of_result (prop_of schema "type")) (fun type =>
  outcome_bind (of_result (prop_of resolvedParam "description")) (fun description =>
  outcome_bind (of_result (prop_of resolvedParam "in")) (fun place =>
  outcome_bind (of_result (prop_of resolvedParam "name")) (fun name =>
    let info := paramInfo (match type with
                           | None | Some JNull => JStr "string"
                           | Some t => t
                           end) description in
    let place := ToString_opt Number_toString place in
    let name := ToString_opt Number_toString name in
    match Parameters.get place parameters with
    | Some fields =>
        if String.eqb name "__proto__" then Strays
        else Yields (Parameters.set place (define name info fields) parameters)
    | None =>
        if inherited place then Strays
        else Raises ("Cannot set properties of undefined (setting '" ++ name ++ "')")%string
    end)))))).

(** [extractParameters(pathData, operation, openapiSpec)]. *)
Definition extractParameters (pathData operation openapiSpec : json) : outcome Parameters.t :=
  outcome_bind (of_result (result_bind (prop pathData "parameters") spread_or_empty))
    (fun ofPath =>
  outcome_bind (of_result (result_bind (prop operation "parameters") spread_or_empty))
    (fun ofOperation =>
       fold_left (fun acc param =>
                    outcome_bind acc (fun parameters => add_param openapiSpec parameters param))
         (ofPath ++ ofOperation) (Yields Parameters.empty))).

(** [v[0]] for a [v] that is neither [null] nor [undefined]. *)
Definition item0 (v : json) : option json :=
  match v with
  | JArr elems => nth_error elems 0
  | JObj fields => lookup "0" fields
  | JStr s => match code_points s with
              | p :: _ => Some (JStr p)
              | [] => None
              end
  | _ => None
  end.

(** [v.servers?.[0]?.url]. *)
Definition first_server_url (v : json) : result (option json) :=
  result_bind (prop v "servers")
    (fun servers =>
       match servers with
       | None | Some JNull => Returned None
       | Some servers =>
           match item0 servers with
           | None | Some JNull => Returned None
           | Some server => prop server "url"
           end
       end).

(** [getServerUrl(openapiSpec, pathData)]. *)
Definition getServerUrl (openapiSpec pathData : json) : result URL.t :=
  result_bind (first_server_url pathData)
    (fun rawUrl =>
       result_bind (if truthy_opt rawUrl then Returned rawUrl
                    else first_server_url openapiSpec)
         (fun rawUrl =>
            match rawUrl with
            | Some u =>
                if truthy u then URL_parse engine (ToString Number_toString u)
                else Thrown "No server URL found in OpenAPI spec"
            | None => Thrown "No server URL found in OpenAPI spec"
            end)).

(** [meta.url], lines 82-85. *)
Definition meta_url (url : URL.t) (path : string) : string :=
  (URL.protocol url ++ "//" ++ URL.host url ++ strip_trailing_slash (URL.pathname url)
   ++ path)%string.

(** The body of the inner loop, lines 75-172, for the property [method] of
    [pathData], whose value is [operation]: the descriptor it pushes, if it
    pushes one. *)
Definition tool_of_operation (openapiSpec : json) (config : OpenAPIConfig.t) (path : string)
    (pathData : json) (method : string) (operation : json) (w : World)
  : outcome (option GeneratedTool.t) * World :=
  if negb (isHttpMethod method) then (Yields None, w)
  else
    match getServerUrl openapiSpec pathData with
    | Thrown e => (Raises e, w)
    | Returned url =>
        let meta := meta_url url path in
        if match OpenAPIConfig.matchPatterns config with
           | Some patterns => negb (existsb (fun pattern => pattern meta) patterns)
           | None => false
           end
        then (Yields None, w)
        else
          match extractParameters pathData operation openapiSpec with
          | Raises e => (Raises e, w)
          | Strays => (Strays, w)
          | Yields parameters =>
              match extractRequestBody operation openapiSpec with
              | Raises e => (Raises e, w)
              | Strays => (Strays, w)
              | Yields requestBody =>
                  match prop operation "operationId", prop operation "summary" with
                  | Returned operationId, Returned summary =>
                      let named :=
                        match operationId with
                        | None | Some JNull =>
                            let (random, w') := generateRandomString engine w in (JStr random, w')
                        | Some id => (id, w)
                        end in
                      (Yields (Some {| GeneratedTool.name := fst named;
                                       GeneratedTool.description :=
                                         match summary with
                                         | None | Some JNull => JStr ""
                                         | Some text => text
                                         end;
                                       GeneratedTool.parameters := tool_parameters parameters;
                                       GeneratedTool.function :=
                                         {| Invoker.url := meta;
                                            Invoker.method := method;
                                            Invoker.requestBody := requestBody |} |}),
                       snd named)
                  | Thrown e, _ => (Raises e, w)
                  | _, Thrown e => (Raises e, w)
                  end
              end
          end
    end.

(** [for (const method in pathData)], lines 74-173. *)
Fixpoint tools_of_methods (openapiSpec : json) (config : OpenAPIConfig.t) (path : string)
    (pathData : json) (entries : list (string * json)) (tools : list GeneratedTool.t)
    (w : World) : outcome (list GeneratedTool.t) * World :=
  match entries with
  | [] => (Yields tools, w)
  | (method, operation) :: rest =>
      match tool_of_operation openapiSpec config path pathData method operation w with
      | (Yields None, w') => tools_of_methods openapiSpec config path pathData rest tools w'
      | (Yields (Some tool), w') =>
          tools_of_methods openapiSpec config path pathData rest (tools ++ [tool]) w'
      | (Raises e, w') => (Raises e, w')
      | (Strays, w') => (Strays, w')
      end
  end.

(** [for (const path in openapiSpec.paths)], lines 72-174. *)
Fixpoint tools_of_paths (openapiSpec : json) (config : OpenAPIConfig.t)
    (entries : list (string * json)) (tools : list GeneratedTool.t) (w : World)
  : outcome (list GeneratedTool.t) * World :=
  match entries with
  | [] => (Yields tools, w)
  | (path, pathData) :: rest =>
      match tools_of_methods openapiSpec config path pathData (for_in (Some pathData)) tools w
      with
      | (Yields tools', w') => tools_of_paths openapiSpec config rest tools' w'
      | (Raises e, w') => (Raises e, w')
      | (Strays, w') => (Strays, w')
      end
  end.

(** [await (await fetch(spec)).text()]. *)
Definition fetch_text (spec : string) (w : World) : result string * World :=
  match fetch engine spec w with
  | (Returned res, w1) => Response.text res w1
  | (Thrown e, w1) => (Thrown e, w1)
  end.

(** An effect on the world alone. *)
Definition await {A} (effect : World -> result A * World) : M A :=
  fun s =>
    let (r, w) := effect (world s) in
    (r, {| world := w; calls := calls s; invocations := invocations s;
           enabled := enabled s; console := console s |}).

(** [console.error(message, ...)], which does not go through the logger. *)
Definition console_error (message : string) : M unit :=
  fun s => (Returned tt,
            {| world := world s; calls := calls s; invocations := invocations s;
               enabled := enabled s; console := console s ++ [message] |}).

(** [fetchSpec(spec)] of [createToolsFromOpenAPISpec.ts], lines 179-200. *)
Definition fetchSpec (spec : string) : M (option json) :=
  content <- (if prefix "http" spec
              then fun s =>
                     let (r, w) := fetch_text spec (world s) in
                     (r, {| world := w; calls := calls s; invocations := invocations s;
                            enabled := enabled s; console := console s |})
              else ret spec) ;;
  match (if prefix "{" (trim content) then JSON_parse engine content
         else YAML_parse engine content) with
  | Returned document => ret (Some document)
  | Thrown _ => console_error "Error parsing the OpenAPI spec:" ;;; ret None
  end.

(** [typeof v === "object"] for a [v] that is not [null]. *)
Definition is_object (v : json) : bool :=
  match v with
  | JArr _ | JObj _ => true
  | _ => false
  end.

(** [fetchSpec(spec)] of [utils.ts], lines 44-77, which calls itself on the
    text it fetches: the outer [None] stands for a recursion deeper than
    [fuel], the inner one for [undefined]. *)
Fixpoint utils_fetchSpec (fuel : nat) (spec : string) : M (option (option json)) :=
  match fuel with
  | O => ret None
  | S fuel =>
      match JSON_parse engine spec with
      | Returned document => ret (Some (Some document))
      | Thrown _ =>
          console_error "Failed to parse JSON, trying YAML..." ;;;
          yamlDoc <- match YAML_parse engine spec with
                     | Returned yamlDoc =>
                         ret (if is_object yamlDoc then Some yamlDoc else None)
                     | Thrown _ => console_error "Failed to parse YAML." ;;; ret None
                     end ;;
          match yamlDoc with
          | Some yamlDoc => ret (Some (Some yamlDoc))
          | None =>
              try_catch
                (response <- await (fetch engine spec) ;;
                 if negb (Response.ok response) then
                   console_error ("Failed to fetch OpenAPI spec: "
                                  ++ Number_toString (Response.status response) ++ " "
                                  ++ Response.statusText response) ;;;
                   ret (Some None)
                 else
                   content <- await (Response.text response) ;;
                   utils_fetchSpec fuel content)
                (fun _ => console_error "Failed to fetch OpenAPI spec:" ;;; ret (Some None))
          end
      end
  end.

(** [createToolsFromOpenAPISpec(spec, config)]. *)
Definition createToolsFromOpenAPISpec (spec : string) (config : OpenAPIConfig.t)
  : St -> outcome (list GeneratedTool.t) * St :=
  fun s =>
    match fetchSpec spec s with
    | (Thrown e, s1) => (Raises e, s1)
    | (Returned openapiSpec, s1) =>
        if truthy_opt openapiSpec then
          let s2 := if default false (OpenAPIConfig.verbose config)
                    then snd (Logger_enableLogging s1) else s1 in
          match result_bind (prop_of openapiSpec "paths")
                  (fun paths => Returned (for_in paths)) with
          | Thrown e => (Raises e, s2)
          | Returned entries =>
              let (r, w) := tools_of_paths (match openapiSpec with
                                            | Some document => document
                                            | None => JNull
                                            end) config entries [] (world s2) in
              (r, {| world := w; calls := calls s2; invocations := invocations s2;
                     enabled := enabled s2; console := console s2 |})
          end
        else (Raises "Failed to fetch or parse the OpenAPI specification", s1)
    end.

End OpenAPI.

(* ------------------------------------------------------------------------- *)
(** ** Vocabulary of the statements *)

(** What [validateArgsWithZod(args, parameters.properties)] comes to, as a
    value: it throws while reading [properties] or building the schema, or
    tells whether the schema accepts [args]. *)
Definition validation (parameters : json) (args : json) : result bool :=
  result_bind (prop parameters "properties")
    (fun properties =>
       result_map (fun shape => zod_accepts (ZodObject shape) (Some args))
         (zodSchema_of properties)).

(** The tool-result turn that an invocation leaves in the conversation, if
    the callback that made it gets to push one. *)
Definition turn_of (i : Invocation) : result Message :=
  match invoked_outcome i with
  | Returned result =>
      Returned {| Message.role := Message.tool;
                  Message.content := JSON_stringify Number_toString (JStr result);
                  Message.name := Some (invoked_tool i) |}
  | Thrown error =>
      result_map
        (fun message =>
           {| Message.role := Message.tool;
              Message.content :=
                ("Error executing tool " ++ invoked_tool i ++ ": " ++ message)%string;
              Message.name := Some (invoked_tool i) |})
        (message_of error)
  end.

(** [s'] differs from [s] in the console at most. *)
Definition quiet (s s' : St) : Prop :=
  world s' = world s /\ calls s' = calls s /\ invocations s' = invocations s
  /\ enabled s' = enabled s.

(** A logged model call offers no descriptor that carries an invoker. *)
Definition function_free (c : AiCall) : Prop :=
  match AiInput.tools (call_input c) with
  | None => True
  | Some offered => Forall (fun o => Tool.function (ToolInput.function o) = None) offered
  end.

(** A logged model call is a dispatch round: tools were offered and the
    answer requested at least one tool call. *)
Definition is_round (c : AiCall) : bool :=
  match AiInput.tools (call_input c), call_output c with
  | Some _, Returned response =>
      match requested response with
      | [] => false
      | _ :: _ => true
      end
  | _, _ => false
  end.

Definition rounds (log : list AiCall) : nat := length (filter is_round log).

(** The endpoint answers every call. *)
Definition answers (ai : Ai) : Prop :=
  forall model input w, exists response, fst (ai model input w) = Returned response.

(** The endpoint requests at least one tool call whenever tools are offered. *)
Definition always_requests (ai : Ai) : Prop :=
  forall model input w,
    AiInput.tools input <> None ->
    exists response toolCall rest,
      fst (ai model input w) = Returned response /\ requested response = toolCall :: rest.

(** Under strict validation, the schema of every descriptor that has one
    can be built. *)
Definition schemas_build (strictValidation : bool) (input_tools : list Tool) : Prop :=
  strictValidation = true ->
  forall t parameters args,
    In t input_tools -> Tool.parameters t = Some parameters ->
    exists b, validation parameters args = Returned b.

(** The part of [runWithTools] before the loop: the logging switch and the
    trim function, which returns the descriptors to offer. *)
Definition selection (ai : Ai) (model : string) (input : Input) (config : Config)
  : Async (list Tool) :=
  errors (if default false (verbose config) then Logger_enableLogging else ret tt) ;;;
  default (fun tools _ _ _ => ret tools) (trimFunction config)
    (Input.tools input) ai model (Input.messages input).

(** What the callback decides for a tool call, before anything runs. *)
Inductive Verdict : Type :=
| NotFound
| NoFunction (selectedTool : Tool)
| Invalid (selectedTool : Tool)
| Throws (selectedTool : Tool) (message : string)
| Invoke (selectedTool : Tool) (fn : json -> World -> settled string * World).

Definition verdict (input_tools : list Tool) (strictValidation : bool) (toolCall : ToolCall)
  : Verdict :=
  match find (fun tool => String.eqb (Tool.name tool) (ToolCall.name toolCall)) input_tools with
  | None => NotFound
  | Some selectedTool =>
      match Tool.function selectedTool, Tool.parameters selectedTool with
      | Some fn, Some parameters =>
          if strictValidation then
            match validation parameters (ToolCall.arguments toolCall) with
            | Returned true => Invoke selectedTool fn
            | Returned false => Invalid selectedTool
            | Thrown e => Throws selectedTool e
            end
          else Invoke selectedTool fn
      | _, _ => NoFunction selectedTool
      end
  end.

(** Whether the verdict on a tool call is to call the invoker. *)
Definition to_invoke (input_tools : list Tool) (strictValidation : bool) (toolCall : ToolCall)
  : bool :=
  match verdict input_tools strictValidation toolCall with
  | Invoke _ _ => true
  | _ => false
  end.

(** The promises, the invocations and the world that the synchronous parts
    of the callbacks of one round leave, from the world they start in. *)
Record Started : Type := {
  pendings : list Pending;
  made : list Invocation;
  after : World
}.

Fixpoint started (input_tools : list Tool) (strictValidation : bool)
    (tool_calls : list ToolCall) (w : World) : Started :=
  match tool_calls with
  | [] => {| pendings := []; made := []; after := w |}
  | toolCall :: rest =>
      match verdict input_tools strictValidation toolCall with
      | Invoke t fn =>
          let r := fn (ToolCall.arguments toolCall) w in
          let st := started input_tools strictValidation rest (snd r) in
          {| pendings := Awaiting t (fst r) :: pendings st;
             made := {| invoked_tool := Tool.name t;
                        invoked_args := ToolCall.arguments toolCall;
                        invoked_outcome := fst r |} :: made st;
             after := after st |}
      | Throws _ e =>
          let st := started input_tools strictValidation rest w in
          {| pendings := Rejected e :: pendings st; made := made st; after := after st |}
      | _ =>
          let st := started input_tools strictValidation rest w in
          {| pendings := Done :: pendings st; made := made st; after := after st |}
      end
  end.

(** The turns that callbacks push as they resume in this order, or the
    error of the first of them that throws. *)
Fixpoint settled_turns (ps : list (Tool * settled string)) : result (list Message) :=
  match ps with
  | [] => Returned []
  | p :: rest =>
      result_bind (settled_turn (fst p) (snd p))
        (fun turn => result_map (cons turn) (settled_turns rest))
  end.

(** What a round comes to once its callbacks have started: the error that
    [Promise.all] rejects with, or the tool turns pushed. *)
Definition pushed (sched : Scheduler) (st : Started) : result (list Message) :=
  match first_rejection (pendings st) with
  | Some e => Thrown e
  | None => settled_turns (order sched (after st) (awaiting (pendings st)))
  end.

(** No invoker of a listed descriptor rejects with [undefined] or [null]. *)
Definition rejections_readable (input_tools : list Tool) : Prop :=
  forall t fn args w,
    In t input_tools -> Tool.function t = Some fn ->
    fst (fn args w) <> Thrown Undefined /\ fst (fn args w) <> Thrown Null.

(** The shape of a run of the loop from [messages] and [s] that ended in
    [out]: the model calls it logged are the rounds [mid], each on the offer
    list, then at most one call without tools; the invokers it called are
    those of listed descriptors; if it returned, the call without tools is
    the last, it was made on the conversation grown by the turns of exactly
    the invocations made, and its output is what the run returned. *)
Definition run_shape (model : string) (input_tools : list Tool) (tools : list ToolInput)
    (streamFinalResponse : bool)
    (mid : list AiCall) (messages : list Message) (s : St)
    (out : settled AiTextGenerationOutput * St) : Prop :=
  exists last made_all,
    enabled (snd out) = enabled s
    /\ calls (snd out) = calls s ++ mid ++ last
    /\ invocations (snd out) = invocations s ++ made_all
    /\ Forall (fun c => AiInput.tools (call_input c) = Some tools) mid
    /\ (forall i, In i made_all ->
                  exists t, In t input_tools /\ Tool.name t = invoked_tool i)
    /\ match fst out with
       | Returned o =>
           exists extra,
             last = [{| call_model := model;
                        call_input := {| AiInput.messages := messages ++ extra;
                                         AiInput.stream := streamFinalResponse;
                                         AiInput.tools := None |};
                        call_output := Returned o |}]
             /\ (forall i, In i made_all -> exists m, turn_of i = Returned m /\ In m extra)
             /\ (forall m, In m extra -> Message.role m = Message.tool ->
                           exists i, In i made_all /\ turn_of i = Returned m)
       | Thrown _ =>
           last = [] \/ exists final, last = [final] /\ AiInput.tools (call_input final) = None
       end.

(** A parameter schema that [convertToZodSchema] can convert: its [type] is
    one of the six kinds, an array declares its [items], and the
    [properties] of an object, when declared, are an object of such
    schemas, none of them under the key [__proto__]. *)
Inductive Supported : json -> Prop :=
| Supported_primitive (fields : list (string * json)) (type : string) :
    lookup "type" fields = Some (JStr type) ->
    In type ["string"; "number"; "integer"; "boolean"] ->
    Supported (JObj fields)
| Supported_array (fields : list (string * json)) (items : json) :
    lookup "type" fields = Some (JStr "array") ->
    lookup "items" fields = Some items ->
    Supported items ->
    Supported (JObj fields)
| Supported_object (fields : list (string * json)) :
    lookup "type" fields = Some (JStr "object") ->
    lookup "properties" fields = None ->
    Supported (JObj fields)
| Supported_object_of (fields entries : list (string * json)) :
    lookup "type" fields = Some (JStr "object") ->
    lookup "properties" fields = Some (JObj entries) ->
    SupportedAll entries ->
    Supported (JObj fields)
with SupportedAll : list (string * json) -> Prop :=
| SupportedAll_nil : SupportedAll []
| SupportedAll_cons (key : string) (schema : json) (rest : list (string * json)) :
    key <> "__proto__" ->
    Supported schema -> SupportedAll rest -> SupportedAll ((key, schema) :: rest).

Scheme Supported_mut := Induction for Supported Sort Prop
  with SupportedAll_mut := Induction for SupportedAll Sort Prop.

(** What was thrown, once [depth] nested calls of [runAndProcessToolCall]
    have caught it and thrown again. *)
Fixpoint rethrown (depth : nat) (error : thrown) : thrown :=
  match depth with
  | 0 => error
  | S depth => wrapped "Error in runAndProcessToolCall: " (rethrown depth error)
  end.

(** The conversation a logged model call was made on. *)
Definition conversation (c : AiCall) : list Message :=
  AiInput.messages (call_input c).

(** [later] is [earlier] with assistant and tool turns pushed at its end. *)
Definition grown (earlier later : list Message) : Prop :=
  exists extra,
    later = earlier ++ extra
    /\ Forall (fun m => Message.role m = Message.assistant \/ Message.role m = Message.tool) extra.

Section Trace.

Variable sched : Scheduler.
Variable model : string.
Variable input_tools : list Tool.
Variable tools : list ToolInput.
Variable strictValidation : bool.
Variable streamFinalResponse : bool.

(** The model calls and the invocations that the loop may log when it runs
    from a conversation: the call without tools, which ends it; or a call
    that offers the tools and fails, which ends it too; or such a call that
    answers, followed by the invocations of its round, and then, unless a
    callback of the round threw, by what the loop logs from the conversation
    grown by the assistant turns and the tool turns of the round. *)
Inductive trace : list Message -> list AiCall -> list Invocation -> Prop :=
| trace_final (messages : list Message) (r : settled AiTextGenerationOutput) :
    trace messages
      [{| call_model := model;
          call_input := {| AiInput.messages := messages;
                           AiInput.stream := streamFinalResponse;
                           AiInput.tools := None |};
          call_output := r |}] []
| trace_failed (messages : list Message) (e : thrown) :
    trace messages
      [{| call_model := model;
          call_input := {| AiInput.messages := messages; AiInput.stream := false;
                           AiInput.tools := Some tools |};
          call_output := Thrown e |}] []
| trace_aborted (messages : list Message) (response : AiTextGenerationOutput) (w : World)
    (e : string) :
    pushed sched (started input_tools strictValidation (requested response) w) = Thrown e ->
    trace messages
      [{| call_model := model;
          call_input := {| AiInput.messages := messages; AiInput.stream := false;
                           AiInput.tools := Some tools |};
          call_output := Returned response |}]
      (made (started input_tools strictValidation (requested response) w))
| trace_round (messages : list Message) (response : AiTextGenerationOutput) (w : World)
    (turns : list Message) (rest : list AiCall) (invs : list Invocation) :
    pushed sched (started input_tools strictValidation (requested response) w)
    = Returned turns ->
    trace (messages ++ map assistant_turn (requested response) ++ turns) rest invs ->
    trace messages
      ({| call_model := model;
          call_input := {| AiInput.messages := messages; AiInput.stream := false;
                           AiInput.tools := Some tools |};
          call_output := Returned response |} :: rest)
      (made (started input_tools strictValidation (requested response) w) ++ invs).

End Trace.

(** [s'] has the logging switch of [s], and the console of [s] if logging
    is off. *)
Definition hushed (s s' : St) : Prop :=
  enabled s' = enabled s /\ (enabled s = false -> console s' = console s).

(** A computation that leaves the logging switch as it is and that, if
    logging is off, writes nothing to the console. *)
Definition discreet {E A} (m : M_of E A) : Prop :=
  forall s, hushed s (snd (m s)).

(** [YAML.parse] makes no object or array of the text, so that [fetchSpec]
    of [utils.ts] goes on to fetch it. *)
Definition no_yaml_document (engine : Engine) (spec : string) : Prop :=
  match YAML_parse engine spec with
  | Returned yamlDoc => is_object yamlDoc = false
  | Thrown _ => True
  end.

(** The value that own properties of objects lead to from [v] along
    [path]. *)
Fixpoint descend (path : list string) (v : json) : option json :=
  match path with
  | [] => Some v
  | key :: rest =>
      match v with
      | JObj fields =>
          match lookup key fields with
          | Some w => descend rest w
          | None => None
          end
      | _ => None
      end
  end.

(** A string without a slash. *)
Definition slashless (s : string) : bool :=
  forallb (fun c => negb (Ascii.eqb c "/")) (list_ascii_of_string s).

(** An info that holds a [type], which is not [null], perhaps a
    [description], and nothing else. *)
Definition kept (info : list (string * json)) : Prop :=
  exists type description, info = paramInfo type description /\ type <> JNull.

(** [P] holds of the parameters of each of the six places. *)
Definition each_place (P : list (string * list (string * json)) -> Prop) (p : Parameters.t)
  : Prop :=
  P (Parameters.path p) /\ P (Parameters.query p) /\ P (Parameters.header p)
  /\ P (Parameters.cookie p) /\ P (Parameters.formData p) /\ P (Parameters.body p).

(** *** Sample data

    The scheduler that settles promises in the order they were made, a fresh
    state, and the descriptors, endpoints and configurations on which the
    statements below are exercised. *)

Definition in_order : Scheduler :=
  {| order := fun (A : Type) (_ : World) (l : list A) => l;
     order_perm := fun (A : Type) (_ : World) (l : list A) => Permutation_refl l |}.

Definition fresh (w : World) : St :=
  {| world := w; calls := []; invocations := []; enabled := true; console := [] |}.

Definition no_parameters : json :=
  JObj [("type", JStr "object"); ("properties", JObj []); ("required", JArr [])].

(** The tool of the specification's scenario: its invoker returns
    [{"name":"X"}]. *)
Definition getUser : Tool :=
  {| Tool.name := "getUser"; Tool.description := "Look a user up";
     Tool.parameters := Some no_parameters;
     Tool.function :=
       Some (fun _ w =>
               (Returned (String "{" (String dquote ("name" ++ String dquote (":" ++
                            String dquote ("X" ++ String dquote "}")))))%string, w)) |}.

(** A tool whose invoker always rejects. *)
Definition failing : Tool :=
  {| Tool.name := "failing"; Tool.description := "Always fails";
     Tool.parameters := Some no_parameters;
     Tool.function := Some (fun _ w => (Thrown (Error "boom"), w)) |}.

(** A tool whose invoker always rejects with [undefined], as
    [Promise.reject()] does. *)
Definition vanishing : Tool :=
  {| Tool.name := "vanishing"; Tool.description := "Rejects with nothing";
     Tool.parameters := Some no_parameters;
     Tool.function := Some (fun _ w => (Thrown Undefined, w)) |}.

(** A tool with an invoker and no [parameters]. *)
Definition bare : Tool :=
  {| Tool.name := "bare"; Tool.description := "Has no parameters";
     Tool.parameters := None;
     Tool.function := Some (fun _ w => (Returned "ran", w)) |}.


Definition named (name : string) : Tool :=
  {| Tool.name := name; Tool.description := ""; Tool.parameters := None;
     Tool.function := None |}.

Definition five_tools : list Tool :=
  [named "a"; named "b"; named "c"; named "d"; named "e"].

(** An endpoint that requests the call [name(arguments)] whenever it is
    offered tools, and answers in text otherwise. *)
Definition requesting (name : string) (arguments : json) : Ai :=
  fun _ input w =>
    match AiInput.tools input with
    | Some _ => (Returned (Output None (Some [Some (ToolCall.mk name arguments)])), w)
    | None => (Returned (Output (Some "done") None), w)
    end.

(** An endpoint that never requests a tool call. *)
Definition silent : Ai :=
  fun _ _ w => (Returned (Output (Some "done") None), w).

Definition question : list Message :=
  [{| Message.role := Message.user; Message.content := "Who is X on example.org?";
      Message.name := None |}].

Definition defaults : Config :=
  {| streamFinalResponse := None; maxRecursiveToolRuns := None; strictValidation := None;
     verbose := None; trimFunction := None |}.

Definition strictly : Config :=
  {| streamFinalResponse := None; maxRecursiveToolRuns := None; strictValidation := Some true;
     verbose := None; trimFunction := None |}.

(** Two recursive tool runs allowed. *)
Definition twice : Config :=
  {| streamFinalResponse := None; maxRecursiveToolRuns := Some 2%Z; strictValidation := None;
     verbose := None; trimFunction := None |}.

Definition trimming : Config :=
  {| streamFinalResponse := None; maxRecursiveToolRuns := None; strictValidation := None;
     verbose := None; trimFunction := Some autoTrimTools |}.

(** The question of the scenario, put with the given descriptors. *)
Definition asking (tools : list Tool) : Input :=
  {| Input.messages := question; Input.tools := tools |}.

(** A request of the model for the tool [name], without arguments. *)
Definition call (name : string) : ToolCall :=
  {| ToolCall.name := name; ToolCall.arguments := JObj [] |}.

(** An endpoint that fails every call. *)
Definition overloaded : Ai :=
  fun _ _ w => (Thrown (Error "overloaded"), w).

(** An endpoint that requests the tool [name] as long as the conversation
    holds no tool turn, and fails once it holds one. *)
Definition failing_after (name : string) : Ai :=
  fun _ input w =>
    if existsb (fun m => match Message.role m with Message.tool => true | _ => false end)
         (AiInput.messages input)
    then (Thrown (Error "overloaded"), w)
    else (Returned (Output None (Some [Some (call name)])), w).

(** A trim function that lets no descriptor through. *)
Definition trim_all : TrimFunction :=
  fun _ _ _ _ => ret [].

Definition trimming_all : Config :=
  {| streamFinalResponse := None; maxRecursiveToolRuns := None; strictValidation := None;
     verbose := None; trimFunction := Some trim_all |}.

(** A tool whose only parameter is an array that declares no [items]. *)
Definition tagging : Tool :=
  {| Tool.name := "tagging"; Tool.description := "Tag";
     Tool.parameters :=
       Some (JObj [("type", JStr "object");
                   ("properties", JObj [("tags", JObj [("type", JStr "array")])])]);
     Tool.function := Some (fun _ w => (Returned "tagged", w)) |}.

Definition verbosely : Config :=
  {| streamFinalResponse := None; maxRecursiveToolRuns := None; strictValidation := None;
     verbose := Some true; trimFunction := None |}.

(** An operation that adds a referenced parameter and an array to those of
    its path item, and declares the parameter [id] again. *)
Definition get_pet : json :=
  JObj [("operationId", JStr "getPet"); ("summary", JStr "Get a pet");
        ("parameters",
         JArr [JObj [("$ref", JStr "#/components/parameters/verbose")];
               JObj [("name", JStr "tags"); ("in", JStr "query");
                     ("schema",
                      JObj [("type", JStr "array");
                            ("items", JObj [("type", JStr "string")])])];
               JObj [("name", JStr "id"); ("in", JStr "path");
                     ("required", JBool true);
                     ("description", JStr "the id");
                     ("schema", JObj [("$ref", JStr "#/components/schemas/Id")])]])].

(** A path item: a parameter of its own, the operation [get_pet], a key
    [trace] and an operation [DELETE] with a JSON body. *)
Definition pets_item : json :=
  JObj [("parameters",
         JArr [JObj [("name", JStr "id"); ("in", JStr "path");
                     ("required", JBool true);
                     ("schema", JObj [("type", JStr "integer")])]]);
        ("get", get_pet);
        ("trace", JObj []);
        ("DELETE",
         JObj [("requestBody",
                JObj [("content",
                       JObj [("application/json",
                              JObj [("schema", JObj [("type", JStr "object")])])])])])].

(** A document with that one path item. *)
Definition petstore : json :=
  JObj [("openapi", JStr "3.0.0");
        ("servers", JArr [JObj [("url", JStr "https://api.example.org/v1/")]]);
        ("paths", JObj [("/pets/{id}", pets_item)]);
        ("components",
         JObj [("parameters",
                JObj [("verbose",
                       JObj [("name", JStr "verbose"); ("in", JStr "query");
                             ("schema", JObj [("type", JStr "boolean")])])])])].

(** An engine for the sample data: the one JSON text it parses is
    [{petstore}], the YAML texts it parses are the empty one and [paths: {}],
    the one URL it parses is that of the sample document, the one resource
    that can be fetched holds [{petstore}], and the random string is always
    the same. *)
Definition sample_engine : Engine :=
  {| JSON_parse := fun content =>
                     if String.eqb content "{petstore}" then Returned petstore
                     else Thrown "Unexpected token";
     YAML_parse := fun content =>
                     if String.eqb content "" then Returned JNull
                     else if String.eqb content "paths: {}"
                          then Returned (JObj [("paths", JObj [])])
                          else Thrown "Unexpected scalar";
     fetch := fun url w =>
                if String.eqb url "https://example.org/openapi.json"
                then (Returned {| Response.ok := true; Response.status := 200;
                                  Response.statusText := "OK";
                                  Response.text := fun w1 => (Returned "{petstore}", w1) |}, w)
                else (Thrown "fetch failed", w);
     URL_parse := fun s =>
                    if String.eqb s "https://api.example.org/v1/"
                    then Returned {| URL.protocol := "https:"; URL.host := "api.example.org";
                                     URL.pathname := "/v1/" |}
                    else Thrown "Invalid URL";
     generateRandomString := fun w => ("k3x9f", w);
     TypeError_not_iterable := fun _ => "object is not iterable" |}.

(** A server that answers every request with the address it was asked for;
    no text is JSON here, and every text is a YAML scalar. *)
Definition echoing : Engine :=
  {| JSON_parse := fun _ => Thrown "Unexpected token";
     YAML_parse := fun content => Returned (JStr content);
     fetch := fun url w =>
                (Returned {| Response.ok := true; Response.status := 200;
                             Response.statusText := "OK";
                             Response.text := fun w1 => (Returned url, w1) |}, w);
     URL_parse := fun _ => Thrown "Invalid URL";
     generateRandomString := fun w => ("k3x9f", w);
     TypeError_not_iterable := fun _ => "object is not iterable" |}.

(** A zod whose schemas have the getter [description], which the class
    [ZodType] of zod 3 defines, with the error as V8 words it. *)
Definition getters (z : ZodTypeAny) (key : string) : option string :=
  if String.eqb key "description"
  then Some "Cannot set property description of #<ZodType> which has only a getter"
  else None.

(** A state in which logging is off. *)
Definition muted (w : World) : St :=
  {| world := w; calls := []; invocations := []; enabled := false; console := [] |}.

(** An endpoint that requests two tools whenever it is offered tools. *)
Definition requesting_two (first second : string) : Ai :=
  fun _ input w =>
    match AiInput.tools input with
    | Some _ => (Returned (Output None (Some [Some (call first); Some (call second)])), w)
    | None => (Returned (Output (Some "done") None), w)
    end.

(* ------------------------------------------------------------------------- *)
(** ** Facts about the monad and the primitive effects *)

Ltac case_if :=
  match goal with
  | |- context [if ?b then _ else _] => destruct b eqn:?
  end.

Lemma quiet_refl (s : St) : quiet s s.
Proof. repeat split. Qed.

Lemma quiet_trans (s1 s2 s3 : St) : quiet s1 s2 -> quiet s2 s3 -> quiet s1 s3.
Proof.
  unfold quiet. intros (H1 & H2 & H3 & H4) (K1 & K2 & K3 & K4).
  repeat split; congruence.
Qed.

Lemma Logger_error_returns (message : string) (s : St) :
  fst (Logger_error message s) = Returned tt.
Proof. reflexivity. Qed.

Lemma Logger_error_quiet (message : string) (s : St) :
  quiet s (snd (Logger_error message s)).
Proof.
  unfold Logger_error, quiet. simpl. destruct (enabled s) eqn:E; simpl; auto.
Qed.

Lemma Logger_error_console (message : string) (s : St) :
  enabled s = true ->
  console (snd (Logger_error message s)) = console s ++ [("ERROR: " ++ message)%string].
Proof. intros E. unfold Logger_error. simpl. rewrite E. reflexivity. Qed.

Lemma validateArgsWithZod_result (args : json) (properties : option json) (s : St) :
  fst (validateArgsWithZod args properties s)
  = result_map (fun shape => zod_accepts (ZodObject shape) (Some args)) (zodSchema_of properties).
Proof.
  unfold validateArgsWithZod, bind, lift.
  destruct (zodSchema_of properties) as [shape|e]; simpl; [|reflexivity].
  case_if; reflexivity.
Qed.

Lemma validateArgsWithZod_quiet (args : json) (properties : option json) (s : St) :
  quiet s (snd (validateArgsWithZod args properties s)).
Proof.
  unfold validateArgsWithZod, bind, lift.
  destruct (zodSchema_of properties) as [shape|e]; simpl; [|apply quiet_refl].
  case_if; simpl; [apply quiet_refl|].
  apply Logger_error_quiet.
Qed.

Lemma validateArgsWithZod_accepts (args : json) (properties : option json) (s : St) :
  fst (validateArgsWithZod args properties s) = Returned true ->
  snd (validateArgsWithZod args properties s) = s.
Proof.
  unfold validateArgsWithZod, bind, lift.
  destruct (zodSchema_of properties) as [shape|e]; simpl; [|discriminate].
  case_if; simpl; [reflexivity|discriminate].
Qed.

(* ------------------------------------------------------------------------- *)
(** ** The validator *)

Lemma convert_items_lookup (convert : json -> result ZodTypeAny) (fields : list (string * json)) :
  convert_items convert fields
  = match lookup "items" fields with
    | Some items => result_map ZodArray (convert items)
    | None => Thrown "Cannot read properties of undefined (reading 'type')"
    end.
Proof.
  induction fields as [|[k v] rest IH]; [reflexivity|].
  cbn [convert_items lookup]. destruct (String.eqb "items" k); [reflexivity|exact IH].
Qed.

Lemma nat_to_string_not_proto (i : nat) : String.eqb (nat_to_string i) "__proto__" = false.
Proof.
  unfold nat_to_string. destruct (Nat.to_uint i); reflexivity.
Qed.

(** Without a prototype set, a key other than [__proto__] becomes an own
    property. *)
Lemma set_property_plain (key : string) (z : ZodTypeAny)
    (properties : list (string * ZodTypeAny)) :
  String.eqb key "__proto__" = false ->
  set_property key z None properties = Returned (None, assign key z properties).
Proof.
  intros H. unfold set_property. rewrite H. destruct (lookup key properties); reflexivity.
Qed.

Lemma convert_elems_index (convert : json -> result ZodTypeAny) (elems : list json) :
  forall i properties,
    convert_elems convert i elems properties
    = convert_fields convert (index_from i elems) None properties.
Proof.
  induction elems as [|e rest IH]; intros i properties; [reflexivity|].
  cbn [convert_elems convert_fields index_from].
  destruct (convert e); cbn [result_bind]; [|reflexivity].
  rewrite set_property_plain by apply nat_to_string_not_proto. cbn [result_bind fst snd].
  apply IH.
Qed.

(** A text that is not empty has a code unit. *)
Lemma code_units_from_nonempty (bytes : list ascii) :
  forall current more,
    bytes <> [] \/ current <> "" -> code_units_from bytes current more <> [].
Proof.
  induction bytes as [|b rest IH]; intros current more H; cbn [code_units_from].
  - destruct H as [H|H]; [congruence|]. destruct current; [congruence|discriminate].
  - destruct more as [|more].
    + destruct (continuation_bytes b); [discriminate|]. apply IH. right. discriminate.
    + destruct more as [|more].
      * destruct (String.length _ =? 4); discriminate.
      * apply IH. right. destruct current; discriminate.
Qed.

(** The [case "array"] branch is [z.array(convertToZodSchema(schema.items))]. *)
Lemma convertToZodSchema_array (fields : list (string * json)) :
  lookup "type" fields = Some (JStr "array") ->
  convertToZodSchema (JObj fields)
  = result_map ZodArray (convertToZodSchema_opt (lookup "items" fields)).
Proof.
  intros H. cbn [convertToZodSchema]. rewrite H. cbn.
  rewrite convert_items_lookup. destruct (lookup "items" fields); reflexivity.
Qed.

(** The [case "object"] branch runs the loop of [validateArgsWithZod] over
    [schema.properties]. *)
Lemma convertToZodSchema_object (fields : list (string * json)) :
  lookup "type" fields = Some (JStr "object") ->
  convertToZodSchema (JObj fields)
  = result_map ZodObject (zodSchema_of (lookup "properties" fields)).
Proof.
  intros H. cbn [convertToZodSchema]. rewrite H. cbn [String.eqb Ascii.eqb Bool.eqb].
  clear H. unfold zodSchema_of.
  induction fields as [|[k v] rest IH]; [reflexivity|].
  cbn [convert_properties lookup]. destruct (String.eqb "properties" k); [|exact IH].
  destruct v as [| | |str|elems|entries]; try reflexivity.
  - destruct str as [|c str]; [reflexivity|]. cbn [for_in].
    destruct (code_units (String c str)) as [|u us] eqn:U;
      [exfalso; revert U; apply code_units_from_nonempty; left; discriminate|].
    reflexivity.
  - cbn [for_in]. rewrite convert_elems_index. reflexivity.
Qed.

(** A type outside the six kinds is refused while the schema is built. *)
Lemma convertToZodSchema_unsupported (fields : list (string * json)) (type : string) :
  lookup "type" fields = Some (JStr type) ->
  ~ In type ["string"; "number"; "integer"; "boolean"; "array"; "object"] ->
  convertToZodSchema (JObj fields) = Thrown ("Unsupported schema type: " ++ type)%string.
Proof.
  intros H Hnot. cbn [convertToZodSchema]. rewrite H.
  repeat match goal with
         | |- context [String.eqb type ?k] =>
             destruct (String.eqb_spec type k) as [->|_];
             [exfalso; apply Hnot; cbn; tauto|]
         end.
  reflexivity.
Qed.

(** Every supported schema converts. *)
Lemma convertToZodSchema_supported (schema : json) :
  Supported schema -> exists z, convertToZodSchema schema = Returned z.
Proof.
  intros H.
  induction H using Supported_mut
    with (P0 := fun entries _ =>
                  forall properties,
                  exists shape,
                    convert_fields convertToZodSchema entries None properties
                    = Returned shape).
  - cbn [convertToZodSchema]. rewrite e.
    destruct i as [<-|[<-|[<-|[<-|[]]]]]; cbn; eauto.
  - rewrite convertToZodSchema_array by assumption. rewrite e0. cbn.
    destruct IHSupported as (z & ->). cbn. eauto.
  - rewrite convertToZodSchema_object by assumption. rewrite e0. cbn. eauto.
  - rewrite convertToZodSchema_object by assumption. rewrite e0.
    unfold zodSchema_of. cbn [for_in].
    destruct (IHSupported []) as (shape & ->). cbn. eauto.
  - intros properties. cbn. eauto.
  - intros properties. cbn [convert_fields].
    destruct IHSupported as (z & ->). cbn [result_bind].
    rewrite set_property_plain by (apply String.eqb_neq; assumption).
    cbn [result_bind fst snd]. apply IHSupported0.
Qed.

Lemma zodSchema_of_supported (entries : list (string * json)) :
  SupportedAll entries -> exists shape, zodSchema_of (Some (JObj entries)) = Returned shape.
Proof.
  intros H. unfold zodSchema_of. cbn [for_in]. generalize (@nil (string * ZodTypeAny)).
  induction H as [|key schema rest Hk Hs Hr IH]; intros properties.
  - cbn. eauto.
  - cbn [convert_fields]. destruct (convertToZodSchema_supported Hs) as (z & ->).
    cbn [result_bind]. rewrite set_property_plain by (apply String.eqb_neq; assumption).
    cbn [result_bind fst snd]. apply IH.
Qed.

(** With supported schemas, validation answers true or false. *)
Lemma validateArgsWithZod_returns (args : json) (entries : list (string * json)) (s : St) :
  SupportedAll entries ->
  exists b s',
    validateArgsWithZod args (Some (JObj entries)) s = (Returned b, s') /\ quiet s s'.
Proof.
  intros H. destruct (zodSchema_of_supported H) as (shape & Hshape).
  pose proof (validateArgsWithZod_result args (Some (JObj entries)) s) as R.
  pose proof (validateArgsWithZod_quiet args (Some (JObj entries)) s) as Q.
  rewrite Hshape in R. unfold result_map in R. cbn [result_bind] in R.
  destruct (validateArgsWithZod args (Some (JObj entries)) s) as [r s'].
  cbn [fst snd] in R, Q. subst r. eauto.
Qed.

(** The first schema that cannot be built stops the validation before the
    arguments are looked at. *)
Lemma validateArgsWithZod_fails_fast (args : json) (before after : list (string * json))
    (key : string) (schema : json) (e : string) (s : St) :
  SupportedAll before ->
  convertToZodSchema schema = Thrown e ->
  validateArgsWithZod args (Some (JObj (before ++ (key, schema) :: after))) s = (Thrown e, s).
Proof.
  intros Hb He. unfold validateArgsWithZod, bind, lift, zodSchema_of. cbn [for_in].
  assert (H : forall properties,
             convert_fields convertToZodSchema (before ++ (key, schema) :: after) None
               properties
             = Thrown e).
  { induction Hb as [|k sch rest Hk Hs Hr IH]; intros properties.
    - cbn. rewrite He. reflexivity.
    - cbn [app convert_fields]. destruct (convertToZodSchema_supported Hs) as (z & ->).
      cbn [result_bind]. rewrite set_property_plain by (apply String.eqb_neq; assumption).
      cbn [result_bind fst snd]. apply IH. }
  rewrite H. reflexivity.
Qed.

(** C9 (the code departs from the claim).  A parameter whose declared type
    is [array] and that declares no [items], all of its declared types being
    supported, makes [validateArgsWithZod] throw a [TypeError], whatever the
    arguments: [convertToZodSchema(schema.items)] reads [type] off
    [undefined]. *)
Theorem validateArgsWithZod_array_without_items (args : json) (s : St) :
  validateArgsWithZod args (Some (JObj [("tags", JObj [("type", JStr "array")])])) s
  = (Thrown "Cannot read properties of undefined (reading 'type')", s).
Proof. reflexivity. Qed.

(* ------------------------------------------------------------------------- *)
(** ** One tool call *)

Section OneCall.

Variable input_tools : list Tool.
Variable strictValidation : bool.
Variable toolCall : ToolCall.
Variable messages : list Message.
Variable s : St.

Let selected :=
  find (fun tool => String.eqb (Tool.name tool) (ToolCall.name toolCall)) input_tools.

(** A name that no descriptor carries: logged, nothing invoked, nothing awaited. *)
Lemma callback_not_found :
  selected = None ->
  toolCallCallback input_tools strictValidation toolCall messages s
  = (Returned (messages ++ [assistant_turn toolCall], Done),
     snd (Logger_error ("Tool " ++ ToolCall.name toolCall ++ " not found, maybe AI hallucinated") s)).
Proof.
  unfold selected. intros H.
  unfold toolCallCallback, try_catch, bind. rewrite H. reflexivity.
Qed.

(** A descriptor without an invoker or without parameters: logged and skipped. *)
Lemma callback_no_function (t : Tool) :
  selected = Some t ->
  Tool.function t = None \/ Tool.parameters t = None ->
  toolCallCallback input_tools strictValidation toolCall messages s
  = (Returned (messages ++ [assistant_turn toolCall], Done),
     snd (Logger_error ("Function for tool " ++ ToolCall.name toolCall ++ " is undefined") s)).
Proof.
  unfold selected. intros H Hno.
  unfold toolCallCallback, try_catch, bind. rewrite H.
  destruct (Tool.function t) as [fn|], (Tool.parameters t) as [p|];
    try reflexivity; destruct Hno; discriminate.
Qed.

(** Without strict validation the invoker is called, whatever the schema. *)
Lemma callback_unchecked (t : Tool) fn parameters :
  selected = Some t ->
  Tool.function t = Some fn ->
  Tool.parameters t = Some parameters ->
  strictValidation = false ->
  toolCallCallback input_tools strictValidation toolCall messages s
  = (Returned (messages ++ [assistant_turn toolCall],
               Awaiting t (fst (fn (ToolCall.arguments toolCall) (world s)))),
     snd (call_invoker (Tool.name t) fn (ToolCall.arguments toolCall) s)).
Proof.
  unfold selected. intros H Hf Hp Hs.
  unfold toolCallCallback, try_catch, bind. rewrite H, Hf, Hp, Hs.
  unfold ret, call_invoker.
  destruct (fn (ToolCall.arguments toolCall) (world s)) as [r w]. reflexivity.
Qed.

(** Under strict validation, arguments that the schema accepts reach the invoker. *)
Lemma callback_valid (t : Tool) fn parameters :
  selected = Some t ->
  Tool.function t = Some fn ->
  Tool.parameters t = Some parameters ->
  strictValidation = true ->
  validation parameters (ToolCall.arguments toolCall) = Returned true ->
  toolCallCallback input_tools strictValidation toolCall messages s
  = (Returned (messages ++ [assistant_turn toolCall],
               Awaiting t (fst (fn (ToolCall.arguments toolCall) (world s)))),
     snd (call_invoker (Tool.name t) fn (ToolCall.arguments toolCall) s)).
Proof.
  unfold selected. intros H Hf Hp Hs Hv.
  unfold toolCallCallback, try_catch, bind. rewrite H, Hf, Hp, Hs.
  unfold validation in Hv. unfold lift.
  destruct (prop parameters "properties") as [properties|e]; cbn [result_bind] in Hv;
    [|discriminate].
  pose proof (validateArgsWithZod_result (ToolCall.arguments toolCall) properties s) as R.
  pose proof (@validateArgsWithZod_accepts (ToolCall.arguments toolCall) properties s) as A.
  rewrite Hv in R.
  destruct (validateArgsWithZod (ToolCall.arguments toolCall) properties s) as [r s1].
  simpl in R, A. subst r. rewrite (A eq_refl). unfold ret. simpl.
  unfold call_invoker.
  destruct (fn (ToolCall.arguments toolCall) (world s)) as [r w]. reflexivity.
Qed.

(** Under strict validation, arguments that the schema refuses stop the call:
    the invoker is not called and nothing is awaited. *)
Lemma callback_invalid (t : Tool) fn parameters :
  selected = Some t ->
  Tool.function t = Some fn ->
  Tool.parameters t = Some parameters ->
  strictValidation = true ->
  validation parameters (ToolCall.arguments toolCall) = Returned false ->
  exists s',
    toolCallCallback input_tools strictValidation toolCall messages s
    = (Returned (messages ++ [assistant_turn toolCall], Done), s')
    /\ quiet s s'.
Proof.
  unfold selected. intros H Hf Hp Hs Hv.
  unfold toolCallCallback, try_catch, bind. rewrite H, Hf, Hp, Hs.
  unfold validation in Hv. unfold lift.
  destruct (prop parameters "properties") as [properties|e]; cbn [result_bind] in Hv;
    [|discriminate].
  pose proof (validateArgsWithZod_result (ToolCall.arguments toolCall) properties s) as R.
  pose proof (validateArgsWithZod_quiet (ToolCall.arguments toolCall) properties s) as Q.
  rewrite Hv in R.
  destruct (validateArgsWithZod (ToolCall.arguments toolCall) properties s) as [r s1].
  simpl in R, Q. subst r. unfold ret. simpl.
  eexists. split; [reflexivity|].
  eapply quiet_trans; [exact Q|]. apply Logger_error_quiet.
Qed.

(** Under strict validation, a schema that cannot be built rejects the
    promise of the callback. *)
Lemma callback_throws (t : Tool) fn parameters e :
  selected = Some t ->
  Tool.function t = Some fn ->
  Tool.parameters t = Some parameters ->
  strictValidation = true ->
  validation parameters (ToolCall.arguments toolCall) = Thrown e ->
  toolCallCallback input_tools strictValidation toolCall messages s
  = (Returned (messages ++ [assistant_turn toolCall], Rejected e), s).
Proof.
  unfold selected. intros H Hf Hp Hs Hv.
  unfold toolCallCallback, try_catch, bind. rewrite H, Hf, Hp, Hs.
  unfold validation in Hv. unfold lift.
  destruct (prop parameters "properties") as [properties|e']; cbn [result_bind] in Hv.
  - unfold validateArgsWithZod, bind, lift.
    destruct (zodSchema_of properties) as [shape|e']; cbn in Hv; [discriminate|].
    inversion Hv; subst. reflexivity.
  - inversion Hv; subst. reflexivity.
Qed.

End OneCall.

(* ------------------------------------------------------------------------- *)
(** ** One dispatch round *)

Section Round.

Variable sched : Scheduler.
Variable input_tools : list Tool.
Variable strictValidation : bool.

(** The callback does what its verdict says. *)
Lemma callback_verdict (toolCall : ToolCall) (messages : list Message) (s : St) :
  exists s',
    toolCallCallback input_tools strictValidation toolCall messages s
    = (Returned (messages ++ [assistant_turn toolCall],
                 match verdict input_tools strictValidation toolCall with
                 | Invoke t fn => Awaiting t (fst (fn (ToolCall.arguments toolCall) (world s)))
                 | Throws _ e => Rejected e
                 | _ => Done
                 end), s')
    /\ calls s' = calls s /\ enabled s' = enabled s
    /\ match verdict input_tools strictValidation toolCall with
       | Invoke t fn =>
           world s' = snd (fn (ToolCall.arguments toolCall) (world s))
           /\ invocations s'
              = invocations s
                ++ [{| invoked_tool := Tool.name t;
                       invoked_args := ToolCall.arguments toolCall;
                       invoked_outcome := fst (fn (ToolCall.arguments toolCall) (world s)) |}]
       | _ => world s' = world s /\ invocations s' = invocations s
       end.
Proof.
  unfold verdict.
  destruct (find (fun tool => String.eqb (Tool.name tool) (ToolCall.name toolCall)) input_tools)
    as [t|] eqn:F.
  - destruct (Tool.function t) as [fn|] eqn:Hf.
    + destruct (Tool.parameters t) as [p|] eqn:Hp.
      * assert (Hinv : exists s',
                   snd (call_invoker (Tool.name t) fn (ToolCall.arguments toolCall) s) = s'
                   /\ calls s' = calls s /\ enabled s' = enabled s
                   /\ world s' = snd (fn (ToolCall.arguments toolCall) (world s))
                   /\ invocations s'
                      = invocations s
                        ++ [{| invoked_tool := Tool.name t;
                               invoked_args := ToolCall.arguments toolCall;
                               invoked_outcome :=
                                 fst (fn (ToolCall.arguments toolCall) (world s)) |}]).
        { eexists. split; [reflexivity|]. unfold call_invoker.
          destruct (fn (ToolCall.arguments toolCall) (world s)); simpl. auto. }
        destruct Hinv as (s' & E & I1 & I2 & I3 & I4).
        destruct strictValidation eqn:Hs.
        -- destruct (validation p (ToolCall.arguments toolCall)) as [[|]|e] eqn:V.
           ++ exists s'. rewrite (@callback_valid _ _ _ messages s t fn p F Hf Hp eq_refl V).
              rewrite E. auto.
           ++ destruct (@callback_invalid _ _ _ messages s t fn p F Hf Hp eq_refl V)
                as (s1 & E1 & (Q1 & Q2 & Q3 & Q4)).
              exists s1. rewrite E1. auto.
           ++ exists s. rewrite (@callback_throws _ _ _ messages s t fn p e F Hf Hp eq_refl V).
              auto.
        -- exists s'. rewrite (@callback_unchecked _ _ _ messages s t fn p F Hf Hp eq_refl).
           rewrite E. auto.
      * eexists. rewrite (@callback_no_function _ strictValidation _ messages s t F (or_intror Hp)).
        split; [reflexivity|].
        destruct (Logger_error_quiet
                    ("Function for tool " ++ ToolCall.name toolCall ++ " is undefined") s)
          as (Q1 & Q2 & Q3 & Q4). auto.
    + eexists. rewrite (@callback_no_function _ strictValidation _ messages s t F (or_introl Hf)).
      split; [reflexivity|].
      destruct (Logger_error_quiet
                  ("Function for tool " ++ ToolCall.name toolCall ++ " is undefined") s)
        as (Q1 & Q2 & Q3 & Q4). auto.
  - eexists. rewrite (@callback_not_found _ strictValidation _ messages s F).
    split; [reflexivity|].
    destruct (Logger_error_quiet
                ("Tool " ++ ToolCall.name toolCall ++ " not found, maybe AI hallucinated") s)
      as (Q1 & Q2 & Q3 & Q4). auto.
Qed.

(** [tool_calls.map] pushes one assistant turn per call, in order, and leaves
    what [started] computes. *)
Lemma start_all_spec (tool_calls : list ToolCall) :
  forall (messages : list Message) (s : St),
  exists s',
    start_all input_tools strictValidation tool_calls messages s
    = (Returned (messages ++ map assistant_turn tool_calls,
                 pendings (started input_tools strictValidation tool_calls (world s))), s')
    /\ calls s' = calls s /\ enabled s' = enabled s
    /\ world s' = after (started input_tools strictValidation tool_calls (world s))
    /\ invocations s'
       = invocations s ++ made (started input_tools strictValidation tool_calls (world s)).
Proof.
  induction tool_calls as [|c rest IH]; intros messages s.
  - exists s. simpl. unfold ret. rewrite !app_nil_r. auto.
  - destruct (callback_verdict c messages s) as (s1 & E1 & C1 & N1 & V1).
    cbn [start_all]. unfold bind at 1. rewrite E1. cbn [fst snd].
    destruct (IH (messages ++ [assistant_turn c]) s1) as (s2 & E2 & C2 & N2 & W2 & I2).
    unfold bind at 1. rewrite E2. unfold ret. cbn [fst snd].
    exists s2. cbn [started map].
    destruct (verdict input_tools strictValidation c) as [|t|t|t e|t fn];
      destruct V1 as [V1 V1']; rewrite V1 in *; cbn [pendings made after];
      rewrite <- app_assoc; cbn [app];
      (split; [reflexivity|]); repeat split; try congruence;
      rewrite I2, V1'; rewrite <- ?app_assoc; reflexivity.
Qed.

(** The callbacks that resume push one tool turn each, until one throws,
    and touch the console only. *)
Lemma resume_all_spec (ps : list (Tool * settled string)) :
  forall (messages : list Message) (s : St),
  exists s',
    resume_all ps messages s
    = (result_map (fun turns => messages ++ turns) (settled_turns ps), s')
    /\ quiet s s'.
Proof.
  induction ps as [|p rest IH]; intros messages s.
  - exists s. simpl. unfold ret. rewrite app_nil_r. split; [reflexivity|apply quiet_refl].
  - cbn [resume_all settled_turns]. unfold bind at 1, resume, bind at 1.
    assert (Hq : exists s1, quiet s s1 /\
              (match snd p with
               | Returned _ => ret tt
               | Thrown _ => Logger_error ("Error executing tool " ++ Tool.name (fst p) ++ ":")
               end) s = (Returned tt, s1)).
    { destruct (snd p).
      - exists s. split; [apply quiet_refl|reflexivity].
      - eexists. split; [|reflexivity]. apply Logger_error_quiet. }
    destruct Hq as (s1 & Q1 & E1). rewrite E1. unfold bind at 1, lift.
    destruct (settled_turn (fst p) (snd p)) as [turn|e]; cbn [result_bind result_map].
    + unfold ret at 1.
      destruct (IH (messages ++ [turn]) s1) as (s2 & E2 & Q2).
      rewrite E2. exists s2. split; [|eapply quiet_trans; eassumption].
      destruct (settled_turns rest) as [turns|e]; cbn [result_map result_bind]; [|reflexivity].
      rewrite <- app_assoc. reflexivity.
    + exists s1. split; [reflexivity|exact Q1].
Qed.

(** One round, in full. *)
Lemma dispatch_spec (tool_calls : list ToolCall) (messages : list Message) (s : St) :
  let st := started input_tools strictValidation tool_calls (world s) in
  exists s',
    dispatch sched input_tools strictValidation tool_calls messages s
    = (result_map (fun turns => messages ++ map assistant_turn tool_calls ++ turns)
         (pushed sched st), s')
    /\ calls s' = calls s /\ enabled s' = enabled s
    /\ world s' = after st
    /\ invocations s' = invocations s ++ made st.
Proof.
  intros st. unfold dispatch, bind.
  destruct (start_all_spec tool_calls messages s) as (s1 & E1 & C1 & N1 & W1 & I1).
  rewrite E1. cbn [fst snd]. fold st in W1, I1 |- *. unfold Promise_all, pushed.
  destruct (first_rejection (pendings st)) as [e|].
  - exists s1. unfold throw. auto.
  - destruct (resume_all_spec (order sched (world s1) (awaiting (pendings st)))
                (messages ++ map assistant_turn tool_calls) s1) as (s2 & E2 & Q1 & Q2 & Q3 & Q4).
    rewrite E2. clear E2. rewrite W1. exists s2.
    split; [|repeat split; congruence].
    destruct (settled_turns _) as [turns|e]; cbn [result_map result_bind]; [|reflexivity].
    rewrite <- app_assoc. reflexivity.
Qed.

(** The turns pushed by callbacks that all resumed. *)
Lemma settled_turns_Forall2 (ps : list (Tool * settled string)) :
  forall turns,
    settled_turns ps = Returned turns ->
    Forall2 (fun p m => settled_turn (fst p) (snd p) = Returned m) ps turns.
Proof.
  induction ps as [|p rest IH]; intros turns H; cbn [settled_turns] in H.
  - inversion H. constructor.
  - destruct (settled_turn (fst p) (snd p)) as [turn|e] eqn:T; cbn [result_bind] in H;
      [|discriminate].
    destruct (settled_turns rest) as [turns'|e]; cbn [result_map result_bind] in H;
      [|discriminate].
    inversion H; subst. constructor; [exact T|apply IH; reflexivity].
Qed.

(** They all resume when none of them has [undefined] or [null] to read a
    message off. *)
Lemma settled_turns_Returned (ps : list (Tool * settled string)) :
  Forall (fun p => snd p <> Thrown Undefined /\ snd p <> Thrown Null) ps ->
  exists turns, settled_turns ps = Returned turns.
Proof.
  induction 1 as [|p rest (H1 & H2) _ (turns & IH)]; [eexists; reflexivity|].
  cbn [settled_turns]. rewrite IH.
  destruct p as [t [r|[message| |]]]; cbn in *; try congruence; eexists; reflexivity.
Qed.

(** *** What [started] leaves *)

Lemma made_turns (tool_calls : list ToolCall) :
  forall w,
    map turn_of (made (started input_tools strictValidation tool_calls w))
    = map (fun p => settled_turn (fst p) (snd p))
        (awaiting (pendings (started input_tools strictValidation tool_calls w))).
Proof.
  induction tool_calls as [|c rest IH]; intros w; [reflexivity|].
  cbn [started].
  destruct (verdict input_tools strictValidation c) as [|t|t|t e|t fn];
    cbn [pendings made awaiting map]; try apply IH.
  rewrite IH. reflexivity.
Qed.

Lemma made_of_invoke (tool_calls : list ToolCall) :
  forall w i,
    In i (made (started input_tools strictValidation tool_calls w)) ->
    exists toolCall t fn w',
      In toolCall tool_calls
      /\ verdict input_tools strictValidation toolCall = Invoke t fn
      /\ i = {| invoked_tool := Tool.name t;
                invoked_args := ToolCall.arguments toolCall;
                invoked_outcome := fst (fn (ToolCall.arguments toolCall) w') |}.
Proof.
  induction tool_calls as [|c rest IH]; intros w i; [intros []|].
  cbn [started].
  destruct (verdict input_tools strictValidation c) as [|t|t|t e|t fn] eqn:V;
    cbn [made]; intros Hin;
    try (destruct (IH _ _ Hin) as (c' & t' & fn' & w' & Hc & Hv & Hi);
         exists c', t', fn', w'; split; [right; exact Hc|split; assumption]).
  destruct Hin as [Hi|Hin].
  - exists c, t, fn, w. split; [left; reflexivity|]. split; [exact V|]. symmetry. exact Hi.
  - destruct (IH _ _ Hin) as (c' & t' & fn' & w' & Hc & Hv & Hi).
    exists c', t', fn', w'. split; [right; exact Hc|split; assumption].
Qed.

Lemma invoke_is_made (tool_calls : list ToolCall) :
  forall w toolCall t fn,
    In toolCall tool_calls ->
    verdict input_tools strictValidation toolCall = Invoke t fn ->
    exists w',
      In {| invoked_tool := Tool.name t;
            invoked_args := ToolCall.arguments toolCall;
            invoked_outcome := fst (fn (ToolCall.arguments toolCall) w') |}
         (made (started input_tools strictValidation tool_calls w)).
Proof.
  induction tool_calls as [|c rest IH]; intros w toolCall t fn; [intros []|].
  intros [->|Hin] V.
  - exists w. cbn [started]. rewrite V. cbn [made]. left. reflexivity.
  - destruct (IH (match verdict input_tools strictValidation c with
                  | Invoke _ fn' => snd (fn' (ToolCall.arguments c) w)
                  | _ => w
                  end) toolCall t fn Hin V) as (w' & Hw').
    exists w'. cbn [started].
    destruct (verdict input_tools strictValidation c); cbn [made]; auto.
    right. exact Hw'.
Qed.

Lemma rejection_of_throw (tool_calls : list ToolCall) :
  forall w e,
    first_rejection (pendings (started input_tools strictValidation tool_calls w)) = Some e ->
    exists toolCall t,
      In toolCall tool_calls /\ verdict input_tools strictValidation toolCall = Throws t e.
Proof.
  induction tool_calls as [|c rest IH]; intros w e; [discriminate|].
  cbn [started].
  destruct (verdict input_tools strictValidation c) as [|t|t|t e'|t fn] eqn:V;
    cbn [pendings first_rejection]; intros H;
    try (destruct (IH _ _ H) as (c' & t' & Hc & Hv); exists c', t'; split; [right|]; assumption).
  inversion H; subst. exists c, t. split; [left; reflexivity|exact V].
Qed.

(** A verdict names a descriptor of the list, and one that carries the
    requested name. *)
Lemma verdict_selected (toolCall : ToolCall) (t : Tool) :
  (exists fn, verdict input_tools strictValidation toolCall = Invoke t fn)
  \/ (exists e, verdict input_tools strictValidation toolCall = Throws t e)
  \/ verdict input_tools strictValidation toolCall = Invalid t
  \/ verdict input_tools strictValidation toolCall = NoFunction t ->
  find (fun tool => String.eqb (Tool.name tool) (ToolCall.name toolCall)) input_tools = Some t
  /\ In t input_tools /\ Tool.name t = ToolCall.name toolCall.
Proof.
  unfold verdict.
  destruct (find (fun tool => String.eqb (Tool.name tool) (ToolCall.name toolCall)) input_tools)
    as [t0|] eqn:F.
  - intros H.
    assert (t0 = t) as ->.
    { destruct (Tool.function t0), (Tool.parameters t0);
        try (destruct strictValidation;
             [destruct (validation _ _) as [[|]|]|]);
        destruct H as [[? H]|[[? H]|[H|H]]]; congruence. }
    apply find_some in F. destruct F as [Hin Heq]. apply String.eqb_eq in Heq. auto.
  - intros [[? H]|[[? H]|[H|H]]]; discriminate.
Qed.

(** One invocation per call that is to be invoked. *)
Lemma made_length (tool_calls : list ToolCall) :
  forall w,
    length (made (started input_tools strictValidation tool_calls w))
    = length (filter (to_invoke input_tools strictValidation) tool_calls).
Proof.
  induction tool_calls as [|c rest IH]; intros w; [reflexivity|].
  cbn [started filter]. unfold to_invoke at 1.
  destruct (verdict input_tools strictValidation c); cbn [made length]; rewrite IH; reflexivity.
Qed.

(** Only invokers of listed descriptors are called. *)
Lemma made_listed (tool_calls : list ToolCall) (w : World) (i : Invocation) :
  In i (made (started input_tools strictValidation tool_calls w)) ->
  exists t, In t input_tools /\ Tool.name t = invoked_tool i.
Proof.
  intros Hi. destruct (made_of_invoke _ _ _ Hi) as (c & t & fn & w' & _ & V & ->).
  destruct (@verdict_selected c t) as (_ & Hin & _); [left; eauto|].
  exists t. split; [exact Hin|reflexivity].
Qed.

(** When every schema can be built, no callback throws as it starts. *)
Lemma no_rejection (tool_calls : list ToolCall) (w : World) :
  schemas_build strictValidation input_tools ->
  first_rejection (pendings (started input_tools strictValidation tool_calls w)) = None.
Proof.
  intros Hb.
  destruct (first_rejection _) as [e|] eqn:R; [|reflexivity].
  destruct (rejection_of_throw _ _ R) as (c & t & Hc & V).
  destruct (@verdict_selected c t) as (F & Hin & _); [right; left; eauto|].
  unfold verdict in V. rewrite F in V.
  destruct (Tool.function t), (Tool.parameters t) as [params|] eqn:Hp; try discriminate.
  destruct strictValidation eqn:Hs; [|discriminate].
  destruct (Hb eq_refl t params (ToolCall.arguments c) Hin Hp) as (b & Hv).
  rewrite Hv in V. destruct b; discriminate.
Qed.

(** The invoker that a verdict names is that of the descriptor. *)
Lemma verdict_Invoke (toolCall : ToolCall) (t : Tool) fn :
  verdict input_tools strictValidation toolCall = Invoke t fn ->
  In t input_tools /\ Tool.function t = Some fn.
Proof.
  intros V. destruct (@verdict_selected toolCall t) as (F & Hin & _); [left; eauto|].
  split; [exact Hin|]. unfold verdict in V. rewrite F in V.
  destruct (Tool.function t) as [fn'|]; [|discriminate].
  destruct (Tool.parameters t); [|discriminate].
  destruct strictValidation; [destruct (validation _ _) as [[|]|]|]; congruence.
Qed.

(** What the awaiting callbacks wait for is what invokers of listed
    descriptors came to. *)
Lemma awaiting_of_invoke (tool_calls : list ToolCall) :
  forall w p,
    In p (awaiting (pendings (started input_tools strictValidation tool_calls w))) ->
    exists toolCall fn w',
      In toolCall tool_calls
      /\ verdict input_tools strictValidation toolCall = Invoke (fst p) fn
      /\ snd p = fst (fn (ToolCall.arguments toolCall) w').
Proof.
  induction tool_calls as [|c rest IH]; intros w p; [intros []|].
  cbn [started].
  destruct (verdict input_tools strictValidation c) as [|t|t|t e|t fn] eqn:V;
    cbn [pendings awaiting]; intros Hin;
    try (destruct (IH _ _ Hin) as (c' & fn' & w' & Hc & Hv & Hp);
         exists c', fn', w'; split; [right; exact Hc|split; assumption]).
  destruct Hin as [Hp|Hin].
  - subst p. exists c, fn, w. split; [left; reflexivity|]. split; [exact V|reflexivity].
  - destruct (IH _ _ Hin) as (c' & fn' & w' & Hc & Hv & Hp).
    exists c', fn', w'. split; [right; exact Hc|split; assumption].
Qed.

(** When every schema can be built and no invoker rejects with [undefined]
    or [null], the round pushes its turns. *)
Lemma pushed_Returned (tool_calls : list ToolCall) (w : World) :
  schemas_build strictValidation input_tools ->
  rejections_readable input_tools ->
  exists turns,
    pushed sched (started input_tools strictValidation tool_calls w) = Returned turns.
Proof.
  intros Hb Hr. unfold pushed. rewrite no_rejection by exact Hb.
  apply settled_turns_Returned. apply Forall_forall. intros p Hp.
  eapply Permutation_in in Hp; [|apply order_perm].
  destruct (awaiting_of_invoke _ _ _ Hp) as (c & fn & w' & _ & V & ->).
  destruct (@verdict_Invoke _ _ _ V) as (Hin & Hf).
  exact (Hr _ _ _ _ Hin Hf).
Qed.

Lemma Forall2_In_l (A B : Type) (R : A -> B -> Prop) (l : list A) (l' : list B) (x : A) :
  Forall2 R l l' -> In x l -> exists y, In y l' /\ R x y.
Proof.
  induction 1 as [|a b l l' Hab _ IH]; [intros []|].
  intros [->|Hin]; [exists b; split; [left; reflexivity|exact Hab]|].
  destruct (IH Hin) as (y & Hy & HR). exists y. split; [right; exact Hy|exact HR].
Qed.

Lemma Forall2_In_r (A B : Type) (R : A -> B -> Prop) (l : list A) (l' : list B) (y : B) :
  Forall2 R l l' -> In y l' -> exists x, In x l /\ R x y.
Proof.
  induction 1 as [|a b l l' Hab _ IH]; [intros []|].
  intros [->|Hin]; [exists a; split; [left; reflexivity|exact Hab]|].
  destruct (IH Hin) as (x & Hx & HR). exists x. split; [right; exact Hx|exact HR].
Qed.

(** The turns one round appends: an assistant turn per requested call, then
    the tool turns of exactly the invocations made, in some order. *)
Lemma round_turns (tool_calls : list ToolCall) (w : World) (turns : list Message) :
  let st := started input_tools strictValidation tool_calls w in
  pushed sched st = Returned turns ->
  let extra := map assistant_turn tool_calls ++ turns in
  (forall i, In i (made st) -> exists m, turn_of i = Returned m /\ In m extra)
  /\ (forall m, In m extra -> Message.role m = Message.tool ->
                exists i, In i (made st) /\ turn_of i = Returned m).
Proof.
  intros st P extra. unfold pushed in P.
  destruct (first_rejection (pendings st)); [discriminate|].
  apply settled_turns_Forall2 in P.
  pose proof (made_turns tool_calls w) as MT. fold st in MT.
  split.
  - intros i Hi.
    assert (Hin : In (turn_of i) (map turn_of (made st))) by (apply in_map; exact Hi).
    rewrite MT in Hin. apply in_map_iff in Hin. destruct Hin as (p & Hp & Hin).
    eapply Permutation_in in Hin; [|apply Permutation_sym, order_perm].
    destruct (Forall2_In_l _ P Hin) as (m & Hm & HR).
    exists m. split; [congruence|]. apply in_or_app. right. exact Hm.
  - intros m Hm Hrole. apply in_app_or in Hm. destruct Hm as [Hm|Hm].
    + apply in_map_iff in Hm. destruct Hm as (c & <- & _). discriminate.
    + destruct (Forall2_In_r _ P Hm) as (p & Hp & HR).
      eapply Permutation_in in Hp; [|apply order_perm].
      assert (Hin : In (settled_turn (fst p) (snd p))
                      (map (fun p => settled_turn (fst p) (snd p)) (awaiting (pendings st))))
        by (apply in_map_iff; exists p; split; [reflexivity|exact Hp]).
      rewrite <- MT in Hin. apply in_map_iff in Hin. destruct Hin as (i & Hi & Hin).
      exists i. split; [exact Hin|congruence].
Qed.

End Round.

(* ------------------------------------------------------------------------- *)
(** ** The loop *)

Lemma errors_spec (A : Type) (m : M A) (s : St) :
  errors m s = (raised (fst (m s)), snd (m s)).
Proof. unfold errors. destruct (m s); reflexivity. Qed.

(** A handler that logs and rethrows with a prefix. *)
Lemma try_catch_rethrow (A : Type) (m : Async A) (label prefix : string) (s : St) :
  exists s',
    try_catch m (fun error => errors (Logger_error label) ;;; throw (wrapped prefix error)) s
    = (match fst (m s) with
       | Returned a => Returned a
       | Thrown e => Thrown (wrapped prefix e)
       end, s')
    /\ quiet (snd (m s)) s'.
Proof.
  unfold try_catch. destruct (m s) as [[a|e] s1]; cbn [fst snd].
  - exists s1. split; [reflexivity|apply quiet_refl].
  - unfold bind, throw. rewrite errors_spec. cbn [fst snd raised Logger_error].
    eexists. split; [reflexivity|]. apply Logger_error_quiet.
Qed.

Section Loop.

Variable sched : Scheduler.
Variable ai : Ai.
Variable model : string.
Variable input_tools : list Tool.
Variable tools : list ToolInput.
Variable strictValidation : bool.
Variable streamFinalResponse : bool.

Let loop := runAndProcessToolCall sched ai model input_tools tools strictValidation
              streamFinalResponse.

(** The call that opens a round, and the final call. *)
Let round_input (messages : list Message) : AiInput :=
  {| AiInput.messages := messages; AiInput.stream := false; AiInput.tools := Some tools |}.

Let final_input (messages : list Message) : AiInput :=
  {| AiInput.messages := messages; AiInput.stream := streamFinalResponse;
     AiInput.tools := None |}.

Lemma loop_unfold (n : nat) (messages : list Message) :
  loop n messages
  = try_catch
      (response <- ai_run ai model (round_input messages) ;;
       messages' <- errors (dispatch sched input_tools strictValidation (requested response)
                              messages) ;;
       match n, requested response with
       | S n', _ :: _ => loop n' messages'
       | _, _ => ai_run ai model (final_input messages')
       end)
      (fun error =>
         errors (Logger_error "Error in runAndProcessToolCall:") ;;;
         throw (wrapped "Error in runAndProcessToolCall: " error)).
Proof. destruct n; reflexivity. Qed.

Lemma bind_ai_run (A : Type) (input : AiInput) (k : AiTextGenerationOutput -> Async A)
    (s : St) :
  (response <- ai_run ai model input ;; k response) s
  = match fst (ai model input (world s)) with
    | Returned response => k response (snd (ai_run ai model input s))
    | Thrown e => (Thrown e, snd (ai_run ai model input s))
    end.
Proof.
  unfold bind, ai_run. destruct (ai model input (world s)) as [[response|e] w]; reflexivity.
Qed.

Lemma ai_run_state (input : AiInput) (s : St) :
  let s1 := snd (ai_run ai model input s) in
  calls s1 = calls s ++ [{| call_model := model; call_input := input;
                            call_output := fst (ai model input (world s)) |}]
  /\ invocations s1 = invocations s /\ enabled s1 = enabled s
  /\ world s1 = snd (ai model input (world s))
  /\ fst (ai_run ai model input s) = fst (ai model input (world s)).
Proof.
  unfold ai_run. destruct (ai model input (world s)) as [r w]. cbn. auto.
Qed.

(** One round followed by [K]: the model call, then the dispatch, then [K]
    on the requested calls and the grown conversation. *)
Lemma round_cases (K : list ToolCall -> list Message -> Async AiTextGenerationOutput)
    (messages : list Message) (s : St) :
  let m := (response <- ai_run ai model (round_input messages) ;;
            messages' <- errors (dispatch sched input_tools strictValidation
                                   (requested response) messages) ;;
            K (requested response) messages') in
  exists s1,
    calls s1 = calls s ++ [{| call_model := model; call_input := round_input messages;
                              call_output := fst (ai model (round_input messages) (world s)) |}]
    /\ invocations s1 = invocations s /\ enabled s1 = enabled s
    /\ world s1 = snd (ai model (round_input messages) (world s))
    /\ match fst (ai model (round_input messages) (world s)) with
       | Thrown e => m s = (Thrown e, s1)
       | Returned response =>
           let st := started input_tools strictValidation (requested response) (world s1) in
           exists s2,
             calls s2 = calls s1 /\ enabled s2 = enabled s1 /\ world s2 = after st
             /\ invocations s2 = invocations s1 ++ made st
             /\ match pushed sched st with
                | Thrown e => m s = (Thrown (Error e), s2)
                | Returned turns =>
                    m s = K (requested response)
                            (messages ++ map assistant_turn (requested response) ++ turns) s2
                end
       end.
Proof.
  intros m. exists (snd (ai_run ai model (round_input messages) s)).
  destruct (ai_run_state (round_input messages) s) as (C1 & I1 & N1 & W1 & _).
  repeat (split; [assumption|]).
  unfold m. rewrite bind_ai_run.
  destruct (fst (ai model (round_input messages) (world s))) as [response|e]; [|reflexivity].
  set (s1 := snd (ai_run ai model (round_input messages) s)).
  destruct (@dispatch_spec sched input_tools strictValidation (requested response) messages s1)
    as (s2 & E & C & N & W & I).
  cbv zeta. exists s2. repeat (split; [assumption|]).
  destruct (pushed sched _) as [turns|e];
    unfold bind at 1; rewrite errors_spec, E; reflexivity.
Qed.

(** The final call has the shape of a run without rounds. *)
Lemma final_shape (messages : list Message) (s : St) :
  run_shape model input_tools tools streamFinalResponse [] messages s
    (ai_run ai model (final_input messages) s).
Proof.
  destruct (ai_run_state (final_input messages) s) as (C & I & N & W & R).
  unfold run_shape.
  exists [{| call_model := model; call_input := final_input messages;
             call_output := fst (ai model (final_input messages) (world s)) |}], [].
  rewrite app_nil_r, R. cbn [app]. repeat (split; [assumption || constructor|]).
  split; [intros ? []|].
  destruct (fst (ai model (final_input messages) (world s))) as [o|e].
  - exists []. rewrite app_nil_r. split; [reflexivity|]. split; intros ? [].
  - right. eexists. split; reflexivity.
Qed.

(** A round followed by a continuation that has the shape of a run. *)
Lemma round_then_shape (K : list ToolCall -> list Message -> Async AiTextGenerationOutput)
    (bound : nat) (messages : list Message) (s : St) :
  (forall tcs messages' s2,
      exists mid, length mid <= bound
                  /\ run_shape model input_tools tools streamFinalResponse mid messages' s2
                       (K tcs messages' s2)) ->
  exists mid,
    length mid <= bound
    /\ run_shape model input_tools tools streamFinalResponse
         ({| call_model := model; call_input := round_input messages;
             call_output := fst (ai model (round_input messages) (world s)) |} :: mid)
         messages s
         (try_catch
            (response <- ai_run ai model (round_input messages) ;;
             messages' <- errors (dispatch sched input_tools strictValidation
                                    (requested response) messages) ;;
             K (requested response) messages')
            (fun error =>
               errors (Logger_error "Error in runAndProcessToolCall:") ;;;
               throw (wrapped "Error in runAndProcessToolCall: " error)) s).
Proof.
  intros HK.
  match goal with
  | |- context [try_catch ?m ?h s] =>
      destruct (@try_catch_rethrow _ m "Error in runAndProcessToolCall:"
                  "Error in runAndProcessToolCall: " s) as (s' & E & Qw & Qc & Qi & Qe);
      rewrite E; clear E
  end.
  destruct (round_cases K messages s) as (s1 & C1 & I1 & N1 & W1 & H).
  cbv zeta in H.
  assert (Hc1 : Forall (fun c => AiInput.tools (call_input c) = Some tools)
                  [{| call_model := model; call_input := round_input messages;
                      call_output := fst (ai model (round_input messages) (world s)) |}]).
  { constructor; [reflexivity|constructor]. }
  destruct (fst (ai model (round_input messages) (world s))) as [response|e] eqn:R.
  - destruct H as (s2 & C2 & N2 & W2 & I2 & H).
    destruct (pushed sched _) as [turns|e] eqn:P.
    + rewrite H in *.
      destruct (HK (requested response)
                  (messages ++ map assistant_turn (requested response) ++ turns) s2)
        as (mid & Hlen & last & made' & KN & KC & KI & KF & KL & KR).
      destruct (round_turns sched input_tools strictValidation (requested response) (world s1)
                  P) as (T1 & T2).
      cbv zeta in T1, T2.
      exists mid. split; [exact Hlen|].
      exists last, (made (started input_tools strictValidation (requested response) (world s1))
                    ++ made').
      cbn [fst snd].
      split; [congruence|].
      split; [rewrite Qc, KC, C2, C1, <- app_assoc; reflexivity|].
      split; [rewrite Qi, KI, I2, I1, <- app_assoc; reflexivity|].
      split; [constructor; [reflexivity|exact KF]|].
      split; [intros i Hi; apply in_app_or in Hi; destruct Hi as [Hi|Hi];
              [eapply made_listed; exact Hi|apply KL; exact Hi]|].
      destruct (fst (K _ _ s2)) as [o|e].
      * destruct KR as (extra & L & X1 & X2).
        rewrite <- (app_assoc messages) in L.
        eexists. split; [exact L|].
        split.
        -- intros i Hi. apply in_app_or in Hi.
           destruct Hi as [Hi|Hi].
           ++ destruct (T1 i Hi) as (m & Hm & Hin). exists m. split; [exact Hm|].
              apply in_or_app. left. exact Hin.
           ++ destruct (X1 i Hi) as (m & Hm & Hin). exists m. split; [exact Hm|].
              apply in_or_app. right. exact Hin.
        -- intros m Hm Hrole.
           apply in_app_or in Hm. destruct Hm as [Hm|Hm].
           ++ destruct (T2 m Hm Hrole) as (i & Hi & Ht).
              exists i. split; [apply in_or_app; left; exact Hi|exact Ht].
           ++ destruct (X2 m Hm Hrole) as (i & Hi & Ht).
              exists i. split; [apply in_or_app; right; exact Hi|exact Ht].
      * exact KR.
    + rewrite H in *. cbn [fst snd] in *.
      exists []. split; [apply Nat.le_0_l|].
      exists [], (made (started input_tools strictValidation (requested response) (world s1))).
      cbn [fst snd]. rewrite app_nil_r.
      repeat split; try congruence; [apply made_listed|]. left. reflexivity.
  - rewrite H in *. cbn [fst snd] in *.
    exists []. split; [apply Nat.le_0_l|].
    exists [], []. cbn [fst snd]. rewrite !app_nil_r.
    repeat split; try congruence; [intros ? []|]. left. reflexivity.
Qed.

(** Every run of the loop has that shape, with the call that opens the
    first round and at most [n] more rounds. *)
Lemma loop_shape (n : nat) :
  forall (messages : list Message) (s : St),
  exists mid,
    length mid <= n
    /\ run_shape model input_tools tools streamFinalResponse
         ({| call_model := model; call_input := round_input messages;
             call_output := fst (ai model (round_input messages) (world s)) |} :: mid)
         messages s (loop n messages s).
Proof.
  induction n as [|n IH]; intros messages s; rewrite loop_unfold.
  - apply round_then_shape with (K := fun _ messages' => ai_run ai model (final_input messages')).
    intros _ messages' s2. exists []. split; [apply Nat.le_0_l|apply final_shape].
  - apply round_then_shape
      with (K := fun tcs messages' =>
                   match tcs with
                   | [] => ai_run ai model (final_input messages')
                   | _ :: _ => loop n messages'
                   end).
    intros tcs messages' s2. destruct tcs as [|c rest].
    + exists []. split; [apply Nat.le_0_l|apply final_shape].
    + destruct (IH messages' s2) as (mid & Hlen & Hs).
      eexists. split; [|exact Hs]. cbn [length]. lia.
Qed.

(** The rounds among the model calls a run logs are at most [n + 1]. *)
Lemma loop_rounds_bound (n : nat) (messages : list Message) (s : St) :
  exists new,
    calls (snd (loop n messages s)) = calls s ++ new /\ rounds new <= S n.
Proof.
  destruct (loop_shape n messages s) as (mid & Hlen & last & made_all & _ & C & _ & _ & _ & R).
  eexists. split; [exact C|].
  unfold rounds. rewrite filter_app, length_app.
  assert (Hlast : length (filter is_round last) = 0).
  { destruct (fst (loop n messages s)).
    - destruct R as (extra & -> & _). reflexivity.
    - destruct R as [->|(final & -> & Hf)]; [reflexivity|].
      cbn. unfold is_round. rewrite Hf. reflexivity. }
  rewrite Hlast, Nat.add_0_r.
  eapply Nat.le_trans; [apply filter_length_le|]. cbn [length]. lia.
Qed.

Section Answering.

Hypothesis ai_answers : answers ai.
Hypothesis validation_builds : schemas_build strictValidation input_tools.
Hypothesis invokers_readable : rejections_readable input_tools.

Lemma round_then_returns (K : list ToolCall -> list Message -> Async AiTextGenerationOutput)
    (messages : list Message) (s : St) :
  (forall tcs messages' s2, exists o, fst (K tcs messages' s2) = Returned o) ->
  exists o,
    fst (try_catch
           (response <- ai_run ai model (round_input messages) ;;
            messages' <- errors (dispatch sched input_tools strictValidation
                                   (requested response) messages) ;;
            K (requested response) messages')
           (fun error =>
              errors (Logger_error "Error in runAndProcessToolCall:") ;;;
              throw (wrapped "Error in runAndProcessToolCall: " error)) s)
    = Returned o.
Proof.
  intros HK.
  match goal with
  | |- context [try_catch ?m ?h s] =>
      destruct (@try_catch_rethrow _ m "Error in runAndProcessToolCall:"
                  "Error in runAndProcessToolCall: " s) as (s' & E & _);
      rewrite E; clear E
  end.
  destruct (round_cases K messages s) as (s1 & _ & _ & _ & _ & H).
  cbv zeta in H.
  destruct (ai_answers model (round_input messages) (world s)) as (response & R).
  rewrite R in H. destruct H as (s2 & _ & _ & _ & _ & H).
  destruct (pushed_Returned sched (requested response) (world s1) validation_builds
              invokers_readable) as (turns & P).
  rewrite P in H. rewrite H. cbn [fst].
  destruct (HK (requested response)
              (messages ++ map assistant_turn (requested response) ++ turns) s2) as (o & Ho).
  rewrite Ho. eauto.
Qed.

(** When the endpoint answers, every schema can be built and no invoker
    rejects with [undefined] or [null], the loop returns: no tool call,
    whatever becomes of it, makes it throw. *)
Lemma loop_returns (n : nat) :
  forall (messages : list Message) (s : St),
  exists o, fst (loop n messages s) = Returned o.
Proof.
  assert (F : forall messages' s2,
             exists o, fst (ai_run ai model (final_input messages') s2) = Returned o).
  { intros messages' s2.
    destruct (ai_run_state (final_input messages') s2) as (_ & _ & _ & _ & R).
    rewrite R. apply ai_answers. }
  induction n as [|n IH]; intros messages s; rewrite loop_unfold.
  - apply round_then_returns with (K := fun _ messages' => ai_run ai model (final_input messages')).
    intros _ messages' s2. apply F.
  - apply round_then_returns
      with (K := fun tcs messages' =>
                   match tcs with
                   | [] => ai_run ai model (final_input messages')
                   | _ :: _ => loop n messages'
                   end).
    intros [|c rest] messages' s2; [apply F|apply IH].
Qed.

End Answering.

Section Requesting.

Hypothesis ai_requests : always_requests ai.
Hypothesis validation_builds : schemas_build strictValidation input_tools.
Hypothesis invokers_readable : rejections_readable input_tools.

Lemma round_then_rounds (K : list ToolCall -> list Message -> Async AiTextGenerationOutput)
    (bound : nat) (messages : list Message) (s : St) :
  (forall tcs messages' s2,
      tcs <> [] ->
      exists mid last,
        calls (snd (K tcs messages' s2)) = calls s2 ++ mid ++ [last]
        /\ length mid = bound
        /\ Forall (fun c => is_round c = true) mid
        /\ AiInput.tools (call_input last) = None) ->
  exists mid last,
    calls (snd (try_catch
                  (response <- ai_run ai model (round_input messages) ;;
                   messages' <- errors (dispatch sched input_tools strictValidation
                                          (requested response) messages) ;;
                   K (requested response) messages')
                  (fun error =>
                     errors (Logger_error "Error in runAndProcessToolCall:") ;;;
                     throw (wrapped "Error in runAndProcessToolCall: " error)) s))
    = calls s ++ mid ++ [last]
    /\ length mid = S bound
    /\ Forall (fun c => is_round c = true) mid
    /\ AiInput.tools (call_input last) = None.
Proof.
  intros HK.
  match goal with
  | |- context [try_catch ?m ?h s] =>
      destruct (@try_catch_rethrow _ m "Error in runAndProcessToolCall:"
                  "Error in runAndProcessToolCall: " s) as (s' & E & _ & Qc & _);
      rewrite E; clear E
  end.
  destruct (round_cases K messages s) as (s1 & C1 & _ & _ & _ & H).
  cbv zeta in H.
  destruct (ai_requests model (round_input messages) (world s)) as (response & c & rest & R & Hreq);
    [discriminate|].
  rewrite R in H, C1. destruct H as (s2 & C2 & _ & _ & _ & H).
  destruct (pushed_Returned sched (requested response) (world s1) validation_builds
              invokers_readable) as (turns & P).
  rewrite P in H. rewrite H in Qc. cbn [snd]. rewrite Qc.
  destruct (HK (requested response)
              (messages ++ map assistant_turn (requested response) ++ turns) s2)
    as (mid & last & KC & KL & KF & KT); [rewrite Hreq; discriminate|].
  exists ({| call_model := model; call_input := round_input messages;
             call_output := Returned response |} :: mid), last.
  split; [rewrite KC, C2, C1, <- app_assoc; reflexivity|].
  split; [cbn [length]; congruence|].
  split; [|exact KT].
  constructor; [|exact KF].
  unfold is_round. cbn. rewrite Hreq. reflexivity.
Qed.

(** Against an endpoint that requests a tool call whenever tools are
    offered, the loop logs exactly [n + 1] rounds and then the call without
    tools. *)
Lemma loop_rounds_exact (n : nat) :
  forall (messages : list Message) (s : St),
  exists mid last,
    calls (snd (loop n messages s)) = calls s ++ mid ++ [last]
    /\ length mid = S n
    /\ Forall (fun c => is_round c = true) mid
    /\ AiInput.tools (call_input last) = None.
Proof.
  assert (F : forall messages' s2,
             exists mid last,
               calls (snd (ai_run ai model (final_input messages') s2)) = calls s2 ++ mid ++ [last]
               /\ length mid = 0
               /\ Forall (fun c => is_round c = true) mid
               /\ AiInput.tools (call_input last) = None).
  { intros messages' s2.
    destruct (ai_run_state (final_input messages') s2) as (C & _).
    exists [], {| call_model := model; call_input := final_input messages';
                  call_output := fst (ai model (final_input messages') (world s2)) |}.
    repeat split; [exact C|constructor]. }
  induction n as [|n IH]; intros messages s; rewrite loop_unfold.
  - apply round_then_rounds with (K := fun _ messages' => ai_run ai model (final_input messages')).
    intros _ messages' s2 _. apply F.
  - apply round_then_rounds
      with (K := fun tcs messages' =>
                   match tcs with
                   | [] => ai_run ai model (final_input messages')
                   | _ :: _ => loop n messages'
                   end).
    intros [|c rest] messages' s2 Hne; [congruence|apply IH].
Qed.

End Requesting.

End Loop.

(* ------------------------------------------------------------------------- *)
(** ** What a round does with one of its calls *)

Section Dispatching.

Variable sched : Scheduler.
Variable input_tools : list Tool.
Variable strictValidation : bool.

Lemma verdict_invoke (toolCall : ToolCall) (t : Tool) fn parameters :
  find (fun tool => String.eqb (Tool.name tool) (ToolCall.name toolCall)) input_tools = Some t ->
  Tool.function t = Some fn ->
  Tool.parameters t = Some parameters ->
  (strictValidation = true ->
   validation parameters (ToolCall.arguments toolCall) = Returned true) ->
  verdict input_tools strictValidation toolCall = Invoke t fn.
Proof.
  intros F Hf Hp Hv. unfold verdict. rewrite F, Hf, Hp.
  destruct strictValidation; [rewrite Hv|]; reflexivity.
Qed.

Lemma verdict_no_function (toolCall : ToolCall) (t : Tool) :
  find (fun tool => String.eqb (Tool.name tool) (ToolCall.name toolCall)) input_tools = Some t ->
  verdict input_tools strictValidation toolCall = NoFunction t
  <-> Tool.function t = None \/ Tool.parameters t = None.
Proof.
  intros F. unfold verdict. rewrite F.
  destruct (Tool.function t) as [fn|], (Tool.parameters t) as [p|];
    try (split; [intros _; auto|reflexivity]).
  split.
  - destruct strictValidation; [destruct (validation _ _) as [[|]|]|]; discriminate.
  - intros [H|H]; discriminate.
Qed.

(** A tool turn carries the name of the descriptor whose invoker settled. *)
Lemma settled_turn_tool (t : Tool) (outcome : settled string) (m : Message) :
  settled_turn t outcome = Returned m ->
  Message.role m = Message.tool /\ Message.name m = Some (Tool.name t).
Proof.
  unfold settled_turn. destruct outcome as [r|[message| |]]; cbn; intros H;
    inversion H; subst; auto.
Qed.

Lemma turn_of_tool (i : Invocation) (m : Message) :
  turn_of i = Returned m ->
  Message.role m = Message.tool /\ Message.name m = Some (invoked_tool i).
Proof.
  unfold turn_of. destruct (invoked_outcome i) as [r|[message| |]]; cbn; intros H;
    inversion H; subst; auto.
Qed.

(** What a round that returns has pushed. *)
Lemma dispatch_Returned (tool_calls : list ToolCall) (messages : list Message) (s : St)
    (messages' : list Message) :
  fst (dispatch sched input_tools strictValidation tool_calls messages s) = Returned messages' ->
  exists turns,
    pushed sched (started input_tools strictValidation tool_calls (world s)) = Returned turns
    /\ messages' = messages ++ map assistant_turn tool_calls ++ turns.
Proof.
  intros R.
  destruct (@dispatch_spec sched input_tools strictValidation tool_calls messages s)
    as (s' & E & _). cbv zeta in E. rewrite E in R. cbn [fst] in R.
  destruct (pushed sched _) as [turns|e]; [|discriminate]. inversion R. eauto.
Qed.

(** A call whose verdict is to invoke: the invoker is called with the
    arguments of the request, and the turn of that invocation is in the
    conversation the round returns. *)
Lemma dispatch_invokes (tool_calls : list ToolCall) (messages : list Message) (s : St)
    (toolCall : ToolCall) (t : Tool) fn :
  In toolCall tool_calls ->
  verdict input_tools strictValidation toolCall = Invoke t fn ->
  let out := dispatch sched input_tools strictValidation tool_calls messages s in
  exists new w,
    invocations (snd out) = invocations s ++ new
    /\ In {| invoked_tool := Tool.name t;
             invoked_args := ToolCall.arguments toolCall;
             invoked_outcome := fst (fn (ToolCall.arguments toolCall) w) |} new
    /\ forall messages',
         fst out = Returned messages' ->
         exists m,
           settled_turn t (fst (fn (ToolCall.arguments toolCall) w)) = Returned m
           /\ In m messages'.
Proof.
  intros Hin V out.
  destruct (@dispatch_spec sched input_tools strictValidation tool_calls messages s)
    as (s' & E & _ & _ & _ & I).
  cbv zeta in E. unfold out. rewrite E. cbn [fst snd].
  destruct (invoke_is_made input_tools strictValidation tool_calls (world s) toolCall Hin V)
    as (w & Hw).
  eexists. exists w. split; [exact I|]. split; [exact Hw|].
  intros messages' R.
  destruct (pushed sched _) as [turns|e] eqn:P; [|discriminate].
  cbn [result_map result_bind] in R. inversion R; subst messages'.
  destruct (@round_turns sched input_tools strictValidation tool_calls (world s) turns P)
    as (T1 & _).
  destruct (T1 _ Hw) as (m & Hm & Hin'). exists m. split; [exact Hm|].
  apply in_or_app. right. exact Hin'.
Qed.

(** The conversation a round returns is the one it was given, then turns
    of which every tool turn is named after a listed descriptor. *)
Lemma dispatch_tool_turns (tool_calls : list ToolCall) (messages : list Message) (s : St)
    (messages' : list Message) :
  fst (dispatch sched input_tools strictValidation tool_calls messages s) = Returned messages' ->
  exists extra,
    messages' = messages ++ extra
    /\ forall m, In m extra -> Message.role m = Message.tool ->
                 exists t, In t input_tools /\ Message.name m = Some (Tool.name t).
Proof.
  intros R. destruct (dispatch_Returned _ _ _ R) as (turns & P & ->).
  eexists. split; [reflexivity|].
  intros m Hm Hrole.
  destruct (@round_turns sched input_tools strictValidation tool_calls (world s) turns P)
    as (_ & T2).
  destruct (T2 m Hm Hrole) as (i & Hi & Ht).
  destruct (@made_listed input_tools strictValidation tool_calls (world s) i Hi)
    as (t & Hin & Hn).
  exists t. split; [exact Hin|].
  destruct (turn_of_tool _ Ht) as (_ & ->). rewrite Hn. reflexivity.
Qed.

(** A round that returns has pushed one assistant turn per requested call
    and one tool turn per call that was to be invoked, and has made as many
    invocations. *)
Lemma dispatch_count (tool_calls : list ToolCall) (messages : list Message) (s : St)
    (messages' : list Message) :
  fst (dispatch sched input_tools strictValidation tool_calls messages s) = Returned messages' ->
  exists turns new,
    messages' = messages ++ map assistant_turn tool_calls ++ turns
    /\ Forall (fun m => Message.role m = Message.tool) turns
    /\ invocations (snd (dispatch sched input_tools strictValidation tool_calls messages s))
       = invocations s ++ new
    /\ length turns = length (filter (to_invoke input_tools strictValidation) tool_calls)
    /\ length new = length (filter (to_invoke input_tools strictValidation) tool_calls).
Proof.
  intros R. destruct (dispatch_Returned _ _ _ R) as (turns & P & ->).
  destruct (@dispatch_spec sched input_tools strictValidation tool_calls messages s)
    as (s' & E & _ & _ & _ & I). cbv zeta in E. rewrite E. cbn [fst snd].
  exists turns. eexists. split; [reflexivity|].
  unfold pushed in P. destruct (first_rejection _); [discriminate|].
  apply settled_turns_Forall2 in P.
  split; [|split; [exact I|]].
  - apply Forall_forall. intros m Hm.
    destruct (Forall2_In_r _ P Hm) as (p & _ & HR).
    exact (proj1 (settled_turn_tool _ _ HR)).
  - rewrite made_length. split; [|reflexivity].
    rewrite <- (Forall2_length P), (Permutation_length (order_perm sched _ _)).
    rewrite <- (length_map (fun p => settled_turn (fst p) (snd p))), <- made_turns, length_map.
    apply made_length.
Qed.

(** A round of one call that is skipped: the assistant turn and nothing else. *)
Lemma dispatch_skipped (toolCall : ToolCall) (messages : list Message) (s s' : St) :
  toolCallCallback input_tools strictValidation toolCall messages s
  = (Returned (messages ++ [assistant_turn toolCall], Done), s') ->
  dispatch sched input_tools strictValidation [toolCall] messages s
  = (Returned (messages ++ [assistant_turn toolCall]), s').
Proof.
  intros E. unfold dispatch. cbn [start_all]. unfold bind. rewrite E. cbn [fst snd].
  unfold ret, Promise_all. cbn [fst snd first_rejection awaiting].
  rewrite (Permutation_nil (Permutation_sym
                              (order_perm sched (world s') (@nil (Tool * settled string))))).
  reflexivity.
Qed.

End Dispatching.

(* ------------------------------------------------------------------------- *)
(** ** The selector *)

Section Selector.

Variable ai : Ai.
Variable model : string.
Variable tools : list Tool.
Variable messages : list Message.

(** The one model call the selector makes. *)
Let choose_input : AiInput :=
  {| AiInput.messages :=
       [{| Message.role := Message.user;
           Message.content := toolsPrompt tools messages;
           Message.name := None |}];
     AiInput.stream := false;
     AiInput.tools :=
       Some [{| ToolInput.type := "function"; ToolInput.function := chooseTools |}] |}.

(** Four candidates or fewer: returned as they are, no model call. *)
Lemma autoTrimTools_small (s : St) :
  length tools <= 4 ->
  autoTrimTools tools ai model messages s
  = (Returned tools,
     snd (Logger_error "autoTrimTools is only supported for tasks with more than 4 tools" s)).
Proof.
  intros H. unfold autoTrimTools.
  destruct (Nat.ltb_spec (length tools) 5) as [_|H']; [reflexivity|lia].
Qed.

(** Five candidates or more: exactly one model call, and what is returned is
    read off its answer. *)
Lemma autoTrimTools_large (s : St) :
  5 <= length tools ->
  calls (snd (autoTrimTools tools ai model messages s))
  = calls s ++ [{| call_model := model; call_input := choose_input;
                   call_output := fst (ai model choose_input (world s)) |}]
  /\ fst (autoTrimTools tools ai model messages s)
     = match fst (ai model choose_input (world s)) with
       | Thrown e => Thrown e
       | Returned toolsResponse =>
           match requested toolsResponse with
           | [] => Returned tools
           | first :: _ =>
               match prop (ToolCall.arguments first) "tools" with
               | Thrown e => Thrown (Error e)
               | Returned (Some (JArr names)) =>
                   Returned (filter (fun tool => includes names (Tool.name tool)) tools)
               | Returned _ => Returned tools
               end
           end
       end.
Proof.
  intros H. unfold autoTrimTools.
  destruct (Nat.ltb_spec (length tools) 5) as [H'|_]; [lia|].
  fold choose_input. rewrite bind_ai_run.
  destruct (ai_run_state ai model choose_input s) as (C & _).
  destruct (fst (ai model choose_input (world s))) as [toolsResponse|e]; [|auto].
  unfold requested.
  destruct (tool_calls_of toolsResponse) as [tcs|]; cbn [option_map]; [|auto].
  destruct (filter_Boolean tcs) as [|first rest]; [auto|].
  unfold bind, lift.
  destruct (prop (ToolCall.arguments first) "tools") as [[[| | | |names|]|]|e]; auto.
Qed.

(** The selector offers its own synthetic tool only, which has no invoker. *)
Lemma autoTrimTools_calls (s : St) :
  exists new,
    calls (snd (autoTrimTools tools ai model messages s)) = calls s ++ new
    /\ Forall function_free new.
Proof.
  destruct (Nat.le_gt_cases 5 (length tools)) as [H|H].
  - destruct (autoTrimTools_large s H) as (C & _).
    eexists. split; [exact C|].
    constructor; [|constructor]. unfold function_free. cbn.
    constructor; [reflexivity|constructor].
  - rewrite autoTrimTools_small by lia.
    exists []. rewrite app_nil_r. split; [|constructor].
    destruct (Logger_error_quiet
                "autoTrimTools is only supported for tasks with more than 4 tools" s)
      as (_ & Q & _). exact Q.
Qed.

(** With five candidates or more and an answer of the endpoint: no tool
    call, or a first tool call whose arguments are not [null] and whose
    [tools] is not an array, lets every candidate through. *)
Lemma autoTrimTools_fails_open (s : St) (toolsResponse : AiTextGenerationOutput) :
  5 <= length tools ->
  fst (ai model choose_input (world s)) = Returned toolsResponse ->
  requested toolsResponse = []
  \/ (exists first rest,
        requested toolsResponse = first :: rest
        /\ ToolCall.arguments first <> JNull
        /\ forall names, prop (ToolCall.arguments first) "tools" <> Returned (Some (JArr names))) ->
  fst (autoTrimTools tools ai model messages s) = Returned tools.
Proof.
  intros H R Hcase. destruct (autoTrimTools_large s H) as (_ & E). rewrite E, R.
  destruct Hcase as [->|(first & rest & -> & Hnull & Harr)]; [reflexivity|].
  destruct (ToolCall.arguments first) as [| | | | |fields]; try reflexivity; [congruence|].
  cbn [prop] in Harr |- *.
  destruct (lookup "tools" fields) as [[| | | |names|]|]; try reflexivity.
  exfalso. apply (Harr names). reflexivity.
Qed.

(** A first tool call whose [tools] is an array filters the candidates to
    the names it lists. *)
Lemma autoTrimTools_filters (s : St) (toolsResponse : AiTextGenerationOutput)
    (first : ToolCall) (rest : list ToolCall) (names : list json) :
  5 <= length tools ->
  fst (ai model choose_input (world s)) = Returned toolsResponse ->
  requested toolsResponse = first :: rest ->
  prop (ToolCall.arguments first) "tools" = Returned (Some (JArr names)) ->
  fst (autoTrimTools tools ai model messages s)
  = Returned (filter (fun tool => includes names (Tool.name tool)) tools).
Proof.
  intros H R Hreq Hp. destruct (autoTrimTools_large s H) as (_ & E).
  rewrite E, R, Hreq, Hp. reflexivity.
Qed.

(** A first tool call whose arguments are [null] makes the selector throw. *)
Lemma autoTrimTools_throws (s : St) (toolsResponse : AiTextGenerationOutput)
    (first : ToolCall) (rest : list ToolCall) :
  5 <= length tools ->
  fst (ai model choose_input (world s)) = Returned toolsResponse ->
  requested toolsResponse = first :: rest ->
  ToolCall.arguments first = JNull ->
  fst (autoTrimTools tools ai model messages s)
  = Thrown (Error "Cannot read properties of null (reading 'tools')").
Proof.
  intros H R Hreq Hnull. destruct (autoTrimTools_large s H) as (_ & E).
  rewrite E, R, Hreq, Hnull. reflexivity.
Qed.

End Selector.

(** C7 (the code departs from the claim).  Given five candidates and a
    response of the model whose tool call is malformed, its arguments being
    [null], the selector does not let the candidates through: it throws a
    [TypeError], and so does the run that uses it as its trim function. *)
Theorem autoTrimTools_null_arguments (w : World) :
  fst (autoTrimTools five_tools (requesting "chooseTool" JNull) "model" question (fresh w))
  = Thrown (Error "Cannot read properties of null (reading 'tools')")
  /\ fst (runWithTools in_order (requesting "chooseTool" JNull) "model"
            (asking five_tools) trimming (fresh w))
     = Thrown (Error "Cannot read properties of null (reading 'tools')").
Proof. split; reflexivity. Qed.

(* ------------------------------------------------------------------------- *)
(** ** The query string of a generated invoker *)

Lemma assign_new (A : Type) (key : string) (v : A) (fields : list (string * A)) :
  lookup key fields = None -> assign key v fields = fields ++ [(key, v)].
Proof.
  induction fields as [|[k w] rest IH]; [reflexivity|].
  cbn [lookup assign]. destruct (String.eqb key k); [discriminate|].
  intros H. rewrite (IH H). reflexivity.
Qed.

Lemma lookup_app_new (A : Type) (key : string) (v : A) (fields : list (string * A)) :
  lookup key fields = None -> lookup key (fields ++ [(key, v)]) = Some v.
Proof.
  induction fields as [|[k w] rest IH]; cbn [lookup app].
  - rewrite String.eqb_refl. reflexivity.
  - destruct (String.eqb key k); [discriminate|exact IH].
Qed.

Lemma lookup_map_Value (key : string) (args : list (string * json)) :
  lookup key (map (fun kv => (fst kv, Value (snd kv))) args) = option_map Value (lookup key args).
Proof.
  induction args as [|[k w] rest IH]; [reflexivity|].
  cbn [map lookup fst snd]. destruct (String.eqb key k); [reflexivity|apply IH].
Qed.

(** The heuristic looks at [header], [query], [cookie], [formData] and
    [body], and not at [path]. *)
Lemma reinterpret_args_spec (args : list (string * ArgValue)) :
  reinterpret_args args
  = if (0 <? length args)
       && forallb (fun key => negb (arg_truthy (lookup key args)))
            ["header"; "query"; "cookie"; "formData"; "body"]
    then assign "query" Itself args
    else args.
Proof.
  unfold reinterpret_args. cbn [forallb]. rewrite andb_true_r, !andb_assoc. reflexivity.
Qed.

(** Arguments with one of those five sub-keys set are used as they are. *)
Lemma structured_args_kept (overrides : list (string * string)) (args : list (string * json))
    (key : string) (v : json) :
  In key ["header"; "query"; "cookie"; "formData"; "body"] ->
  lookup key args = Some v ->
  truthy v = true ->
  createToolFunction_queryParams overrides args
  = overrides
    ++ map (fun kv => (fst kv, ToString Number_toString (snd kv))) (for_in (lookup "query" args)).
Proof.
  intros Hkey Hl Ht. unfold createToolFunction_queryParams.
  pose proof (fun k => lookup_map_Value k args) as L.
  rewrite reinterpret_args_spec.
  assert (F : forallb (fun key => negb (arg_truthy
                                          (lookup key (map (fun kv => (fst kv, Value (snd kv))) args))))
                ["header"; "query"; "cookie"; "formData"; "body"] = false).
  { apply not_true_is_false. intros Hall. rewrite forallb_forall in Hall.
    specialize (Hall key Hkey). rewrite L, Hl in Hall. cbn in Hall. rewrite Ht in Hall.
    discriminate. }
  rewrite F, andb_false_r. unfold args_query. rewrite L.
  destruct (lookup "query" args); reflexivity.
Qed.

(** Flat arguments, with none of the six sub-keys: every argument becomes a
    query parameter, and so does the [query] property that the assignment
    adds to the arguments themselves. *)
Lemma flat_args_reinterpreted (overrides : list (string * string)) (args : list (string * json)) :
  args <> [] ->
  (forall key, In key ["path"; "header"; "query"; "cookie"; "formData"; "body"] ->
               lookup key args = None) ->
  createToolFunction_queryParams overrides args
  = overrides
    ++ map (fun kv => (fst kv, ToString Number_toString (snd kv))) args
    ++ [("query", "[object Object]")].
Proof.
  intros Hne Hflat. unfold createToolFunction_queryParams.
  set (args' := map (fun kv => (fst kv, Value (snd kv))) args).
  pose proof (fun k => lookup_map_Value k args) as L. fold args' in L.
  rewrite reinterpret_args_spec.
  assert (Hlen : (0 <? length args') = true).
  { unfold args'. rewrite length_map. destruct args; [congruence|reflexivity]. }
  assert (F : forallb (fun key => negb (arg_truthy (lookup key args')))
                ["header"; "query"; "cookie"; "formData"; "body"] = true).
  { apply forallb_forall. intros key Hkey. rewrite L, Hflat; [reflexivity|].
    cbn in Hkey |- *. tauto. }
  rewrite Hlen, F. cbn [andb].
  assert (Hq : lookup "query" args' = None).
  { rewrite L, Hflat; [reflexivity|]. cbn. tauto. }
  rewrite (assign_new _ Itself _ Hq). unfold args_query. rewrite (lookup_app_new _ Itself _ Hq).
  rewrite map_app. cbn [map fst snd arg_ToString]. f_equal. f_equal.
  unfold args'. rewrite map_map. reflexivity.
Qed.

(** C10 (the code departs from the claim).  Arguments that hold the
    recognized sub-key [path] and nothing else are still re-interpreted as
    query parameters: the request gets the query parameters
    [path=[object Object]] and [query=[object Object]]. *)
Theorem path_only_args_reinterpreted :
  createToolFunction_queryParams [] [("path", JObj [("id", JStr "5")])]
  = [("path", "[object Object]"); ("query", "[object Object]")].
Proof. reflexivity. Qed.


(* ------------------------------------------------------------------------- *)
(** ** The entry point *)

Section Run.

Variable sched : Scheduler.
Variable ai : Ai.
Variable model : string.
Variable input : Input.
Variable config : Config.

Let strict := default false (strictValidation config).
Let streaming := default false (streamFinalResponse config).
Let N := Z.to_nat (default 0%Z (maxRecursiveToolRuns config)).

Lemma runWithTools_unfold (s : St) :
  runWithTools sched ai model input config s
  = (chosenTools <- selection ai model input config ;;
     try_catch
       (runAndProcessToolCall sched ai model (Input.tools input) (map offer chosenTools)
          strict streaming N (Input.messages input))
       (fun error =>
          errors (Logger_error "Error in runWithTools:") ;;;
          throw (wrapped "Error in runWithTools: " error))) s.
Proof.
  unfold runWithTools, selection, bind. rewrite errors_spec.
  destruct ((if default false (verbose config) then Logger_enableLogging else ret tt) s)
    as [[[]|e] s0]; reflexivity.
Qed.

(** Once the selection has returned, the run is the loop on the offers
    built from what it chose, its error rethrown with a prefix. *)
Lemma runWithTools_loop (s : St) (chosenTools : list Tool) (s1 : St) :
  selection ai model input config s = (Returned chosenTools, s1) ->
  let out := runAndProcessToolCall sched ai model (Input.tools input) (map offer chosenTools)
               strict streaming N (Input.messages input) s1 in
  exists s',
    runWithTools sched ai model input config s
    = (match fst out with
       | Returned o => Returned o
       | Thrown e => Thrown (wrapped "Error in runWithTools: " e)
       end, s')
    /\ quiet (snd out) s'.
Proof.
  intros Hsel out. rewrite runWithTools_unfold. unfold bind at 1. rewrite Hsel.
  apply try_catch_rethrow.
Qed.

(** The default trim function returns the descriptors it is given and
    calls nothing. *)
Lemma selection_default (s : St) :
  trimFunction config = None ->
  exists s1,
    selection ai model input config s = (Returned (Input.tools input), s1)
    /\ world s1 = world s /\ calls s1 = calls s /\ invocations s1 = invocations s.
Proof.
  intros Ht. unfold selection, bind. rewrite Ht, errors_spec. cbn [default].
  destruct (default false (verbose config)); eexists; (split; [reflexivity|]); auto.
Qed.

(** If the trim function throws, so does the run, with that error as it is. *)
Lemma runWithTools_selection_throws (s : St) (e : thrown) (s1 : St) :
  selection ai model input config s = (Thrown e, s1) ->
  runWithTools sched ai model input config s = (Thrown e, s1).
Proof.
  intros Hsel. rewrite runWithTools_unfold. unfold bind at 1. rewrite Hsel. reflexivity.
Qed.

Lemma offer_function_free (chosenTools : list Tool) :
  Forall (fun o => Tool.function (ToolInput.function o) = None) (map offer chosenTools).
Proof. apply Forall_forall. intros o Ho. apply in_map_iff in Ho. destruct Ho as (t & <- & _). reflexivity. Qed.

(** The model calls of the loop offer the descriptors without their invokers. *)
Lemma loop_function_free (s : St) (chosenTools : list Tool) (s1 : St) :
  selection ai model input config s = (Returned chosenTools, s1) ->
  exists new,
    calls (snd (runWithTools sched ai model input config s)) = calls s1 ++ new
    /\ Forall function_free new.
Proof.
  intros Hsel.
  destruct (runWithTools_loop s Hsel) as (s' & E & _ & Qc & _).
  rewrite E. cbn [snd]. rewrite Qc. clear E Qc s'.
  destruct (loop_shape sched ai model (Input.tools input) (map offer chosenTools) strict
              streaming N (Input.messages input) s1)
    as (mid & _ & last & made_all & _ & C & _ & F & _ & R).
  eexists. split; [exact C|].
  apply Forall_app. split.
  - eapply Forall_impl; [|exact F].
    intros c Hc. unfold function_free. rewrite Hc. apply offer_function_free.
  - match type of R with
    | match ?x with _ => _ end => destruct x
    end.
    + destruct R as (extra & -> & _). constructor; [exact I|constructor].
    + destruct R as [->|(final & -> & Hf)]; [constructor|].
      constructor; [|constructor].
      unfold function_free. rewrite Hf. exact I.
Qed.

(** A run whose endpoint answers, whose schemas can be built and whose
    invokers do not reject with [undefined] or [null] returns the output of
    the call without tools, made last on the conversation grown by the turns
    of exactly the invocations made. *)
Lemma run_returns (s : St) (chosenTools : list Tool) (s1 : St) :
  answers ai ->
  schemas_build strict (Input.tools input) ->
  rejections_readable (Input.tools input) ->
  selection ai model input config s = (Returned chosenTools, s1) ->
  exists o extra mid made_all,
    fst (runWithTools sched ai model input config s) = Returned o
    /\ calls (snd (runWithTools sched ai model input config s))
       = calls s1 ++ mid
         ++ [{| call_model := model;
                call_input := {| AiInput.messages := Input.messages input ++ extra;
                                 AiInput.stream := streaming;
                                 AiInput.tools := None |};
                call_output := Returned o |}]
    /\ invocations (snd (runWithTools sched ai model input config s))
       = invocations s1 ++ made_all
    /\ (forall i, In i made_all -> exists m, turn_of i = Returned m /\ In m extra)
    /\ (forall m, In m extra -> Message.role m = Message.tool ->
                  exists i, In i made_all /\ turn_of i = Returned m)
    /\ (forall i, In i made_all ->
                  exists t, In t (Input.tools input) /\ Tool.name t = invoked_tool i).
Proof.
  intros Hans Hbuild Hread Hsel.
  destruct (runWithTools_loop s Hsel) as (s' & E & _ & Qc & Qi & _).
  rewrite E. cbn [fst snd]. rewrite Qc, Qi. clear E Qc Qi s'.
  destruct (loop_returns sched model (map offer chosenTools) streaming Hans Hbuild Hread N
              (Input.messages input) s1) as (o & Ho).
  destruct (loop_shape sched ai model (Input.tools input) (map offer chosenTools) strict
              streaming N (Input.messages input) s1)
    as (mid & _ & last & made_all & _ & C & I & _ & L & R).
  rewrite Ho in R |- *. destruct R as (extra & -> & X1 & X2).
  exists o, extra. eexists. exists made_all.
  split; [reflexivity|]. split; [exact C|]. auto.
Qed.

(** C1 (amended).  With [maxRecursiveToolRuns = N], a run performs at most
    [N + 1] tool-dispatch rounds: the first one and at most [N] recursive
    ones.  Against a model endpoint that requests at least one tool call
    whenever tools are offered (and with no callback of a round throwing:
    every schema can be built under strict validation, and no invoker
    rejects with [undefined] or [null]) it performs exactly [N + 1] rounds
    and then the final call without tools. *)
Theorem recursion_bound (s : St) (chosenTools : list Tool) (s1 : St) :
  selection ai model input config s = (Returned chosenTools, s1) ->
  exists new,
    calls (snd (runWithTools sched ai model input config s)) = calls s1 ++ new
    /\ rounds new <= Z.to_nat (default 0%Z (maxRecursiveToolRuns config)) + 1
    /\ (always_requests ai ->
        schemas_build (default false (strictValidation config)) (Input.tools input) ->
        rejections_readable (Input.tools input) ->
        exists mid last,
          new = mid ++ [last]
          /\ length mid = Z.to_nat (default 0%Z (maxRecursiveToolRuns config)) + 1
          /\ Forall (fun c => is_round c = true) mid
          /\ AiInput.tools (call_input last) = None).
Proof.
  intros Hsel.
  destruct (runWithTools_loop s Hsel) as (s' & E & _ & Qc & _).
  rewrite E. cbn [snd]. rewrite Qc. fold strict streaming N.
  destruct (loop_rounds_bound sched ai model (Input.tools input) (map offer chosenTools)
              strict streaming N (Input.messages input) s1) as (new & C & B).
  exists new. split; [exact C|]. split; [rewrite Nat.add_1_r; exact B|].
  intros Hreq Hbuild Hread.
  destruct (loop_rounds_exact sched model (map offer chosenTools) streaming Hreq Hbuild Hread N
              (Input.messages input) s1) as (mid & last & C' & L & F & T).
  exists mid, last. rewrite C in C'. apply app_inv_head in C'.
  rewrite Nat.add_1_r. auto.
Qed.

Lemma order_nil (A : Type) (w : World) : order sched w (@nil A) = [].
Proof. apply Permutation_nil, Permutation_sym, order_perm. Qed.

(** C2.  With the default trim function, if the first response of the model
    requests no tool call (no [tool_calls], an empty list, or only entries
    that [filter(Boolean)] drops), the run makes exactly one more model
    call, with the same conversation, without tools and with
    [stream = streamFinalResponse]; it calls no invoker, and what that call
    returns is what the run returns (if that call throws, the run throws what
    its two catch clauses make of the error, each putting its prefix before
    the message it reads). *)
Theorem no_tool_call_termination (s : St) (response : AiTextGenerationOutput) (w1 : World) :
  trimFunction config = None ->
  ai model
    {| AiInput.messages := Input.messages input; AiInput.stream := false;
       AiInput.tools := Some (map offer (Input.tools input)) |} (world s)
  = (Returned response, w1) ->
  requested response = [] ->
  let final := {| AiInput.messages := Input.messages input;
                  AiInput.stream := default false (streamFinalResponse config);
                  AiInput.tools := None |} in
  let out := runWithTools sched ai model input config s in
  calls (snd out)
  = calls s
    ++ [{| call_model := model;
           call_input := {| AiInput.messages := Input.messages input; AiInput.stream := false;
                            AiInput.tools := Some (map offer (Input.tools input)) |};
           call_output := Returned response |};
        {| call_model := model; call_input := final; call_output := fst (ai model final w1) |}]
  /\ invocations (snd out) = invocations s
  /\ fst out
     = match fst (ai model final w1) with
       | Returned o => Returned o
       | Thrown e =>
           Thrown (wrapped "Error in runWithTools: "
                     (wrapped "Error in runAndProcessToolCall: " e))
       end.
Proof.
  intros Ht Hai Hreq final out.
  destruct (selection_default s Ht) as (s1 & Hsel & W1 & C1 & I1).
  destruct (runWithTools_loop s Hsel) as (s' & E & _ & Qc & Qi & _).
  unfold out. rewrite E. cbn [fst snd]. rewrite Qc, Qi. clear E Qc Qi s'.
  fold strict streaming N.
  rewrite (loop_unfold sched ai model (Input.tools input) (map offer (Input.tools input))
             strict streaming N (Input.messages input)).
  match goal with
  | |- context [try_catch ?m ?h s1] =>
      destruct (@try_catch_rethrow _ m "Error in runAndProcessToolCall:"
                  "Error in runAndProcessToolCall: " s1) as (s' & E & _ & Qc & Qi & _);
      rewrite E; clear E; cbn [fst snd]; rewrite Qc, Qi; clear Qc Qi s'
  end.
  destruct (round_cases sched ai model (Input.tools input) (map offer (Input.tools input))
              strict
              (fun tcs messages' =>
                 match N, tcs with
                 | S n', _ :: _ =>
                     runAndProcessToolCall sched ai model (Input.tools input)
                       (map offer (Input.tools input)) strict streaming n' messages'
                 | _, _ =>
                     ai_run ai model
                       {| AiInput.messages := messages'; AiInput.stream := streaming;
                          AiInput.tools := None |}
                 end) (Input.messages input) s1) as (s2 & C2 & I2 & _ & W2 & H).
  cbv zeta in H. rewrite W1, Hai in H, C2, W2. cbn [fst snd] in H, C2, W2.
  destruct H as (s3 & C3 & _ & W3 & I3 & H).
  rewrite Hreq in H, W3, I3. unfold pushed in H.
  cbn [started pendings first_rejection made after awaiting map] in H, W3, I3.
  rewrite order_nil in H. cbn [settled_turns map] in H. rewrite !app_nil_r in H, I3.
  assert (H' : forall (A : Type) (y : A), match N with 0 => y | S _ => y end = y)
    by (intros; destruct N; reflexivity).
  cbn iota in H. rewrite H' in H. clear H'.
  match type of H with ?l = _ => change l with
    ((response0 <- ai_run ai model
                     {| AiInput.messages := Input.messages input; AiInput.stream := false;
                        AiInput.tools := Some (map offer (Input.tools input)) |} ;;
      messages' <- errors (dispatch sched (Input.tools input) strict (requested response0)
                             (Input.messages input)) ;;
      match N, requested response0 with
      | S n', _ :: _ =>
          runAndProcessToolCall sched ai model (Input.tools input)
            (map offer (Input.tools input)) strict streaming n' messages'
      | _, _ =>
          ai_run ai model
            {| AiInput.messages := messages'; AiInput.stream := streaming;
               AiInput.tools := None |}
      end) s1) in H end.
  rewrite H.
  destruct (ai_run_state ai model final s3) as (C4 & I4 & _ & _ & R4).
  subst final. fold streaming in R4, C4, I4 |- *.
  rewrite R4, C4, I4, C3, C2, I3, I2, W3, W2, C1, I1, <- app_assoc.
  cbn [app]. repeat split; auto.
  destruct (fst (ai model _ w1)); reflexivity.
Qed.

(** A dispatched tool call has its invoker called; if the invoker rejects
    with a value off which a message can be read, the round appends the tool
    turn whose content is ["Error executing tool <name>: <message>"], under
    the name of the tool, and returns.  A run whose model endpoint answers,
    whose schemas can be built under strict validation and whose invokers
    reject with such values only returns the output of its final call
    without tools, made on a conversation that holds such a turn for every
    invocation that was rejected. *)
Lemma invoker_error_isolated :
  (forall tool_calls messages s0 toolCall t fn parameters messages',
      In toolCall tool_calls ->
      find (fun tool => String.eqb (Tool.name tool) (ToolCall.name toolCall)) (Input.tools input)
      = Some t ->
      Tool.function t = Some fn ->
      Tool.parameters t = Some parameters ->
      (default false (strictValidation config) = true ->
       validation parameters (ToolCall.arguments toolCall) = Returned true) ->
      fst (dispatch sched (Input.tools input) (default false (strictValidation config))
             tool_calls messages s0) = Returned messages' ->
      exists new w,
        invocations (snd (dispatch sched (Input.tools input)
                            (default false (strictValidation config)) tool_calls messages s0))
        = invocations s0 ++ new
        /\ In {| invoked_tool := Tool.name t;
                 invoked_args := ToolCall.arguments toolCall;
                 invoked_outcome := fst (fn (ToolCall.arguments toolCall) w) |} new
        /\ forall message,
             fst (fn (ToolCall.arguments toolCall) w) = Thrown (Error message) ->
             In {| Message.role := Message.tool;
                   Message.content :=
                     ("Error executing tool " ++ Tool.name t ++ ": " ++ message)%string;
                   Message.name := Some (Tool.name t) |} messages')
  /\ (forall s chosenTools s1,
         answers ai ->
         schemas_build (default false (strictValidation config)) (Input.tools input) ->
         rejections_readable (Input.tools input) ->
         selection ai model input config s = (Returned chosenTools, s1) ->
         exists o extra mid made_all,
           fst (runWithTools sched ai model input config s) = Returned o
           /\ calls (snd (runWithTools sched ai model input config s))
              = calls s1 ++ mid
                ++ [{| call_model := model;
                       call_input :=
                         {| AiInput.messages := Input.messages input ++ extra;
                            AiInput.stream := default false (streamFinalResponse config);
                            AiInput.tools := None |};
                       call_output := Returned o |}]
           /\ invocations (snd (runWithTools sched ai model input config s))
              = invocations s1 ++ made_all
           /\ forall i message,
                In i made_all -> invoked_outcome i = Thrown (Error message) ->
                In {| Message.role := Message.tool;
                      Message.content :=
                        ("Error executing tool " ++ invoked_tool i ++ ": " ++ message)%string;
                      Message.name := Some (invoked_tool i) |} extra).
Proof.
  split.
  - intros tool_calls messages s0 toolCall t fn parameters messages' Hin F Hf Hp Hv R.
    pose proof (@verdict_invoke (Input.tools input) _ toolCall t fn parameters F Hf Hp Hv) as V.
    destruct (@dispatch_invokes sched (Input.tools input) _ tool_calls messages s0 toolCall t fn
                Hin V) as (new & w & I & Hw & T).
    exists new, w. split; [exact I|]. split; [exact Hw|].
    intros message Hthrow. destruct (T messages' R) as (m & Hm & Hin').
    rewrite Hthrow in Hm. cbn in Hm. inversion Hm; subst m. exact Hin'.
  - intros s chosenTools s1 Hans Hbuild Hread Hsel.
    destruct (run_returns s Hans Hbuild Hread Hsel)
      as (o & extra & mid & made_all & R & C & I & X1 & _).
    exists o, extra, mid, made_all. repeat (split; [assumption|]).
    intros i message Hi Hout. destruct (X1 i Hi) as (m & Hm & Hin).
    unfold turn_of in Hm. rewrite Hout in Hm. cbn in Hm. inversion Hm; subst m. exact Hin.
Qed.

(** C6.  A tool call that names no listed descriptor is logged and skipped:
    its callback pushes the assistant turn, calls no invoker and does not
    throw; no tool turn of the round carries its name; and a run whose
    model endpoint answers (and in which no other callback throws: every
    schema can be built under strict validation, no invoker rejects with
    [undefined] or [null]) returns the output of its final call, made on a
    conversation without any tool turn under a name that is not listed. *)
Theorem hallucinated_tool_name :
  (forall toolCall messages s0,
      find (fun tool => String.eqb (Tool.name tool) (ToolCall.name toolCall)) (Input.tools input)
      = None ->
      let s' := snd (Logger_error
                       ("Tool " ++ ToolCall.name toolCall ++ " not found, maybe AI hallucinated")
                       s0) in
      toolCallCallback (Input.tools input) (default false (strictValidation config))
        toolCall messages s0
      = (Returned (messages ++ [assistant_turn toolCall], Done), s')
      /\ world s' = world s0 /\ invocations s' = invocations s0 /\ calls s' = calls s0
      /\ (enabled s0 = true ->
          console s'
          = console s0
            ++ [("ERROR: " ++ "Tool " ++ ToolCall.name toolCall
                 ++ " not found, maybe AI hallucinated")%string]))
  /\ (forall tool_calls toolCall messages s0 messages',
         In toolCall tool_calls ->
         find (fun tool => String.eqb (Tool.name tool) (ToolCall.name toolCall))
           (Input.tools input) = None ->
         fst (dispatch sched (Input.tools input) (default false (strictValidation config))
                tool_calls messages s0) = Returned messages' ->
         exists extra,
           messages' = messages ++ extra
           /\ forall m, In m extra -> Message.role m = Message.tool ->
                        Message.name m <> Some (ToolCall.name toolCall))
  /\ (forall s chosenTools s1 name,
         answers ai ->
         schemas_build (default false (strictValidation config)) (Input.tools input) ->
         rejections_readable (Input.tools input) ->
         selection ai model input config s = (Returned chosenTools, s1) ->
         (forall t, In t (Input.tools input) -> Tool.name t <> name) ->
         exists o extra mid,
           fst (runWithTools sched ai model input config s) = Returned o
           /\ calls (snd (runWithTools sched ai model input config s))
              = calls s1 ++ mid
                ++ [{| call_model := model;
                       call_input :=
                         {| AiInput.messages := Input.messages input ++ extra;
                            AiInput.stream := default false (streamFinalResponse config);
                            AiInput.tools := None |};
                       call_output := Returned o |}]
           /\ forall m, In m extra -> Message.role m = Message.tool ->
                        Message.name m <> Some name).
Proof.
  split; [|split].
  - intros toolCall messages s0 F s'.
    split; [exact (@callback_not_found (Input.tools input) _ toolCall messages s0 F)|].
    destruct (Logger_error_quiet
                ("Tool " ++ ToolCall.name toolCall ++ " not found, maybe AI hallucinated") s0)
      as (Q1 & Q2 & Q3 & _).
    repeat (split; [assumption|]).
    intros En. apply Logger_error_console. exact En.
  - intros tool_calls toolCall messages s0 messages' _ F R.
    destruct (@dispatch_tool_turns sched (Input.tools input) _ tool_calls messages s0 messages' R)
      as (extra & -> & T).
    exists extra. split; [reflexivity|].
    intros m Hm Hrole Hname.
    destruct (T m Hm Hrole) as (t & Ht & Hn).
    pose proof (find_none _ _ F t Ht) as Hneq. cbv beta in Hneq.
    rewrite Hn in Hname. inversion Hname as [Heq].
    rewrite Heq, String.eqb_refl in Hneq. discriminate.
  - intros s chosenTools s1 name Hans Hbuild Hread Hsel Habsent.
    destruct (run_returns s Hans Hbuild Hread Hsel)
      as (o & extra & mid & made_all & R & C & _ & _ & X2 & L).
    exists o, extra, mid. repeat (split; [assumption|]).
    intros m Hm Hrole Hname.
    destruct (X2 m Hm Hrole) as (i & Hi & Ht).
    destruct (L i Hi) as (t & Hin & Hn).
    apply (Habsent t Hin).
    destruct (turn_of_tool _ Ht) as (_ & Hname'). congruence.
Qed.

(** C8.  No model call of a run offers a descriptor that carries an
    invoker: the initial offer list and the list rebuilt from what the trim
    function returned are made of descriptors whose [function] field is
    undefined, every model call of the loop offers the rebuilt list or no
    tools at all, and with the default trim function or with
    [autoTrimTools] this holds of every model call logged during the run. *)
Theorem offers_carry_no_function :
  Forall (fun o => Tool.function (ToolInput.function o) = None)
    (map offer (map without_function (Input.tools input)))
  /\ (forall chosenTools,
         Forall (fun o => Tool.function (ToolInput.function o) = None) (map offer chosenTools))
  /\ (forall s chosenTools s1,
         selection ai model input config s = (Returned chosenTools, s1) ->
         exists new,
           calls (snd (runWithTools sched ai model input config s)) = calls s1 ++ new
           /\ Forall function_free new)
  /\ (forall s,
         trimFunction config = None \/ trimFunction config = Some autoTrimTools ->
         exists new,
           calls (snd (runWithTools sched ai model input config s)) = calls s ++ new
           /\ Forall function_free new).
Proof.
  split; [apply offer_function_free|]. split; [apply offer_function_free|].
  split; [exact loop_function_free|].
  intros s Htrim.
  assert (Hsel : exists pre, calls (snd (selection ai model input config s)) = calls s ++ pre
                             /\ Forall function_free pre).
  { unfold selection, bind.
    assert (Hq : exists s0, (if default false (verbose config) then Logger_enableLogging
                             else ret tt) s = (Returned tt, s0) /\ calls s0 = calls s).
    { destruct (default false (verbose config)); eexists; split; reflexivity. }
    destruct Hq as (s0 & E0 & C0). rewrite errors_spec, E0. cbn [fst snd raised].
    destruct Htrim as [Ht|Ht]; rewrite Ht; cbn [default].
    - exists []. rewrite app_nil_r. split; [exact C0|constructor].
    - destruct (autoTrimTools_calls ai model (Input.tools input) (Input.messages input) s0)
        as (pre & C & F).
      exists pre. rewrite C, C0. auto. }
  destruct Hsel as (pre & Cpre & Fpre).
  destruct (selection ai model input config s) as [[chosenTools|e] s1] eqn:Hsel.
  - destruct (loop_function_free s Hsel) as (new & C & F).
    exists (pre ++ new). cbn [snd] in Cpre. rewrite C, Cpre, <- app_assoc.
    split; [reflexivity|]. apply Forall_app. auto.
  - rewrite (runWithTools_selection_throws s Hsel). cbn [snd] in Cpre |- *.
    exists pre. auto.
Qed.

End Run.

(** *** The sample endpoints *)

Lemma requesting_always_requests (name : string) (arguments : json) :
  always_requests (requesting name arguments).
Proof.
  intros model input w Htools. unfold requesting.
  destruct (AiInput.tools input); [|congruence].
  do 3 eexists. split; reflexivity.
Qed.

Lemma requesting_answers (name : string) (arguments : json) :
  answers (requesting name arguments).
Proof.
  intros model input w. unfold requesting.
  destruct (AiInput.tools input); eexists; reflexivity.
Qed.

Lemma silent_answers : answers silent.
Proof. intros model input w. eexists. reflexivity. Qed.

Lemma schemas_build_unchecked (input_tools : list Tool) : schemas_build false input_tools.
Proof. intros H. discriminate. Qed.

(* ------------------------------------------------------------------------- *)
(** ** The logging switch and the console *)

Lemma hushed_refl (s : St) : hushed s s.
Proof. split; auto. Qed.

Lemma hushed_trans (s1 s2 s3 : St) : hushed s1 s2 -> hushed s2 s3 -> hushed s1 s3.
Proof.
  intros (E1 & C1) (E2 & C2). split; [congruence|].
  intros E. rewrite C2, C1; congruence.
Qed.

Lemma discreet_ret (E A : Type) (a : A) : discreet (@ret E A a).
Proof. intros s. apply hushed_refl. Qed.

Lemma discreet_throw (E A : Type) (e : E) : discreet (@throw E A e).
Proof. intros s. apply hushed_refl. Qed.

Lemma discreet_lift (E A : Type) (r : result_of E A) : discreet (lift r).
Proof. intros s. apply hushed_refl. Qed.

Lemma discreet_bind (E A B : Type) (m : M_of E A) (k : A -> M_of E B) :
  discreet m -> (forall a, discreet (k a)) -> discreet (bind m k).
Proof.
  intros Hm Hk s. unfold bind. specialize (Hm s).
  destruct (m s) as [[a|e] s1]; cbn [snd] in *; [|exact Hm].
  eapply hushed_trans; [exact Hm|apply Hk].
Qed.

Lemma discreet_try_catch (E A : Type) (m : M_of E A) (handler : E -> M_of E A) :
  discreet m -> (forall e, discreet (handler e)) -> discreet (try_catch m handler).
Proof.
  intros Hm Hh s. unfold try_catch. specialize (Hm s).
  destruct (m s) as [[a|e] s1]; cbn [snd] in *; [exact Hm|].
  eapply hushed_trans; [exact Hm|apply Hh].
Qed.

Lemma discreet_errors (A : Type) (m : M A) : discreet m -> discreet (errors m).
Proof. intros Hm s. rewrite errors_spec. apply Hm. Qed.

Lemma discreet_Logger_error (message : string) : discreet (Logger_error message).
Proof.
  intros s. unfold Logger_error. cbn [snd].
  destruct (enabled s) eqn:E; [|apply hushed_refl].
  split; [cbn; congruence|]. intros F. congruence.
Qed.

Lemma discreet_ai_run (ai : Ai) (model : string) (input : AiInput) :
  discreet (ai_run ai model input).
Proof.
  intros s. unfold ai_run. destruct (ai model input (world s)) as [r w].
  split; reflexivity.
Qed.

Lemma discreet_call_invoker (name : string) (fn : json -> World -> settled string * World)
    (args : json) :
  discreet (call_invoker name fn args).
Proof.
  intros s. unfold call_invoker. destruct (fn args (world s)) as [r w].
  split; reflexivity.
Qed.

Ltac discreetly :=
  repeat match goal with
         | |- discreet (ret _) => apply discreet_ret
         | |- discreet (throw _) => apply discreet_throw
         | |- discreet (lift _) => apply discreet_lift
         | |- discreet (errors _) => apply discreet_errors
         | |- discreet (Logger_error _) => apply discreet_Logger_error
         | |- discreet (ai_run _ _ _) => apply discreet_ai_run
         | |- discreet (call_invoker _ _ _) => apply discreet_call_invoker
         | |- discreet (bind _ _) => apply discreet_bind
         | |- discreet (try_catch _ _) => apply discreet_try_catch
         | |- discreet (match ?x with _ => _ end) => destruct x
         | |- discreet (let _ := _ in _) => cbv zeta
         | |- forall _ : _, discreet _ => intro; cbv beta
         end.

Lemma discreet_validateArgsWithZod (args : json) (properties : option json) :
  discreet (validateArgsWithZod args properties).
Proof. unfold validateArgsWithZod. discreetly. Qed.

(* ------------------------------------------------------------------------- *)
(** ** More on the loop: its failures, its model calls, its log *)

Section Rounds.

Variable sched : Scheduler.
Variable ai : Ai.
Variable model : string.
Variable input_tools : list Tool.
Variable tools : list ToolInput.
Variable strictValidation : bool.
Variable streamFinalResponse : bool.

Let loop := runAndProcessToolCall sched ai model input_tools tools strictValidation
              streamFinalResponse.

Let round_input (messages : list Message) : AiInput :=
  {| AiInput.messages := messages; AiInput.stream := false; AiInput.tools := Some tools |}.

Let final_input (messages : list Message) : AiInput :=
  {| AiInput.messages := messages; AiInput.stream := streamFinalResponse;
     AiInput.tools := None |}.

Let traced := trace sched model input_tools tools strictValidation streamFinalResponse.

(** One round and what follows it, inside the [try] of the function. *)
Let round_then (K : list ToolCall -> list Message -> Async AiTextGenerationOutput)
    (messages : list Message) : Async AiTextGenerationOutput :=
  try_catch
    (response <- ai_run ai model (round_input messages) ;;
     messages' <- errors (dispatch sched input_tools strictValidation (requested response)
                            messages) ;;
     K (requested response) messages')
    (fun error =>
       errors (Logger_error "Error in runAndProcessToolCall:") ;;;
       throw (wrapped "Error in runAndProcessToolCall: " error)).

(** What follows the round: the recursive call or the final call. *)
Let continue (n : nat) (tcs : list ToolCall) (messages' : list Message)
  : Async AiTextGenerationOutput :=
  match n, tcs with
  | S n', _ :: _ => loop n' messages'
  | _, _ => ai_run ai model (final_input messages')
  end.

Lemma loop_round (n : nat) (messages : list Message) :
  loop n messages = round_then (continue n) messages.
Proof. destruct n; reflexivity. Qed.

(** The three ways a round goes: the model call throws; a callback throws,
    as it starts or as it resumes; or the continuation runs on the
    conversation grown by the turns pushed. *)
Lemma round_then_cases (K : list ToolCall -> list Message -> Async AiTextGenerationOutput)
    (messages : list Message) (s : St) :
  let out := round_then K messages s in
  let r := ai model (round_input messages) (world s) in
  let c1 := {| call_model := model; call_input := round_input messages;
               call_output := fst r |} in
  match fst r with
  | Thrown e =>
      fst out = Thrown (wrapped "Error in runAndProcessToolCall: " e)
      /\ calls (snd out) = calls s ++ [c1]
      /\ invocations (snd out) = invocations s
      /\ enabled (snd out) = enabled s
      /\ world (snd out) = snd r
  | Returned response =>
      let st := started input_tools strictValidation (requested response) (snd r) in
      match pushed sched st with
      | Thrown e =>
          fst out = Thrown (Error ("Error in runAndProcessToolCall: " ++ e))
          /\ calls (snd out) = calls s ++ [c1]
          /\ invocations (snd out) = invocations s ++ made st
          /\ enabled (snd out) = enabled s
          /\ world (snd out) = after st
      | Returned turns =>
          exists s2,
            calls s2 = calls s ++ [c1]
            /\ invocations s2 = invocations s ++ made st
            /\ enabled s2 = enabled s
            /\ world s2 = after st
            /\ let next := K (requested response)
                             (messages ++ map assistant_turn (requested response) ++ turns)
                             s2 in
               fst out = match fst next with
                         | Returned o => Returned o
                         | Thrown e => Thrown (wrapped "Error in runAndProcessToolCall: " e)
                         end
               /\ quiet (snd next) (snd out)
      end
  end.
Proof.
  intros out r c1. unfold out, round_then.
  match goal with
  | |- context [try_catch ?m ?h s] =>
      destruct (@try_catch_rethrow _ m "Error in runAndProcessToolCall:"
                  "Error in runAndProcessToolCall: " s) as (s' & E & Qw & Qc & Qi & Qe);
      rewrite E; clear E; cbn [fst snd]
  end.
  destruct (round_cases sched ai model input_tools tools strictValidation K messages s)
    as (s1 & C1 & I1 & N1 & W1 & H).
  cbv zeta in H. fold (round_input messages) in C1, W1, H. fold r in C1, W1, H. fold c1 in C1.
  destruct (fst r) as [response|e] eqn:R.
  - destruct H as (s2 & C2 & N2 & W2 & I2 & H). rewrite W1 in *.
    destruct (pushed sched _) as [turns|e].
    + exists s2. repeat (split; [congruence|]).
      cbv zeta. rewrite H in *. split; [reflexivity|].
      repeat split; assumption.
    + rewrite H in *. cbn [fst snd wrapped message_of] in *. repeat split; congruence.
  - rewrite H in *. cbn [fst snd] in *. repeat split; congruence.
Qed.

(** *** Where an error comes from *)

Lemma settled_turns_Thrown (ps : list (Tool * settled string)) (e : string) :
  settled_turns ps = Thrown e ->
  exists p error, In p ps /\ snd p = Thrown error /\ message_of error = Thrown e.
Proof.
  induction ps as [|p rest IH]; cbn [settled_turns]; [discriminate|].
  intros H.
  destruct (settled_turn (fst p) (snd p)) as [turn|e1] eqn:T; cbn [result_bind] in H.
  - destruct (settled_turns rest) as [turns|e2]; cbn [result_map] in H; [discriminate|].
    destruct (IH H) as (p' & error & Hin & Hs & Hm).
    exists p', error. split; [right; exact Hin|]. split; assumption.
  - inversion H; subst e1. destruct p as [t [r|error]]; cbn in T; [discriminate|].
    exists (t, Thrown error), error. split; [left; reflexivity|]. split; [reflexivity|].
    destruct (message_of error); cbn in T; [discriminate|congruence].
Qed.

(** A round fails on a call whose schema cannot be built, or on a call
    whose invoker rejected with [undefined] or [null]. *)
Lemma pushed_Thrown (tool_calls : list ToolCall) (w : World) (e : string) :
  pushed sched (started input_tools strictValidation tool_calls w) = Thrown e ->
  exists toolCall t,
    In toolCall tool_calls
    /\ (verdict input_tools strictValidation toolCall = Throws t e
        \/ exists fn w' error,
             verdict input_tools strictValidation toolCall = Invoke t fn
             /\ fst (fn (ToolCall.arguments toolCall) w') = Thrown error
             /\ message_of error = Thrown e).
Proof.
  unfold pushed.
  destruct (first_rejection _) as [e'|] eqn:FR; intros H.
  - inversion H; subst e'.
    destruct (@rejection_of_throw input_tools strictValidation tool_calls w e FR)
      as (toolCall & t & Hin & V).
    exists toolCall, t. auto.
  - destruct (settled_turns_Thrown _ H) as (p & error & Hp & Hs & Hm).
    eapply Permutation_in in Hp; [|apply order_perm].
    destruct (@awaiting_of_invoke input_tools strictValidation tool_calls w p Hp)
      as (toolCall & fn & w' & Hin & V & Hw).
    exists toolCall, (fst p). split; [exact Hin|]. right.
    exists fn, w', error. split; [exact V|]. split; [congruence|exact Hm].
Qed.

(** Where the error [e0] of a run comes from, [c] being its last model
    call: that call threw it; or the schema of a call that its response
    requested could not be built; or the invoker of such a call rejected
    with [undefined] or [null], and [e0] is the [TypeError] of reading a
    message off that. *)
Let source (c : AiCall) (e0 : thrown) : Prop :=
  call_output c = Thrown e0
  \/ exists response toolCall t,
       call_output c = Returned response
       /\ In toolCall (requested response)
       /\ ((exists message,
              verdict input_tools strictValidation toolCall = Throws t message
              /\ e0 = Error message)
           \/ exists fn w error message,
                verdict input_tools strictValidation toolCall = Invoke t fn
                /\ fst (fn (ToolCall.arguments toolCall) w) = Thrown error
                /\ message_of error = Thrown message
                /\ e0 = Error message).

Lemma round_then_throws (K : list ToolCall -> list Message -> Async AiTextGenerationOutput)
    (bound : nat) (messages : list Message) (s : St) (e : thrown) :
  (forall tcs messages' s2 e1,
      fst (K tcs messages' s2) = Thrown e1 ->
      exists depth e0 new c,
        depth <= bound
        /\ e1 = rethrown depth e0
        /\ calls (snd (K tcs messages' s2)) = calls s2 ++ new ++ [c]
        /\ source c e0) ->
  fst (round_then K messages s) = Thrown e ->
  exists depth e0 new c,
    depth <= bound
    /\ e = rethrown (S depth) e0
    /\ calls (snd (round_then K messages s)) = calls s ++ new ++ [c]
    /\ source c e0.
Proof.
  intros HK H.
  pose proof (round_then_cases K messages s) as C. cbv zeta in C.
  destruct (fst (ai model (round_input messages) (world s))) as [response|e1] eqn:R.
  - destruct (pushed sched _) as [turns|e1] eqn:P.
    + destruct C as (s2 & C2 & _ & _ & _ & E & _ & Qc & _). cbv zeta in E.
      rewrite E in H.
      match type of H with
      | match fst ?next with _ => _ end = _ => destruct (fst next) as [o|e1] eqn:N
      end; [discriminate|].
      inversion H; subst e.
      destruct (HK _ _ _ _ N) as (depth & e0 & new & c & Hd & He & Hc & Ho).
      exists depth, e0,
        ({| call_model := model; call_input := round_input messages;
            call_output := Returned response |} :: new), c.
      split; [exact Hd|]. split; [rewrite He; reflexivity|].
      split; [rewrite Qc, Hc, C2, <- app_assoc; reflexivity|exact Ho].
    + destruct C as (E & Cc & _). rewrite E in H. inversion H; subst e.
      destruct (pushed_Thrown _ _ P) as (toolCall & t & Hin & V).
      exists 0, (Error e1), [], {| call_model := model; call_input := round_input messages;
                                   call_output := Returned response |}.
      split; [apply Nat.le_0_l|]. split; [reflexivity|]. split; [exact Cc|].
      right. exists response, toolCall, t. split; [reflexivity|]. split; [exact Hin|].
      destruct V as [V|(fn & w' & error & V & Hf & Hm)].
      * left. exists e1. auto.
      * right. exists fn, w', error, e1. auto.
  - destruct C as (E & Cc & _). rewrite E in H. inversion H; subst e.
    exists 0, e1, [], {| call_model := model; call_input := round_input messages;
                         call_output := Thrown e1 |}.
    split; [apply Nat.le_0_l|]. split; [reflexivity|]. split; [exact Cc|].
    left. reflexivity.
Qed.

Lemma final_throws (messages : list Message) (s : St) (e : thrown) :
  fst (ai_run ai model (final_input messages) s) = Thrown e ->
  exists depth e0 new c,
    depth <= 0
    /\ e = rethrown depth e0
    /\ calls (snd (ai_run ai model (final_input messages) s)) = calls s ++ new ++ [c]
    /\ source c e0.
Proof.
  intros H.
  destruct (ai_run_state ai model (final_input messages) s) as (C & _ & _ & _ & R).
  rewrite R in H.
  exists 0, e, [], {| call_model := model; call_input := final_input messages;
                      call_output := fst (ai model (final_input messages) (world s)) |}.
  split; [apply Nat.le_0_l|]. split; [reflexivity|]. split; [exact C|].
  left. exact H.
Qed.

(** An error of the loop comes from its last model call or from the round
    of that call; every level of the recursion it crossed has caught it
    and thrown it again. *)
Lemma loop_throws (n : nat) :
  forall (messages : list Message) (s : St) (e : thrown),
    fst (loop n messages s) = Thrown e ->
    exists depth e0 new c,
      depth <= n
      /\ e = rethrown (S depth) e0
      /\ calls (snd (loop n messages s)) = calls s ++ new ++ [c]
      /\ (call_output c = Thrown e0
          \/ exists response toolCall t,
               call_output c = Returned response
               /\ In toolCall (requested response)
               /\ ((exists message,
                      verdict input_tools strictValidation toolCall = Throws t message
                      /\ e0 = Error message)
                   \/ exists fn w error message,
                        verdict input_tools strictValidation toolCall = Invoke t fn
                        /\ fst (fn (ToolCall.arguments toolCall) w) = Thrown error
                        /\ message_of error = Thrown message
                        /\ e0 = Error message)).
Proof.
  change (forall (messages : list Message) (s : St) (e : thrown),
             fst (loop n messages s) = Thrown e ->
             exists depth e0 new c,
               depth <= n
               /\ e = rethrown (S depth) e0
               /\ calls (snd (loop n messages s)) = calls s ++ new ++ [c]
               /\ source c e0).
  induction n as [|n IH]; intros messages s e; rewrite loop_round.
  - apply round_then_throws. intros tcs messages' s2 e1. apply final_throws.
  - apply round_then_throws. intros [|c rest] messages' s2 e1 H.
    + destruct (final_throws _ _ H) as (depth & e0 & new & c & Hd & X).
      exists depth, e0, new, c. split; [lia|exact X].
    + destruct (IH _ _ _ H) as (depth & e0 & new & c' & Hd & X).
      exists (S depth), e0, new, c'. split; [lia|exact X].
Qed.

(** *** The conversations of the model calls *)

Lemma grown_refl (messages : list Message) : grown messages messages.
Proof. exists []. rewrite app_nil_r. split; [reflexivity|constructor]. Qed.

Lemma grown_trans (a b c : list Message) : grown a b -> grown b c -> grown a c.
Proof.
  intros (x & -> & Fx) (y & -> & Fy). exists (x ++ y). rewrite app_assoc.
  split; [reflexivity|apply Forall_app; auto].
Qed.

Lemma grown_pushed (messages : list Message) (tool_calls : list ToolCall) (w : World)
    (turns : list Message) :
  pushed sched (started input_tools strictValidation tool_calls w) = Returned turns ->
  grown messages (messages ++ map assistant_turn tool_calls ++ turns).
Proof.
  intros P. eexists. split; [reflexivity|].
  apply Forall_forall. intros m Hm.
  destruct (Message.role m) eqn:Hr; auto;
    apply in_app_or in Hm; destruct Hm as [Hm|Hm];
    try (apply in_map_iff in Hm; destruct Hm as (c & <- & _); discriminate);
    unfold pushed in P; destruct (first_rejection _); try discriminate;
    apply settled_turns_Forall2 in P;
    destruct (Forall2_In_r _ P Hm) as ([t r] & _ & HR);
    destruct r as [r|error]; cbn in HR;
    try (inversion HR; subst m; discriminate);
    destruct (message_of error); cbn in HR; try discriminate;
    inversion HR; subst m; discriminate.
Qed.

(** What holds of every model call of a run from [messages]. *)
Let of_the_run (messages : list Message) (c : AiCall) : Prop :=
  grown messages (conversation c)
  /\ call_model c = model
  /\ (AiInput.tools (call_input c) = Some tools /\ AiInput.stream (call_input c) = false
      \/ AiInput.tools (call_input c) = None
         /\ AiInput.stream (call_input c) = streamFinalResponse).

Lemma of_the_run_grown (messages messages' : list Message) (new : list AiCall) :
  grown messages messages' ->
  Forall (of_the_run messages') new -> Forall (of_the_run messages) new.
Proof.
  intros G. apply Forall_impl. intros c (G' & X). split; [|exact X].
  eapply grown_trans; eassumption.
Qed.

Lemma round_then_conversations
    (K : list ToolCall -> list Message -> Async AiTextGenerationOutput)
    (messages : list Message) (s : St) :
  (forall tcs messages' s2,
      exists new,
        calls (snd (K tcs messages' s2)) = calls s2 ++ new
        /\ StronglySorted (fun c1 c2 => grown (conversation c1) (conversation c2)) new
        /\ Forall (of_the_run messages') new) ->
  exists c1 new,
    calls (snd (round_then K messages s)) = calls s ++ c1 :: new
    /\ call_input c1 = round_input messages
    /\ StronglySorted (fun c1 c2 => grown (conversation c1) (conversation c2)) (c1 :: new)
    /\ Forall (of_the_run messages) (c1 :: new).
Proof.
  intros HK.
  pose proof (round_then_cases K messages s) as C. cbv zeta in C.
  set (c1 := {| call_model := model; call_input := round_input messages;
                call_output := fst (ai model (round_input messages) (world s)) |}) in *.
  assert (H1 : of_the_run messages c1).
  { split; [apply grown_refl|]. split; [reflexivity|]. left. split; reflexivity. }
  assert (Hnil : exists c new,
             calls s ++ [c1] = calls s ++ c :: new
             /\ call_input c = round_input messages
             /\ StronglySorted (fun a b => grown (conversation a) (conversation b))
                  (c :: new)
             /\ Forall (of_the_run messages) (c :: new)).
  { exists c1, []. split; [reflexivity|]. split; [reflexivity|].
    split; constructor; auto; constructor. }
  destruct (fst (ai model (round_input messages) (world s))) as [response|e1].
  - destruct (pushed sched _) as [turns|e1] eqn:P.
    + destruct C as (s2 & C2 & _ & _ & _ & _ & _ & Qc & _). cbv zeta in Qc.
      match type of Qc with
      | calls _ = calls (snd (K ?tcs ?messages' s2)) =>
          destruct (HK tcs messages' s2) as (new & Kc & Ks & Kf)
      end.
      pose proof (grown_pushed messages _ _ P) as G.
      exists c1, new. rewrite Qc, Kc, C2, <- app_assoc.
      split; [reflexivity|]. split; [reflexivity|].
      pose proof (of_the_run_grown G Kf) as Kf'.
      split; constructor; auto.
      eapply Forall_impl; [|exact Kf']. intros c (Gc & _). exact Gc.
    + destruct C as (_ & Cc & _). rewrite Cc. exact Hnil.
  - destruct C as (_ & Cc & _). rewrite Cc. exact Hnil.
Qed.

Lemma final_conversations (messages : list Message) (s : St) :
  exists new,
    calls (snd (ai_run ai model (final_input messages) s)) = calls s ++ new
    /\ StronglySorted (fun c1 c2 => grown (conversation c1) (conversation c2)) new
    /\ Forall (of_the_run messages) new.
Proof.
  destruct (ai_run_state ai model (final_input messages) s) as (C & _).
  eexists. split; [exact C|]. split.
  - apply SSorted_cons; constructor.
  - constructor; [|constructor].
    split; [apply grown_refl|]. split; [reflexivity|]. right. split; reflexivity.
Qed.

(** The model calls of the loop are made on a conversation that only
    grows, by assistant and tool turns. *)
Lemma loop_conversations (n : nat) :
  forall (messages : list Message) (s : St),
  exists c1 new,
    calls (snd (loop n messages s)) = calls s ++ c1 :: new
    /\ call_input c1 = round_input messages
    /\ StronglySorted (fun c1 c2 => grown (conversation c1) (conversation c2)) (c1 :: new)
    /\ Forall (of_the_run messages) (c1 :: new).
Proof.
  induction n as [|n IH]; intros messages s; rewrite loop_round;
    apply round_then_conversations.
  - intros tcs messages' s2. apply final_conversations.
  - intros [|c rest] messages' s2; [apply final_conversations|].
    destruct (IH messages' s2) as (c1 & new & Hc & _ & Hs & Hf). exists (c1 :: new). auto.
Qed.

(** *** What the loop logs, round by round *)

Lemma round_then_trace (K : list ToolCall -> list Message -> Async AiTextGenerationOutput)
    (messages : list Message) (s : St) :
  (forall tcs messages' s2,
      exists new invs,
        calls (snd (K tcs messages' s2)) = calls s2 ++ new
        /\ invocations (snd (K tcs messages' s2)) = invocations s2 ++ invs
        /\ traced messages' new invs) ->
  exists new invs,
    calls (snd (round_then K messages s)) = calls s ++ new
    /\ invocations (snd (round_then K messages s)) = invocations s ++ invs
    /\ traced messages new invs.
Proof.
  intros HK.
  pose proof (round_then_cases K messages s) as C. cbv zeta in C.
  destruct (fst (ai model (round_input messages) (world s))) as [response|e1].
  - destruct (pushed sched _) as [turns|e1] eqn:P.
    + destruct C as (s2 & C2 & I2 & _ & _ & _ & _ & Qc & Qi & _). cbv zeta in Qc, Qi.
      match type of Qc with
      | calls _ = calls (snd (K ?tcs ?messages' s2)) =>
          destruct (HK tcs messages' s2) as (new & invs & Kc & Ki & Kt)
      end.
      eexists. eexists. rewrite Qc, Qi, Kc, Ki, C2, I2, <- !app_assoc.
      split; [reflexivity|]. split; [reflexivity|].
      unfold traced in *. eapply trace_round; [exact P|exact Kt].
    + destruct C as (_ & Cc & Ci & _). eexists. eexists.
      split; [exact Cc|]. split; [exact Ci|].
      unfold traced. eapply trace_aborted. exact P.
  - destruct C as (_ & Cc & Ci & _). exists [{| call_model := model;
                                               call_input := round_input messages;
                                               call_output := Thrown e1 |}], [].
    rewrite app_nil_r. split; [exact Cc|]. split; [exact Ci|]. apply trace_failed.
Qed.

Lemma final_trace (messages : list Message) (s : St) :
  exists new invs,
    calls (snd (ai_run ai model (final_input messages) s)) = calls s ++ new
    /\ invocations (snd (ai_run ai model (final_input messages) s)) = invocations s ++ invs
    /\ traced messages new invs.
Proof.
  destruct (ai_run_state ai model (final_input messages) s) as (C & I & _).
  eexists. exists []. split; [exact C|]. split; [rewrite app_nil_r; exact I|].
  apply trace_final.
Qed.

(** The loop logs a trace. *)
Lemma loop_trace (n : nat) :
  forall (messages : list Message) (s : St),
  exists new invs,
    calls (snd (loop n messages s)) = calls s ++ new
    /\ invocations (snd (loop n messages s)) = invocations s ++ invs
    /\ trace sched model input_tools tools strictValidation streamFinalResponse
         messages new invs.
Proof.
  induction n as [|n IH]; intros messages s; rewrite loop_round; apply round_then_trace.
  - intros tcs messages' s2. apply final_trace.
  - intros [|c rest] messages' s2; [apply final_trace|apply IH].
Qed.

Lemma trace_first (messages : list Message) (new : list AiCall) (invs : list Invocation) :
  traced messages new invs ->
  exists c rest, new = c :: rest /\ conversation c = messages.
Proof. destruct 1; eexists; eexists; split; reflexivity. Qed.

Lemma trace_prefix (messages : list Message) (new : list AiCall) (invs : list Invocation) :
  traced messages new invs ->
  Forall (fun c => exists extra, conversation c = messages ++ extra) new.
Proof.
  induction 1 as [messages r|messages e|messages response w e P
                 |messages response w turns rest invs P T IH];
    try (constructor; [exists []; rewrite app_nil_r; reflexivity|constructor]).
  constructor; [exists []; rewrite app_nil_r; reflexivity|].
  eapply Forall_impl; [|exact IH]. intros c (extra & ->).
  eexists. rewrite <- !app_assoc. reflexivity.
Qed.

Lemma singleton_split (A : Type) (x c : A) (before after : list A) :
  [x] = before ++ c :: after -> before = [] /\ c = x /\ after = [].
Proof.
  destruct before as [|y before]; cbn [app]; intros H; inversion H; subst.
  - auto.
  - destruct before; discriminate.
Qed.

(** The round of a logged model call that offered tools and was answered:
    its invocations are a segment of those of the run; if one of its
    callbacks threw, no model call follows; otherwise the next model call
    is made on the conversation of this one, grown by one assistant turn
    per requested call and by the tool turns pushed, and the later calls
    on conversations that begin with it. *)
Lemma trace_round_of (messages : list Message) (new : list AiCall) (invs : list Invocation) :
  traced messages new invs ->
  forall before c after response,
    new = before ++ c :: after ->
    AiInput.tools (call_input c) <> None ->
    call_output c = Returned response ->
    exists w ipre ipost,
      let st := started input_tools strictValidation (requested response) w in
      invs = ipre ++ made st ++ ipost
      /\ match pushed sched st with
         | Thrown _ => after = []
         | Returned turns =>
             exists c' after',
               after = c' :: after'
               /\ conversation c'
                  = conversation c ++ map assistant_turn (requested response) ++ turns
               /\ Forall (fun c'' => exists extra,
                            conversation c'' = conversation c' ++ extra) after'
         end.
Proof.
  induction 1 as [messages r|messages e|messages response w e P
                 |messages response w turns rest invs P T IH];
    intros before c after response' Hnew Htools Hout.
  - apply singleton_split in Hnew. destruct Hnew as (_ & -> & _).
    exfalso. apply Htools. reflexivity.
  - apply singleton_split in Hnew. destruct Hnew as (_ & -> & _). discriminate.
  - apply singleton_split in Hnew. destruct Hnew as (_ & -> & ->).
    cbn [call_output] in Hout. inversion Hout; subst response'.
    exists w, [], []. cbv zeta. rewrite app_nil_r, P. split; reflexivity.
  - destruct before as [|c0 before]; cbn [app] in Hnew; inversion Hnew; subst.
    + cbn [call_output] in Hout. inversion Hout; subst response'.
      exists w, [], invs. cbv zeta. rewrite P. split; [reflexivity|].
      destruct (trace_first T) as (c' & after' & -> & Hc').
      exists c', after'. split; [reflexivity|]. split; [exact Hc'|].
      pose proof (trace_prefix T) as F. inversion F; subst.
      eapply Forall_impl; [|eassumption]. intros c'' (extra & ->).
      exists extra. rewrite Hc'. reflexivity.
    + destruct (IH before c after response' eq_refl Htools Hout) as (w' & ipre & ipost & Hi & X).
      exists w', (made (started input_tools strictValidation (requested response) w) ++ ipre),
        ipost.
      cbv zeta in *. split; [rewrite Hi, <- app_assoc; reflexivity|exact X].
Qed.

(** Every invocation of the run is that of the invoker selected for a call
    that some response requested. *)
Lemma trace_invocation (messages : list Message) (new : list AiCall) (invs : list Invocation) :
  traced messages new invs ->
  forall i, In i invs ->
    exists c response toolCall t fn w,
      In c new /\ call_output c = Returned response
      /\ In toolCall (requested response)
      /\ verdict input_tools strictValidation toolCall = Invoke t fn
      /\ i = {| invoked_tool := Tool.name t;
                invoked_args := ToolCall.arguments toolCall;
                invoked_outcome := fst (fn (ToolCall.arguments toolCall) w) |}.
Proof.
  induction 1 as [messages r|messages e|messages response w e P
                 |messages response w turns rest invs P T IH];
    intros i Hi; try (destruct Hi; fail).
  - destruct (@made_of_invoke input_tools strictValidation (requested response) w i Hi)
      as (toolCall & t & fn & w' & Hin & V & ->).
    eexists. exists response, toolCall, t, fn, w'.
    split; [left; reflexivity|]. auto.
  - apply in_app_or in Hi. destruct Hi as [Hi|Hi].
    + destruct (@made_of_invoke input_tools strictValidation (requested response) w i Hi)
        as (toolCall & t & fn & w' & Hin & V & ->).
      eexists. exists response, toolCall, t, fn, w'.
      split; [left; reflexivity|]. auto.
    + destruct (IH i Hi) as (c & response' & toolCall & t & fn & w' & Hc & X).
      exists c, response', toolCall, t, fn, w'. split; [right; exact Hc|exact X].
Qed.

(** Every tool turn of a conversation of the run was there at the start or
    is the turn of an invocation of the run. *)
Lemma trace_tool_turn (messages : list Message) (new : list AiCall) (invs : list Invocation) :
  traced messages new invs ->
  forall c m,
    In c new -> In m (conversation c) -> Message.role m = Message.tool ->
    In m messages \/ exists i, In i invs /\ turn_of i = Returned m.
Proof.
  induction 1 as [messages r|messages e|messages response w e P
                 |messages response w turns rest invs P T IH];
    intros c m Hc Hm Hrole;
    try (destruct Hc as [<-|[]]; left; exact Hm).
  destruct Hc as [<-|Hc]; [left; exact Hm|].
  destruct (IH c m Hc Hm Hrole) as [Hin|(i & Hi & Ht)].
  - apply in_app_or in Hin. destruct Hin as [Hin|Hin]; [left; exact Hin|].
    destruct (@round_turns sched input_tools strictValidation (requested response) w turns P)
      as (_ & X).
    destruct (X m Hin Hrole) as (i & Hi & Ht).
    right. exists i. split; [apply in_or_app; left; exact Hi|exact Ht].
  - right. exists i. split; [apply in_or_app; right; exact Hi|exact Ht].
Qed.

(** *** The first round *)

Lemma throw_rejects (tool_calls : list ToolCall) :
  forall w toolCall t e,
    In toolCall tool_calls ->
    verdict input_tools strictValidation toolCall = Throws t e ->
    exists e',
      first_rejection (pendings (started input_tools strictValidation tool_calls w)) = Some e'.
Proof.
  induction tool_calls as [|c rest IH]; intros w toolCall t e; [intros []|].
  intros [->|Hin] V; cbn [started].
  - rewrite V. cbn. eauto.
  - destruct (verdict input_tools strictValidation c); cbn [pendings first_rejection]; eauto.
Qed.

(** The first callback that throws as it starts is the one [Promise.all]
    rejects with. *)
Lemma first_throw_rejects (before after : list ToolCall) (toolCall : ToolCall) (t : Tool)
    (e : string) :
  Forall (fun c => forall t' e', verdict input_tools strictValidation c <> Throws t' e')
    before ->
  verdict input_tools strictValidation toolCall = Throws t e ->
  forall w,
    first_rejection
      (pendings (started input_tools strictValidation (before ++ toolCall :: after) w))
    = Some e.
Proof.
  intros F V. induction F as [|c before Hc _ IH]; intros w; cbn [app started].
  - rewrite V. reflexivity.
  - destruct (verdict input_tools strictValidation c) as [|t'|t'|t' e'|t' fn] eqn:Vc;
      cbn [pendings first_rejection]; try apply IH.
    exfalso. exact (Hc t' e' eq_refl).
Qed.

(** A callback whose invoker rejected with [undefined] or [null] makes the
    round fail. *)
Lemma nothing_rejects (tool_calls : list ToolCall) (w : World) (toolCall : ToolCall)
    (t : Tool) (fn : json -> World -> settled string * World) :
  In toolCall tool_calls ->
  verdict input_tools strictValidation toolCall = Invoke t fn ->
  (forall w', fst (fn (ToolCall.arguments toolCall) w') = Thrown Undefined
              \/ fst (fn (ToolCall.arguments toolCall) w') = Thrown Null) ->
  exists e, pushed sched (started input_tools strictValidation tool_calls w) = Thrown e.
Proof.
  intros Hin V Hfn.
  destruct (pushed sched _) as [turns|e] eqn:P; [|eauto]. exfalso.
  destruct (@invoke_is_made input_tools strictValidation tool_calls w toolCall t fn Hin V)
    as (w' & Hw').
  destruct (@round_turns sched input_tools strictValidation tool_calls w turns P) as (X & _).
  destruct (X _ Hw') as (m & Hm & _). unfold turn_of in Hm. cbn [invoked_outcome] in Hm.
  destruct (Hfn w') as [E|E]; rewrite E in Hm; discriminate.
Qed.

Lemma continue_invocations (n : nat) (tcs : list ToolCall) (messages' : list Message)
    (s2 : St) :
  exists rest, invocations (snd (continue n tcs messages' s2)) = invocations s2 ++ rest.
Proof.
  assert (F : exists rest,
             invocations (snd (ai_run ai model (final_input messages') s2))
             = invocations s2 ++ rest).
  { destruct (ai_run_state ai model (final_input messages') s2) as (_ & I & _).
    exists []. rewrite app_nil_r. exact I. }
  destruct n as [|n]; [exact F|]. destruct tcs as [|c rest]; [exact F|].
  destruct (loop_shape sched ai model input_tools tools strictValidation streamFinalResponse
              n messages' s2) as (mid & _ & last & made_all & _ & _ & I & _).
  exists made_all. exact I.
Qed.

(** The invokers of the calls that the first response requests are called,
    whatever becomes of the run; if a callback of that round throws, the
    run stops there. *)
Lemma first_round (n : nat) (messages : list Message) (s : St)
    (response : AiTextGenerationOutput) :
  fst (ai model (round_input messages) (world s)) = Returned response ->
  let st := started input_tools strictValidation (requested response)
              (snd (ai model (round_input messages) (world s))) in
  exists rest,
    invocations (snd (loop n messages s)) = invocations s ++ made st ++ rest
    /\ forall e,
         pushed sched st = Thrown e ->
         fst (loop n messages s) = Thrown (Error ("Error in runAndProcessToolCall: " ++ e))
         /\ calls (snd (loop n messages s))
            = calls s ++ [{| call_model := model; call_input := round_input messages;
                             call_output := Returned response |}]
         /\ rest = [].
Proof.
  intros R st. rewrite loop_round.
  pose proof (round_then_cases (continue n) messages s) as C. cbv zeta in C.
  rewrite R in C. fold st in C.
  destruct (pushed sched st) as [turns|e].
  - destruct C as (s2 & _ & I2 & _ & _ & _ & _ & _ & Qi & _). cbv zeta in Qi.
    match type of Qi with
    | invocations _ = invocations (snd (continue n ?tcs ?messages' s2)) =>
        destruct (continue_invocations n tcs messages' s2) as (rest & Hrest)
    end.
    exists rest. rewrite Qi, Hrest, I2, <- app_assoc. split; [reflexivity|discriminate].
  - destruct C as (E & Cc & Ci & _). exists []. rewrite app_nil_r.
    split; [exact Ci|]. intros e' He. inversion He; subst e'. auto.
Qed.

(** *** The log of a round *)

Lemma discreet_toolCallCallback (toolCall : ToolCall) (messages : list Message) :
  discreet (toolCallCallback input_tools strictValidation toolCall messages).
Proof.
  unfold toolCallCallback. discreetly. apply discreet_validateArgsWithZod.
Qed.

Lemma discreet_start_all (tool_calls : list ToolCall) :
  forall messages, discreet (start_all input_tools strictValidation tool_calls messages).
Proof.
  induction tool_calls as [|c rest IH]; intros messages; cbn [start_all]; discreetly.
  - apply discreet_toolCallCallback.
  - apply IH.
Qed.

Lemma discreet_resume_all (ps : list (Tool * settled string)) :
  forall messages, discreet (resume_all ps messages).
Proof.
  induction ps as [|p rest IH]; intros messages; cbn [resume_all]; [discreetly|].
  apply discreet_bind; [unfold resume; discreetly|intros messages'; apply IH].
Qed.

Lemma discreet_dispatch (tool_calls : list ToolCall) (messages : list Message) :
  discreet (dispatch sched input_tools strictValidation tool_calls messages).
Proof.
  unfold dispatch. apply discreet_bind; [apply discreet_start_all|].
  intros started. unfold Promise_all.
  destruct (first_rejection (snd started)); [discreetly|].
  intros s. apply discreet_resume_all.
Qed.

(** The loop leaves the logging switch as it is, and logs nothing when
    logging is off. *)
Lemma discreet_loop (n : nat) : forall messages, discreet (loop n messages).
Proof.
  induction n as [|n IH]; intros messages; rewrite loop_round;
    unfold round_then; discreetly; try apply discreet_dispatch;
    unfold continue; discreetly; apply IH.
Qed.

End Rounds.

Lemma discreet_autoTrimTools (tools : list Tool) (ai : Ai) (model : string)
    (messages : list Message) :
  discreet (autoTrimTools tools ai model messages).
Proof. unfold autoTrimTools. discreetly. Qed.

(* ------------------------------------------------------------------------- *)
(** ** More on the entry point *)

Lemma turn_of_name (i : Invocation) (m : Message) :
  turn_of i = Returned m ->
  Message.name m = Some (invoked_tool i) /\ Message.role m = Message.tool.
Proof.
  unfold turn_of. destruct (invoked_outcome i) as [r|error].
  - intros H. inversion H. split; reflexivity.
  - destruct (message_of error); cbn; intros H; inversion H. split; reflexivity.
Qed.

(** The verdict on a call whose descriptor has an invoker and parameters,
    and whose arguments the validator accepts when it is asked. *)
Lemma verdict_of_selected (input_tools : list Tool) (strictValidation : bool)
    (toolCall : ToolCall) (t : Tool) fn (parameters : json) :
  find (fun tool => String.eqb (Tool.name tool) (ToolCall.name toolCall)) input_tools = Some t ->
  Tool.function t = Some fn ->
  Tool.parameters t = Some parameters ->
  (strictValidation = true ->
   validation parameters (ToolCall.arguments toolCall) = Returned true) ->
  verdict input_tools strictValidation toolCall = Invoke t fn.
Proof.
  intros F Hf Hp Hv. unfold verdict. rewrite F, Hf, Hp.
  destruct strictValidation; [rewrite Hv by reflexivity|]; reflexivity.
Qed.

(** An invocation under the name of a descriptor is one of its invoker. *)
Lemma invoked_name_selected (input_tools : list Tool) (strictValidation : bool)
    (toolCall toolCall' : ToolCall) (t t' : Tool) fn :
  find (fun tool => String.eqb (Tool.name tool) (ToolCall.name toolCall)) input_tools = Some t ->
  verdict input_tools strictValidation toolCall' = Invoke t' fn ->
  Tool.name t' = Tool.name t ->
  t' = t /\ Tool.function t = Some fn /\ Tool.parameters t <> None.
Proof.
  intros F V Hn.
  destruct (@verdict_selected input_tools strictValidation toolCall' t') as (F' & _ & Hn');
    [left; eauto|].
  destruct (find_some _ _ F) as (_ & Heq). apply String.eqb_eq in Heq.
  assert (Hsame : ToolCall.name toolCall' = ToolCall.name toolCall) by congruence.
  unfold verdict in V. rewrite Hsame in F', V. rewrite F in F', V. inversion F'; subst t'.
  split; [reflexivity|].
  destruct (Tool.function t) as [fn'|]; [|discriminate].
  destruct (Tool.parameters t); [|discriminate].
  split; [|discriminate].
  destruct strictValidation; [destruct (validation _ _) as [[|]|]|]; congruence.
Qed.

(** What [validateArgsWithZod] returns on the properties of a descriptor. *)
Lemma validation_of_validator (parameters args : json) (properties : option json) (s0 : St)
    (b : bool) :
  prop parameters "properties" = Returned properties ->
  fst (validateArgsWithZod args properties s0) = Returned b ->
  validation parameters args = Returned b.
Proof.
  intros Hp Hv. unfold validation. rewrite Hp. cbn [result_bind].
  rewrite <- (validateArgsWithZod_result args properties s0). exact Hv.
Qed.



Section Running.

Variable sched : Scheduler.
Variable ai : Ai.
Variable model : string.
Variable input : Input.
Variable config : Config.

Let strict := default false (strictValidation config).
Let streaming := default false (streamFinalResponse config).
Let N := Z.to_nat (default 0%Z (maxRecursiveToolRuns config)).

(** What a run logs once the descriptors are chosen is a trace of the loop. *)
Lemma run_trace (s : St) (chosenTools : list Tool) (s1 : St) :
  selection ai model input config s = (Returned chosenTools, s1) ->
  exists new invs,
    calls (snd (runWithTools sched ai model input config s)) = calls s1 ++ new
    /\ invocations (snd (runWithTools sched ai model input config s)) = invocations s1 ++ invs
    /\ trace sched model (Input.tools input) (map offer chosenTools) strict streaming
         (Input.messages input) new invs.
Proof.
  intros Hsel.
  destruct (runWithTools_loop sched ai model input config s Hsel) as (s' & E & _ & Qc & Qi & _).
  rewrite E. cbn [snd]. rewrite Qc, Qi.
  exact (loop_trace sched ai model (Input.tools input) (map offer chosenTools) strict
           streaming N (Input.messages input) s1).
Qed.

(** C3 (corrected: the descriptor needs its parameters as well as its
    invoker).  In a run, take any model call that offered tools and was
    answered, and any tool call that the answer requests whose name selects
    the descriptor [t].  If [t] has an invoker and parameters and, under
    strict validation, [validateArgsWithZod] returns true on the arguments,
    then the run calls that invoker with the arguments of the request, and
    when the invoker fulfils, every later model call of the run is made on
    a conversation that holds the tool turn with the serialized result
    under the name of [t]; there is a later call when no callback of a
    round throws.  If [t] lacks its invoker or its parameters, then no
    invoker is called under the name of [t] in the whole run, no
    conversation of the run gets a tool turn under that name, and the
    callback logs that the function is undefined and returns. *)
Theorem tool_call_dispatch (s : St) (chosenTools : list Tool) (s1 : St)
    (before after : list AiCall) (c : AiCall) (response : AiTextGenerationOutput)
    (toolCall : ToolCall) (t : Tool) :
  selection ai model input config s = (Returned chosenTools, s1) ->
  let out := runWithTools sched ai model input config s in
  calls (snd out) = calls s1 ++ before ++ c :: after ->
  AiInput.tools (call_input c) <> None ->
  call_output c = Returned response ->
  In toolCall (requested response) ->
  find (fun tool => String.eqb (Tool.name tool) (ToolCall.name toolCall)) (Input.tools input)
  = Some t ->
  exists new,
    invocations (snd out) = invocations s1 ++ new
    /\ (forall fn parameters,
          Tool.function t = Some fn ->
          Tool.parameters t = Some parameters ->
          (default false (strictValidation config) = true ->
           exists properties,
             prop parameters "properties" = Returned properties
             /\ fst (validateArgsWithZod (ToolCall.arguments toolCall) properties s)
                = Returned true) ->
          exists w,
            In {| invoked_tool := Tool.name t;
                  invoked_args := ToolCall.arguments toolCall;
                  invoked_outcome := fst (fn (ToolCall.arguments toolCall) w) |} new
            /\ (forall result c',
                  fst (fn (ToolCall.arguments toolCall) w) = Returned result ->
                  In c' after ->
                  In {| Message.role := Message.tool;
                        Message.content := JSON_stringify Number_toString (JStr result);
                        Message.name := Some (Tool.name t) |} (conversation c'))
            /\ (schemas_build (default false (strictValidation config)) (Input.tools input) ->
                rejections_readable (Input.tools input) ->
                after <> []))
    /\ (Tool.function t = None \/ Tool.parameters t = None ->
        (forall i, In i new -> invoked_tool i <> Tool.name t)
        /\ (forall c' m,
              In c' (before ++ c :: after) -> In m (conversation c') ->
              Message.role m = Message.tool -> Message.name m = Some (Tool.name t) ->
              In m (Input.messages input))
        /\ forall messages s0,
             toolCallCallback (Input.tools input) (default false (strictValidation config))
               toolCall messages s0
             = (Returned (messages ++ [assistant_turn toolCall], Done),
                snd (Logger_error
                       ("Function for tool " ++ ToolCall.name toolCall ++ " is undefined")
                       s0))).
Proof.
  intros Hsel out Hcalls Htools Hout Hin Hfind.
  destruct (run_trace s Hsel) as (new & invs & Hc & Hi & T).
  unfold out in *. rewrite Hc in Hcalls. apply app_inv_head in Hcalls.
  exists invs. split; [exact Hi|]. fold strict. split.
  - intros fn parameters Hf Hp Hv.
    assert (V : verdict (Input.tools input) strict toolCall = Invoke t fn).
    { apply verdict_of_selected with (parameters := parameters); try assumption.
      intros Hs. destruct (Hv Hs) as (properties & Hprop & Hval).
      exact (@validation_of_validator _ _ _ _ _ Hprop Hval). }
    destruct (@trace_round_of _ _ _ _ _ _ _ _ _ T _ _ _ _ Hcalls Htools Hout)
      as (w0 & ipre & ipost & Hinv & X).
    cbv zeta in Hinv, X.
    destruct (@invoke_is_made (Input.tools input) strict (requested response) w0 toolCall t fn
                Hin V) as (w & Hw).
    exists w. split; [rewrite Hinv; apply in_or_app; right; apply in_or_app; left; exact Hw|].
    split.
    + intros result c' Hres Hc'.
      destruct (pushed sched _) as [turns|e] eqn:P; [|subst after; destruct Hc'].
      destruct X as (c0 & after' & -> & Hc0 & F).
      destruct (@round_turns sched (Input.tools input) strict (requested response) w0 turns P)
        as (R & _).
      destruct (R _ Hw) as (m & Hm & Hmin).
      unfold turn_of in Hm. cbn [invoked_outcome invoked_tool] in Hm. rewrite Hres in Hm.
      inversion Hm; subst m.
      assert (H0 : In {| Message.role := Message.tool;
                         Message.content := JSON_stringify Number_toString (JStr result);
                         Message.name := Some (Tool.name t) |} (conversation c0)).
      { rewrite Hc0. apply in_or_app. right. exact Hmin. }
      destruct Hc' as [<-|Hc']; [exact H0|].
      rewrite Forall_forall in F. destruct (F c' Hc') as (extra & ->).
      apply in_or_app. left. exact H0.
    + intros Hb Hr.
      destruct (@pushed_Returned sched (Input.tools input) strict (requested response) w0
                  Hb Hr) as (turns & P).
      rewrite P in X. destruct X as (c0 & after' & -> & _). discriminate.
  - intros Hnone.
    assert (Hno : forall i, In i invs -> invoked_tool i <> Tool.name t).
    { intros i Hin' Heq.
      destruct (@trace_invocation _ _ _ _ _ _ _ _ _ T i Hin')
        as (c' & response' & toolCall' & t' & fn' & w' & _ & _ & _ & V' & ->).
      cbn [invoked_tool] in Heq.
      destruct (@invoked_name_selected _ _ _ _ _ _ _ Hfind V' Heq) as (_ & Hf & Hp).
      destruct Hnone; congruence. }
    split; [exact Hno|]. split.
    + intros c' m Hc' Hm Hrole Hname. rewrite <- Hcalls in Hc'.
      destruct (@trace_tool_turn _ _ _ _ _ _ _ _ _ T c' m Hc' Hm Hrole)
        as [Hold|(i & Hi' & Ht)]; [exact Hold|].
      exfalso. destruct (@turn_of_name _ _ Ht) as (Hn & _).
      apply (Hno i Hi'). congruence.
    + intros messages s0. apply callback_no_function with (t := t); assumption.
Qed.


(** C5 (the code departs from the claim).  An invoker that rejects with
    [undefined] or [null] aborts the run: the catch clause around
    [await fn(args)] reads [message] off what was rejected, that read
    throws a [TypeError], [Promise.all] rejects, and the run throws to its
    caller, having made the first model call only; the final call is not
    made.  Here strict validation is off, the first response requests a
    call that selects a descriptor with an invoker and parameters, and
    that invoker rejects with [undefined] or [null]. *)
Theorem invoker_rejecting_with_nothing_aborts (s : St) (chosenTools : list Tool) (s1 : St)
    (response : AiTextGenerationOutput) (toolCall : ToolCall) (t : Tool)
    (fn : json -> World -> settled string * World) (parameters : json) :
  selection ai model input config s = (Returned chosenTools, s1) ->
  let first := {| AiInput.messages := Input.messages input; AiInput.stream := false;
                  AiInput.tools := Some (map offer chosenTools) |} in
  fst (ai model first (world s1)) = Returned response ->
  In toolCall (requested response) ->
  find (fun tool => String.eqb (Tool.name tool) (ToolCall.name toolCall)) (Input.tools input)
  = Some t ->
  Tool.function t = Some fn ->
  Tool.parameters t = Some parameters ->
  default false (strictValidation config) = false ->
  (forall w, fst (fn (ToolCall.arguments toolCall) w) = Thrown Undefined
             \/ fst (fn (ToolCall.arguments toolCall) w) = Thrown Null) ->
  exists message new w,
    fst (runWithTools sched ai model input config s)
    = Thrown (Error ("Error in runWithTools: Error in runAndProcessToolCall: " ++ message))
    /\ (message = "Cannot read properties of undefined (reading 'message')"
        \/ message = "Cannot read properties of null (reading 'message')")
    /\ calls (snd (runWithTools sched ai model input config s))
       = calls s1 ++ [{| call_model := model; call_input := first;
                         call_output := Returned response |}]
    /\ invocations (snd (runWithTools sched ai model input config s)) = invocations s1 ++ new
    /\ In {| invoked_tool := Tool.name t;
             invoked_args := ToolCall.arguments toolCall;
             invoked_outcome := fst (fn (ToolCall.arguments toolCall) w) |} new.
Proof.
  intros Hsel first Hai Hin Hfind Hf Hp Hs Hfn.
  destruct (runWithTools_loop sched ai model input config s Hsel) as (s' & E & _ & Qc & Qi & _).
  rewrite E. cbn [fst snd]. rewrite Qc, Qi. fold strict streaming N. fold strict in Hs.
  destruct (first_round sched ai model (Input.tools input) (map offer chosenTools) strict
              streaming N (Input.messages input) s1 Hai) as (rest & I & X).
  cbv zeta in I, X.
  assert (V : verdict (Input.tools input) strict toolCall = Invoke t fn).
  { unfold verdict. rewrite Hfind, Hf, Hp, Hs. reflexivity. }
  destruct (@nothing_rejects sched (Input.tools input) strict (requested response)
              (snd (ai model first (world s1))) toolCall t fn Hin V Hfn) as (e & P).
  destruct (X e P) as (R & C & ->). rewrite app_nil_r in I.
  destruct (@invoke_is_made (Input.tools input) strict (requested response)
              (snd (ai model first (world s1))) toolCall t fn Hin V) as (w & Hw).
  exists e. eexists. exists w. rewrite R. cbn [wrapped message_of].
  split; [reflexivity|]. split; [|split; [exact C|split; [exact I|exact Hw]]].
  destruct (@pushed_Thrown sched (Input.tools input) strict (requested response)
              (snd (ai model first (world s1))) e P)
    as (toolCall' & t' & _ & [V'|(fn' & w' & error & _ & _ & Hm)]).
  - exfalso. unfold verdict in V'. rewrite Hs in V'.
    repeat match type of V' with
           | context [match ?x with _ => _ end] => destruct x
           end; discriminate.
  - destruct error; cbn in Hm; inversion Hm; auto.
Qed.

(** X1.  An error that leaves the loop of a run comes from the last model
    call made: it is what that call rejected with; or the error met while
    building the schema for a tool call that its response requested; or
    the [TypeError] of reading [message] off [undefined] or [null] that the
    invoker of such a tool call rejected with.  Every level of the
    recursion it crossed, which are at most [maxRecursiveToolRuns + 1], has
    caught it and thrown [Error in runAndProcessToolCall: ] followed by its
    message, and [runWithTools] has done the same with its own prefix; a
    level that catches [undefined] or [null] throws the [TypeError] of the
    read instead. *)
Theorem error_wrapped_per_level (s : St) (chosenTools : list Tool) (s1 : St) (e : thrown) :
  selection ai model input config s = (Returned chosenTools, s1) ->
  fst (runWithTools sched ai model input config s) = Thrown e ->
  exists depth e0 new c,
    depth <= Z.to_nat (default 0%Z (maxRecursiveToolRuns config))
    /\ e = wrapped "Error in runWithTools: " (rethrown (S depth) e0)
    /\ calls (snd (runWithTools sched ai model input config s)) = calls s1 ++ new ++ [c]
    /\ (call_output c = Thrown e0
        \/ exists response toolCall t,
             call_output c = Returned response
             /\ In toolCall (requested response)
             /\ ((exists message,
                    verdict (Input.tools input) (default false (strictValidation config))
                      toolCall = Throws t message
                    /\ e0 = Error message)
                 \/ exists fn w error message,
                      verdict (Input.tools input) (default false (strictValidation config))
                        toolCall = Invoke t fn
                      /\ fst (fn (ToolCall.arguments toolCall) w) = Thrown error
                      /\ message_of error = Thrown message
                      /\ e0 = Error message)).
Proof.
  intros Hsel H.
  destruct (runWithTools_loop sched ai model input config s Hsel) as (s' & E & _ & Qc & _).
  rewrite E in H |- *. cbn [fst snd] in H |- *. rewrite Qc.
  fold strict streaming N in H |- *.
  destruct (fst (runAndProcessToolCall sched ai model (Input.tools input) (map offer chosenTools)
                   strict streaming N (Input.messages input) s1)) as [o|e1] eqn:R;
    [discriminate|].
  inversion H; subst e.
  destruct (loop_throws sched ai model (Input.tools input) (map offer chosenTools) strict
              streaming N (Input.messages input) s1 R)
    as (depth & e0 & new & c & Hd & -> & Hc & Ho).
  exists depth, e0, new, c. auto.
Qed.

(** X2.  An error of the trim function is not wrapped: when [autoTrimTools]
    is the trim function, is given five descriptors or more, and its model
    call fails, the run throws that very error, without any prefix, having
    made this one model call and called no invoker. *)
Theorem trim_failure_not_wrapped (s : St) (e : thrown) :
  trimFunction config = Some autoTrimTools ->
  5 <= length (Input.tools input) ->
  let choose_input :=
    {| AiInput.messages :=
         [{| Message.role := Message.user;
             Message.content := toolsPrompt (Input.tools input) (Input.messages input);
             Message.name := None |}];
       AiInput.stream := false;
       AiInput.tools :=
         Some [{| ToolInput.type := "function"; ToolInput.function := chooseTools |}] |} in
  fst (ai model choose_input (world s)) = Thrown e ->
  fst (runWithTools sched ai model input config s) = Thrown e
  /\ calls (snd (runWithTools sched ai model input config s))
     = calls s ++ [{| call_model := model; call_input := choose_input;
                      call_output := Thrown e |}]
  /\ invocations (snd (runWithTools sched ai model input config s)) = invocations s.
Proof.
  intros Ht Hlen choose_input Hai.
  assert (Hs0 : exists s0,
             errors (if default false (verbose config) then Logger_enableLogging else ret tt) s
             = (Returned tt, s0)
             /\ world s0 = world s /\ calls s0 = calls s /\ invocations s0 = invocations s).
  { rewrite errors_spec.
    destruct (default false (verbose config)); eexists; (split; [reflexivity|]); auto. }
  destruct Hs0 as (s0 & E0 & W0 & C0 & I0).
  destruct (autoTrimTools_large ai model (Input.tools input) (Input.messages input) s0 Hlen)
    as (C & R).
  fold choose_input in C, R. rewrite W0, Hai in C, R.
  destruct (ai_run_state ai model choose_input s0) as (_ & I & _).
  assert (Hi : invocations (snd (autoTrimTools (Input.tools input) ai model
                                   (Input.messages input) s0)) = invocations s0).
  { unfold autoTrimTools. destruct (Nat.ltb_spec (length (Input.tools input)) 5); [lia|].
    fold choose_input. rewrite bind_ai_run, W0, Hai. exact I. }
  assert (Hsel : selection ai model input config s
                 = (Thrown e, snd (autoTrimTools (Input.tools input) ai model
                                     (Input.messages input) s0))).
  { unfold selection, bind at 1. rewrite E0, Ht. cbn [default].
    destruct (autoTrimTools (Input.tools input) ai model (Input.messages input) s0) as [r s1].
    cbn [fst snd] in *. rewrite R. reflexivity. }
  rewrite (runWithTools_selection_throws sched ai model input config s Hsel). cbn [fst snd].
  split; [reflexivity|]. split; congruence.
Qed.

Lemma run_hushed (s : St) :
  trimFunction config = None \/ trimFunction config = Some autoTrimTools ->
  hushed (snd ((if default false (verbose config) then Logger_enableLogging else ret tt) s))
    (snd (runWithTools sched ai model input config s)).
Proof.
  intros Ht.
  assert (Hs0 : exists s0,
             (if default false (verbose config) then Logger_enableLogging else ret tt) s
             = (Returned tt, s0)).
  { destruct (default false (verbose config)); eexists; reflexivity. }
  destruct Hs0 as (s0 & E0). rewrite E0. cbn [snd].
  unfold runWithTools, bind at 1. rewrite errors_spec, E0. cbn [fst snd raised].
  match goal with
  | |- hushed s0 (snd (?rest s0)) => assert (D : discreet rest); [|apply D]
  end.
  discreetly.
  - destruct Ht as [->| ->]; cbn [default]; [discreetly|apply discreet_autoTrimTools].
  - apply discreet_loop.
Qed.

(** X3.  The logging switch is global and is only ever turned on: after a
    run (with the default trim function or [autoTrimTools]) logging is on
    if [verbose] was set or if it was on before; a run without [verbose]
    does not turn it off. *)
Theorem logging_stays_on (s : St) :
  trimFunction config = None \/ trimFunction config = Some autoTrimTools ->
  enabled (snd (runWithTools sched ai model input config s))
  = (default false (verbose config) || enabled s)%bool.
Proof.
  intros Ht. destruct (run_hushed s Ht) as (E & _). rewrite E.
  destruct (default false (verbose config)); reflexivity.
Qed.

(** X4.  With logging off and [verbose] not set, a run (with the default
    trim function or [autoTrimTools]) writes nothing to the console,
    whatever goes wrong in it. *)
Theorem silent_when_logging_is_off (s : St) :
  trimFunction config = None \/ trimFunction config = Some autoTrimTools ->
  default false (verbose config) = false ->
  enabled s = false ->
  console (snd (runWithTools sched ai model input config s)) = console s.
Proof.
  intros Ht Hv He. destruct (run_hushed s Ht) as (_ & C).
  rewrite Hv in C. apply C. exact He.
Qed.

(** X5.  The model calls of a run are made on a conversation that only
    grows: the first call is made on the conversation of the input, with
    the offers built from what the trim function chose; every later call is
    made on the conversation of the call before it with assistant and tool
    turns pushed at its end.  Every call names the model of the run; a call
    that offers tools offers that same list and never streams, and a call
    without tools streams if [streamFinalResponse] says so. *)
Theorem conversation_only_grows (s : St) (chosenTools : list Tool) (s1 : St) :
  selection ai model input config s = (Returned chosenTools, s1) ->
  exists c1 new,
    calls (snd (runWithTools sched ai model input config s)) = calls s1 ++ c1 :: new
    /\ call_input c1 = {| AiInput.messages := Input.messages input; AiInput.stream := false;
                          AiInput.tools := Some (map offer chosenTools) |}
    /\ StronglySorted (fun a b => grown (conversation a) (conversation b)) (c1 :: new)
    /\ Forall (fun c =>
                 grown (Input.messages input) (conversation c)
                 /\ call_model c = model
                 /\ (AiInput.tools (call_input c) = Some (map offer chosenTools)
                     /\ AiInput.stream (call_input c) = false
                     \/ AiInput.tools (call_input c) = None
                        /\ AiInput.stream (call_input c)
                           = default false (streamFinalResponse config)))
         (c1 :: new).
Proof.
  intros Hsel.
  destruct (runWithTools_loop sched ai model input config s Hsel) as (s' & E & _ & Qc & _).
  rewrite E. cbn [snd]. rewrite Qc.
  exact (loop_conversations sched ai model (Input.tools input) (map offer chosenTools) strict
           streaming N (Input.messages input) s1).
Qed.

(** X7.  Under strict validation, a requested tool call whose schema
    cannot be built fails the whole run: the run throws the error of the
    first such call of the response, behind the prefixes of
    [runAndProcessToolCall] and [runWithTools]; the final model call is not
    made; and the invokers of the other calls of that response, those
    before it and those after it, have been called all the same. *)
Theorem schema_failure_aborts_run (s : St) (chosenTools : list Tool) (s1 : St)
    (response : AiTextGenerationOutput) (earlier later : list ToolCall)
    (toolCall : ToolCall) (t : Tool) (e0 : string) :
  selection ai model input config s = (Returned chosenTools, s1) ->
  let first := {| AiInput.messages := Input.messages input; AiInput.stream := false;
                  AiInput.tools := Some (map offer chosenTools) |} in
  fst (ai model first (world s1)) = Returned response ->
  requested response = earlier ++ toolCall :: later ->
  Forall (fun c => forall t' e',
            verdict (Input.tools input) (default false (strictValidation config)) c
            <> Throws t' e') earlier ->
  verdict (Input.tools input) (default false (strictValidation config)) toolCall = Throws t e0 ->
  exists new,
    fst (runWithTools sched ai model input config s)
    = Thrown (Error ("Error in runWithTools: Error in runAndProcessToolCall: " ++ e0))
    /\ calls (snd (runWithTools sched ai model input config s))
       = calls s1 ++ [{| call_model := model; call_input := first;
                         call_output := Returned response |}]
    /\ invocations (snd (runWithTools sched ai model input config s)) = invocations s1 ++ new
    /\ length new
       = length (filter (to_invoke (Input.tools input)
                           (default false (strictValidation config)))
                   (requested response))
    /\ forall toolCall' t' fn,
         In toolCall' (requested response) ->
         verdict (Input.tools input) (default false (strictValidation config)) toolCall'
         = Invoke t' fn ->
         exists w,
           In {| invoked_tool := Tool.name t';
                 invoked_args := ToolCall.arguments toolCall';
                 invoked_outcome := fst (fn (ToolCall.arguments toolCall') w) |} new.
Proof.
  intros Hsel first Hai Hreq Hearlier V.
  destruct (runWithTools_loop sched ai model input config s Hsel) as (s' & E & _ & Qc & Qi & _).
  rewrite E. cbn [fst snd]. rewrite Qc, Qi. fold strict streaming N. fold strict in Hearlier, V.
  destruct (first_round sched ai model (Input.tools input) (map offer chosenTools) strict
              streaming N (Input.messages input) s1 Hai) as (rest & I & X).
  cbv zeta in I, X.
  assert (P : pushed sched (started (Input.tools input) strict (requested response)
                              (snd (ai model first (world s1)))) = Thrown e0).
  { unfold pushed. rewrite Hreq.
    rewrite (@first_throw_rejects (Input.tools input) strict earlier later toolCall t e0
               Hearlier V). reflexivity. }
  destruct (X e0 P) as (R & C & ->). rewrite app_nil_r in I.
  eexists. rewrite R. cbn [wrapped message_of].
  split; [reflexivity|]. split; [exact C|]. split; [exact I|].
  split; [apply made_length|].
  intros toolCall' t' fn Hin' V'.
  exact (@invoke_is_made (Input.tools input) strict (requested response)
           (snd (ai model first (world s1))) toolCall' t' fn Hin' V').
Qed.

(** X8.  Trimming narrows what the model is offered, not what it may call:
    a tool call of the first response is looked up among all the
    descriptors of the input, and the invoker of the one it selects is
    called, whether the trim function chose that descriptor or not. *)
Theorem trimmed_tool_still_dispatched (s : St) (chosenTools : list Tool) (s1 : St)
    (response : AiTextGenerationOutput) (toolCall : ToolCall) (t : Tool)
    (fn : json -> World -> settled string * World) :
  selection ai model input config s = (Returned chosenTools, s1) ->
  fst (ai model {| AiInput.messages := Input.messages input; AiInput.stream := false;
                   AiInput.tools := Some (map offer chosenTools) |} (world s1))
  = Returned response ->
  In toolCall (requested response) ->
  verdict (Input.tools input) (default false (strictValidation config)) toolCall = Invoke t fn ->
  exists new w,
    invocations (snd (runWithTools sched ai model input config s)) = invocations s1 ++ new
    /\ In {| invoked_tool := Tool.name t;
             invoked_args := ToolCall.arguments toolCall;
             invoked_outcome := fst (fn (ToolCall.arguments toolCall) w) |} new.
Proof.
  intros Hsel Hai Hin V.
  destruct (runWithTools_loop sched ai model input config s Hsel) as (s' & E & _ & _ & Qi & _).
  rewrite E. cbn [snd]. rewrite Qi. fold strict streaming N.
  destruct (first_round sched ai model (Input.tools input) (map offer chosenTools) strict
              streaming N (Input.messages input) s1 Hai) as (rest & I & _).
  cbv zeta in I.
  destruct (invoke_is_made (Input.tools input) strict (requested response)
              (snd (ai model {| AiInput.messages := Input.messages input;
                                AiInput.stream := false;
                                AiInput.tools := Some (map offer chosenTools) |} (world s1)))
              toolCall Hin V) as (w & Hw).
  eexists. exists w. split; [exact I|]. apply in_or_app. left. exact Hw.
Qed.

End Running.

(* ------------------------------------------------------------------------- *)
(** ** More on the validator and the selector *)

Lemma assign_keys (A : Type) (key : string) (v : A) (fields : list (string * A)) (k : string) :
  In k (map fst (assign key v fields)) <-> k = key \/ In k (map fst fields).
Proof.
  induction fields as [|[k' w] rest IH]; cbn [assign map fst In].
  - intuition congruence.
  - destruct (String.eqb_spec key k') as [->|Hne]; cbn [map fst In].
    + intuition congruence.
    + rewrite IH. intuition congruence.
Qed.

Lemma set_property_keys (key : string) (z : ZodTypeAny) (prototype prototype' : option ZodTypeAny)
    (properties properties' : list (string * ZodTypeAny)) :
  set_property key z prototype properties = Returned (prototype', properties') ->
  forall k,
    In k (map fst properties')
    <-> (k = key /\ key <> "__proto__") \/ In k (map fst properties).
Proof.
  unfold set_property. destruct (String.eqb_spec key "__proto__") as [->|Hne].
  - intros H k. inversion H; subst. split; [auto|].
    intros [[_ Hc]|Hin]; [congruence|exact Hin].
  - intros H k.
    assert (E : properties' = assign key z properties).
    { destruct (lookup key properties), prototype as [p|];
        try destruct (Zod_getter p key); congruence. }
    subst properties'. rewrite assign_keys. intuition.
Qed.

(** The keys of the shape that the loop builds are the keys it visits,
    [__proto__] apart. *)
Lemma convert_fields_keys (convert : json -> result ZodTypeAny) (fields : list (string * json)) :
  forall prototype properties shape,
    convert_fields convert fields prototype properties = Returned shape ->
    forall k,
      In k (map fst shape)
      <-> (In k (map fst fields) /\ k <> "__proto__") \/ In k (map fst properties).
Proof.
  induction fields as [|[key schema] rest IH]; intros prototype properties shape;
    cbn [convert_fields].
  - intros H k. inversion H; subst. cbn. tauto.
  - destruct (convert schema) as [z|e]; cbn [result_bind]; [|discriminate].
    destruct (set_property key z prototype properties) as [[prototype' properties']|e] eqn:S;
      cbn [result_bind fst snd]; [|discriminate].
    intros H k. rewrite (IH _ _ _ H k), (set_property_keys _ _ _ _ S k). cbn [map fst In].
    split.
    + intros [[Hin Hne]|[[-> Hne]|Hin]]; auto.
    + intros [[[<-|Hin] Hne]|Hin]; auto.
Qed.

Lemma zodSchema_of_keys (properties : option json) (shape : list (string * ZodTypeAny)) :
  zodSchema_of properties = Returned shape ->
  forall k,
    In k (map fst shape) <-> In k (map fst (for_in properties)) /\ k <> "__proto__".
Proof.
  intros H k. rewrite (convert_fields_keys _ _ _ _ H k). cbn. tauto.
Qed.

Lemma zod_refuses_undefined (z : ZodTypeAny) : zod_accepts z None = false.
Proof. destruct z; reflexivity. Qed.

Lemma forallb_agree (A : Type) (f g : A -> bool) (l : list A) :
  (forall x, In x l -> f x = g x) -> forallb f l = forallb g l.
Proof.
  induction l as [|x rest IH]; intros H; [reflexivity|]. cbn [forallb].
  rewrite (H x (or_introl eq_refl)), IH; [reflexivity|].
  intros y Hy. apply H. right. exact Hy.
Qed.

(** X9.  The schema built from [properties] demands arguments that are an
    object holding every declared property: arguments that are not an
    object ([null], an array, a string, ...) and arguments that lack a
    declared property are refused, whether the parameter schema lists that
    property as required or not (its [required] list is never read).  A
    property declared under the key [__proto__] is apart: the loop makes
    its schema the prototype of the shape instead of a property of it, and
    the shape has no such key. *)
Theorem every_declared_property_is_required (properties : option json)
    (shape : list (string * ZodTypeAny)) (s : St) :
  zodSchema_of properties = Returned shape ->
  (forall args,
      (forall fields, args <> JObj fields) ->
      fst (validateArgsWithZod args properties s) = Returned false)
  /\ (forall args key,
         In key (map fst (for_in properties)) ->
         key <> "__proto__" ->
         lookup key args = None ->
         fst (validateArgsWithZod (JObj args) properties s) = Returned false)
  /\ (forall parameters args key,
         lookup "properties" parameters = properties ->
         In key (map fst (for_in properties)) ->
         key <> "__proto__" ->
         lookup key args = None ->
         validation (JObj parameters) (JObj args) = Returned false)
  /\ ~ In "__proto__" (map fst shape).
Proof.
  intros Hshape.
  assert (Hmiss : forall args key,
             In key (map fst (for_in properties)) ->
             key <> "__proto__" ->
             lookup key args = None ->
             zod_accepts (ZodObject shape) (Some (JObj args)) = false).
  { intros args key Hkey Hne Hmiss.
    assert (Hk : In key (map fst shape)) by (apply (zodSchema_of_keys _ Hshape); auto).
    apply in_map_iff in Hk.
    destruct Hk as ([k z] & Hk & Hin). cbn [fst] in Hk. subst k.
    cbn [zod_accepts]. apply not_true_is_false. intros Hall.
    rewrite forallb_forall in Hall. specialize (Hall _ Hin). cbn beta iota in Hall.
    rewrite Hmiss, zod_refuses_undefined in Hall. discriminate. }
  split; [|split; [|split]].
  - intros args Hno. rewrite validateArgsWithZod_result, Hshape. cbn.
    destruct args; try reflexivity. exfalso. eapply Hno. reflexivity.
  - intros args key Hkey Hne Hl. rewrite validateArgsWithZod_result, Hshape.
    cbn [result_map result_bind].
    rewrite (Hmiss args key Hkey Hne Hl). reflexivity.
  - intros parameters args key Hp Hkey Hne Hl. unfold validation. cbn [prop result_bind].
    rewrite Hp, Hshape. cbn [result_map result_bind].
    rewrite (Hmiss args key Hkey Hne Hl). reflexivity.
  - intros Hin. apply (zodSchema_of_keys _ Hshape) in Hin. destruct Hin as (_ & Hne).
    apply Hne. reflexivity.
Qed.

(** X10.  Arguments that the schema does not declare are not looked at: two
    argument objects that agree on the declared properties are validated
    alike. *)
Theorem undeclared_arguments_ignored (properties : option json)
    (args1 args2 : list (string * json)) (s : St) :
  (forall key, In key (map fst (for_in properties)) -> lookup key args1 = lookup key args2) ->
  fst (validateArgsWithZod (JObj args1) properties s)
  = fst (validateArgsWithZod (JObj args2) properties s).
Proof.
  intros Hagree. rewrite !validateArgsWithZod_result.
  destruct (zodSchema_of properties) as [shape|e] eqn:Hshape; [|reflexivity].
  cbn [result_map result_bind zod_accepts]. f_equal.
  apply forallb_agree. intros [k z] Hin. rewrite Hagree; [reflexivity|].
  apply (zodSchema_of_keys _ Hshape). apply in_map_iff. exists (k, z). auto.
Qed.

(** X11.  Of a parameter schema, the conversion reads [type], [items] and
    [properties] and nothing else: two schemas that agree on these three
    convert alike, so that [enum], [format], [minimum], [pattern],
    [required] and the like never bear on validation. *)
Theorem other_schema_keywords_ignored (fields fields' : list (string * json)) :
  lookup "type" fields = lookup "type" fields' ->
  lookup "items" fields = lookup "items" fields' ->
  lookup "properties" fields = lookup "properties" fields' ->
  convertToZodSchema (JObj fields) = convertToZodSchema (JObj fields').
Proof.
  intros Ht Hi Hp.
  destruct (lookup "type" fields) as [type|] eqn:E.
  - destruct type as [| | |type| |];
      try (cbn [convertToZodSchema]; rewrite <- Ht, E; reflexivity).
    destruct (String.eqb_spec type "array") as [->|Ha].
    { rewrite !convertToZodSchema_array by congruence. rewrite Hi. reflexivity. }
    destruct (String.eqb_spec type "object") as [->|Ho].
    { rewrite !convertToZodSchema_object by congruence. rewrite Hp. reflexivity. }
    apply String.eqb_neq in Ha, Ho.
    cbn [convertToZodSchema]. rewrite <- Ht, E, Ha, Ho. reflexivity.
  - cbn [convertToZodSchema]. rewrite <- Ht, E. reflexivity.
Qed.

(** X12.  Whenever the selector returns, it returns the candidates
    filtered by their names: it adds, alters, duplicates and reorders
    nothing, and descriptors of one name stay or go together. *)
Theorem autoTrimTools_filters_by_name (tools : list Tool) (ai : Ai) (model : string)
    (messages : list Message) (s : St) (chosen : list Tool) :
  fst (autoTrimTools tools ai model messages s) = Returned chosen ->
  exists keep : string -> bool,
    chosen = filter (fun tool => keep (Tool.name tool)) tools.
Proof.
  intros H.
  assert (Hall : exists keep : string -> bool,
             tools = filter (fun tool => keep (Tool.name tool)) tools).
  { exists (fun _ => true). symmetry. apply forallb_filter_id.
    apply forallb_forall. reflexivity. }
  destruct (Nat.le_gt_cases 5 (length tools)) as [Hlen|Hlen].
  - destruct (autoTrimTools_large ai model tools messages s Hlen) as (_ & E).
    rewrite E in H. clear E.
    destruct (fst (ai model _ (world s))) as [toolsResponse|e]; [|discriminate].
    destruct (requested toolsResponse) as [|first rest].
    { inversion H; subst. exact Hall. }
    destruct (prop (ToolCall.arguments first) "tools") as [[[| | | |names|]|]|e];
      try discriminate; inversion H; subst; try exact Hall.
    exists (includes names). reflexivity.
  - rewrite autoTrimTools_small in H by lia. inversion H; subst. exact Hall.
Qed.


(* ------------------------------------------------------------------------- *)
(** ** References into the document *)

Lemma split_slashless (s : string) : slashless s = true -> split "/" s = [s].
Proof.
  induction s as [|c rest IH]; [reflexivity|].
  unfold slashless. cbn [list_ascii_of_string forallb split].
  intros H. apply andb_prop in H. destruct H as [Hc Hr].
  apply negb_true_iff in Hc. rewrite Hc. fold (slashless rest) in Hr.
  rewrite (IH Hr). reflexivity.
Qed.

Lemma split_append (s t : string) :
  slashless s = true -> split "/" (s ++ String "/" t) = s :: split "/" t.
Proof.
  induction s as [|c rest IH]; [reflexivity|].
  unfold slashless. cbn [list_ascii_of_string forallb split append].
  intros H. apply andb_prop in H. destruct H as [Hc Hr].
  apply negb_true_iff in Hc. rewrite Hc. fold (slashless rest) in Hr.
  rewrite (IH Hr). reflexivity.
Qed.

(** Splitting at the slashes undoes joining with slashes. *)
Lemma split_join (path : list string) :
  path <> [] -> forallb slashless path = true -> split "/" (join "/" path) = path.
Proof.
  induction path as [|s rest IH]; [congruence|]. intros _ H.
  cbn [forallb] in H. apply andb_prop in H. destruct H as [Hs Hr].
  destruct rest as [|t rest'].
  - cbn [join]. apply split_slashless. exact Hs.
  - change (join "/" (s :: t :: rest')) with (s ++ String "/" (join "/" (t :: rest')))%string.
    rewrite (@split_append s _ Hs), IH; [reflexivity|discriminate|exact Hr].
Qed.

(** The reduction of [resolveReference] follows own properties. *)
Lemma descend_reduce (path : list string) :
  forall v0 v,
    descend path v0 = Some v ->
    fold_left
      (fun acc part =>
         outcome_bind acc
           (fun v => match v with
                     | Some j => if truthy j then member j part else Yields v
                     | None => Yields None
                     end))
      path (Yields (Some v0))
    = Yields (Some v).
Proof.
  induction path as [|key rest IH]; intros v0 v H; cbn [descend fold_left] in *.
  - inversion H; subst. reflexivity.
  - destruct v0 as [| | | | |fields]; try discriminate.
    destruct (lookup key fields) as [w|] eqn:L; [|discriminate].
    cbn [outcome_bind truthy member]. rewrite L. apply IH. exact H.
Qed.

(** X14.  A reference whose text, once a leading [#/] is cut, is
    [a/b/c] resolves to the value that the own properties [a], [b] and [c]
    lead to from the root of the document, as it is: if that value is itself
    a reference, it is not resolved further, and the segments are taken
    literally, whatever escapes they hold. *)
Theorem reference_follows_own_properties (ref : list (string * json)) (r : string)
    (path : list string) (openapiSpec v : json) :
  lookup "$ref" ref = Some (JStr r) ->
  r <> "" ->
  strip_fragment r = join "/" path ->
  path <> [] ->
  forallb slashless path = true ->
  descend path openapiSpec = Some v ->
  resolveReference (JObj ref) openapiSpec = Yields (Some v).
Proof.
  intros Href Hr Hstrip Hne Hs Hd. unfold resolveReference.
  cbn [prop of_result outcome_bind]. rewrite Href. cbn [truthy_opt truthy].
  apply String.eqb_neq in Hr. rewrite Hr. cbn [negb].
  rewrite Hstrip, (@split_join path Hne Hs). apply descend_reduce. exact Hd.
Qed.

Lemma fold_left_Raises (A B : Type) (f : A -> B -> outcome A) (l : list B) (e : string) :
  fold_left (fun acc x => outcome_bind acc (fun a => f a x)) l (Raises e) = Raises e.
Proof. induction l as [|x rest IH]; [reflexivity|exact IH]. Qed.

Lemma fold_left_Strays (A B : Type) (f : A -> B -> outcome A) (l : list B) :
  fold_left (fun acc x => outcome_bind acc (fun a => f a x)) l Strays = Strays.
Proof. induction l as [|x rest IH]; [reflexivity|exact IH]. Qed.

(** What a fold that yields has kept of an invariant of its steps. *)
Lemma fold_left_Yields (A B : Type) (f : A -> B -> outcome A) (P : A -> Prop) (l : list B) :
  (forall a x a', P a -> f a x = Yields a' -> P a') ->
  forall a0 a,
    P a0 ->
    fold_left (fun acc x => outcome_bind acc (fun a => f a x)) l (Yields a0) = Yields a ->
    P a.
Proof.
  intros Hstep. induction l as [|x rest IH]; intros a0 a H0 H; cbn [fold_left outcome_bind] in H.
  - inversion H; subst. exact H0.
  - destruct (f a0 x) as [a1|e|] eqn:F.
    + exact (IH a1 a (Hstep _ _ _ H0 F) H).
    + rewrite fold_left_Raises in H. discriminate.
    + rewrite fold_left_Strays in H. discriminate.
Qed.

(* ------------------------------------------------------------------------- *)
(** ** The parameters of an operation *)

Lemma lookup_In (A : Type) (key : string) (v : A) (fields : list (string * A)) :
  lookup key fields = Some v -> In (key, v) fields.
Proof.
  induction fields as [|[k w] rest IH]; [discriminate|]. cbn [lookup].
  destruct (String.eqb_spec key k) as [->|Hne].
  - intros H. inversion H; subst. left. reflexivity.
  - intros H. right. apply IH. exact H.
Qed.

Lemma lookup_define (A : Type) (key : string) (v : A) (fields : list (string * A)) :
  lookup key (define key v fields) = Some v.
Proof.
  induction fields as [|[k w] rest IH]; cbn [define lookup].
  - rewrite String.eqb_refl. reflexivity.
  - destruct (String.eqb key k) eqn:E; cbn [lookup]; [rewrite E; reflexivity|].
    destruct (comes_before key k); cbn [lookup].
    + rewrite String.eqb_refl. reflexivity.
    + rewrite E. exact IH.
Qed.

Lemma define_Forall (A : Type) (P : string * A -> Prop) (key : string) (v : A)
    (fields : list (string * A)) :
  Forall P fields -> P (key, v) -> Forall P (define key v fields).
Proof.
  intros HF Hv. induction HF as [|[k w] rest Hk Hrest IH]; cbn [define].
  - constructor; [exact Hv|constructor].
  - destruct (String.eqb_spec key k) as [<-|Hne]; [constructor; assumption|].
    destruct (comes_before key k); repeat (constructor; try assumption).
Qed.

Lemma get_set (key : string) (fields fields' : list (string * list (string * json)))
    (p : Parameters.t) :
  Parameters.get key p = Some fields ->
  Parameters.get key (Parameters.set key fields' p) = Some fields'.
Proof.
  unfold Parameters.get, Parameters.set.
  repeat match goal with
         | |- context [String.eqb key ?k] =>
             destruct (String.eqb key k) eqn:?; [intros _; cbn; reflexivity|]
         end.
  discriminate.
Qed.

Lemma set_each_place (P : list (string * list (string * json)) -> Prop) (key : string)
    (fields fields' : list (string * list (string * json))) (p : Parameters.t) :
  each_place P p -> Parameters.get key p = Some fields -> P fields' ->
  each_place P (Parameters.set key fields' p).
Proof.
  unfold each_place, Parameters.get, Parameters.set. intros (H1 & H2 & H3 & H4 & H5 & H6).
  repeat match goal with
         | |- context [String.eqb key ?k] =>
             destruct (String.eqb key k) eqn:?; [intros _ H'; cbn; tauto|]
         end.
  discriminate.
Qed.

Lemma get_each_place (P : list (string * list (string * json)) -> Prop) (key : string)
    (fields : list (string * list (string * json))) (p : Parameters.t) :
  each_place P p -> Parameters.get key p = Some fields -> P fields.
Proof.
  unfold each_place, Parameters.get. intros (H1 & H2 & H3 & H4 & H5 & H6).
  repeat match goal with
         | |- context [String.eqb key ?k] =>
             destruct (String.eqb key k) eqn:?;
             [intros H'; inversion H'; subst; assumption|]
         end.
  discriminate.
Qed.

(** The type kept for a parameter is never [null]. *)
Lemma kept_paramInfo (type description : option json) :
  kept (paramInfo (match type with
                   | None | Some JNull => JStr "string"
                   | Some t => t
                   end) description).
Proof.
  eexists. exists description. split; [reflexivity|].
  destruct type as [[]|]; discriminate.
Qed.

Lemma kept_required (info : list (string * json)) :
  kept info -> lookup "required" info = None /\ lookup "items" info = None.
Proof.
  intros (type & description & -> & _). destruct description; split; reflexivity.
Qed.

(** What a step of the loop that yields has done. *)
Lemma add_param_Yields (openapiSpec : json) (p : Parameters.t) (param : json)
    (p' : Parameters.t) :
  add_param openapiSpec p param = Yields p' ->
  exists resolvedParam schema type description place name entries,
    resolveReference param openapiSpec = Yields resolvedParam
    /\ prop_of resolvedParam "schema" = Returned schema
    /\ prop_of schema "type" = Returned type
    /\ prop_of resolvedParam "description" = Returned description
    /\ prop_of resolvedParam "in" = Returned place
    /\ prop_of resolvedParam "name" = Returned name
    /\ Parameters.get (ToString_opt Number_toString place) p = Some entries
    /\ ToString_opt Number_toString name <> "__proto__"
    /\ p' = Parameters.set (ToString_opt Number_toString place)
              (define (ToString_opt Number_toString name)
                 (paramInfo (match type with
                             | None | Some JNull => JStr "string"
                             | Some t => t
                             end) description) entries) p.
Proof.
  unfold add_param. intros H.
  destruct (resolveReference param openapiSpec) as [resolvedParam| |] eqn:E0;
    try discriminate.
  cbn [outcome_bind] in H.
  destruct (prop_of resolvedParam "schema") as [schema|] eqn:E1; try discriminate.
  cbn [of_result outcome_bind] in H.
  destruct (prop_of schema "type") as [type|] eqn:E2; try discriminate.
  cbn [of_result outcome_bind] in H.
  destruct (prop_of resolvedParam "description") as [description|] eqn:E3; try discriminate.
  cbn [of_result outcome_bind] in H.
  destruct (prop_of resolvedParam "in") as [place|] eqn:E4; try discriminate.
  cbn [of_result outcome_bind] in H.
  destruct (prop_of resolvedParam "name") as [name|] eqn:E5; try discriminate.
  cbn [of_result outcome_bind] in H. cbv zeta in H.
  destruct (Parameters.get (ToString_opt Number_toString place) p) as [entries|] eqn:G.
  - destruct (String.eqb_spec (ToString_opt Number_toString name) "__proto__") as [|Hne];
      [discriminate|].
    inversion H; subst p'.
    exists resolvedParam, schema, type, description, place, name, entries.
    repeat split; try reflexivity; assumption.
  - destruct (inherited _); discriminate.
Qed.

(** The step keeps infos as they should be. *)
Lemma add_param_kept (openapiSpec : json) (p : Parameters.t) (param : json) (p' : Parameters.t) :
  each_place (Forall (fun entry => kept (snd entry))) p ->
  add_param openapiSpec p param = Yields p' ->
  each_place (Forall (fun entry => kept (snd entry))) p'.
Proof.
  intros Hp H.
  destruct (@add_param_Yields _ _ _ _ H)
    as (resolvedParam & schema & type & description & place & name & entries
        & _ & _ & _ & _ & _ & _ & G & _ & ->).
  eapply set_each_place; [exact Hp|exact G|].
  apply define_Forall; [exact (@get_each_place _ _ _ _ Hp G)|].
  cbn [snd]. apply kept_paramInfo.
Qed.

Section Documents.

Variable engine : Engine.

(** What [extractParameters] yields is a fold of [add_param]. *)
Lemma extractParameters_Yields (pathData operation openapiSpec : json)
    (parameters : Parameters.t) :
  extractParameters engine pathData operation openapiSpec = Yields parameters ->
  exists ofPath ofOperation,
    result_bind (prop pathData "parameters") (spread_or_empty engine) = Returned ofPath
    /\ result_bind (prop operation "parameters") (spread_or_empty engine) = Returned ofOperation
    /\ fold_left (fun acc param =>
                    outcome_bind acc (fun parameters => add_param openapiSpec parameters param))
         (ofPath ++ ofOperation) (Yields Parameters.empty)
       = Yields parameters.
Proof.
  unfold extractParameters. intros H.
  destruct (result_bind (prop pathData "parameters") (spread_or_empty engine)) as [ofPath|];
    [|discriminate].
  destruct (result_bind (prop operation "parameters") (spread_or_empty engine))
    as [ofOperation|]; [|discriminate].
  exists ofPath, ofOperation. auto.
Qed.

(** Of every parameter, [extractParameters] keeps a type and perhaps a
    description. *)
Lemma extractParameters_kept (pathData operation openapiSpec : json)
    (parameters : Parameters.t) :
  extractParameters engine pathData operation openapiSpec = Yields parameters ->
  each_place (Forall (fun entry => kept (snd entry))) parameters.
Proof.
  intros H. destruct (@extractParameters_Yields _ _ _ _ H) as (ofPath & ofOperation & _ & _ & F).
  refine (@fold_left_Yields _ _ (add_param openapiSpec) _ _ _ _ _ _ F).
  - intros a x a'. apply add_param_kept.
  - repeat split; constructor.
Qed.

Lemma descend_dangling (path : list string) (key : string) (v0 : json)
    (fields : list (string * json)) :
  descend path v0 = Some (JObj fields) ->
  lookup key fields = None ->
  inherited key = false ->
  fold_left
    (fun acc part =>
       outcome_bind acc
         (fun v => match v with
                   | Some j => if truthy j then member j part else Yields v
                   | None => Yields None
                   end))
    (path ++ [key]) (Yields (Some v0))
  = Yields None.
Proof.
  intros Hd Hl Hi. rewrite fold_left_app, (@descend_reduce _ _ _ Hd).
  cbn [fold_left outcome_bind truthy member]. rewrite Hl, Hi. reflexivity.
Qed.

(** The parameters listed by an operation whose path item lists none. *)
Lemma extractParameters_of_operation (pathData operation : list (string * json))
    (openapiSpec : json) (params : list json) :
  lookup "parameters" pathData = None ->
  lookup "parameters" operation = Some (JArr params) ->
  extractParameters engine (JObj pathData) (JObj operation) openapiSpec
  = fold_left (fun acc param =>
                 outcome_bind acc (fun parameters => add_param openapiSpec parameters param))
      params (Yields Parameters.empty).
Proof.
  intros Hp Ho. unfold extractParameters. cbn [prop result_bind]. rewrite Hp, Ho.
  reflexivity.
Qed.

(** X15.  A reference to a property that the document does not hold
    resolves to [undefined] without an error; the error comes from what
    reads the result: the parameters of an operation that lists such a
    reference first cannot be extracted ([TypeError], reading [schema]), and
    neither can a request body that is such a reference (reading
    [content]). *)
Theorem dangling_reference_is_a_type_error (ref : list (string * json)) (r : string)
    (path : list string) (key : string) (openapiSpec : json) (fields : list (string * json)) :
  lookup "$ref" ref = Some (JStr r) ->
  r <> "" ->
  strip_fragment r = join "/" (path ++ [key]) ->
  forallb slashless (path ++ [key]) = true ->
  descend path openapiSpec = Some (JObj fields) ->
  lookup key fields = None ->
  inherited key = false ->
  resolveReference (JObj ref) openapiSpec = Yields None
  /\ (forall pathData operation rest,
         lookup "parameters" pathData = None ->
         lookup "parameters" operation = Some (JArr (JObj ref :: rest)) ->
         extractParameters engine (JObj pathData) (JObj operation) openapiSpec
         = Raises "Cannot read properties of undefined (reading 'schema')")
  /\ (forall operation,
         lookup "requestBody" operation = Some (JObj ref) ->
         extractRequestBody (JObj operation) openapiSpec
         = Raises "Cannot read properties of undefined (reading 'content')").
Proof.
  intros Href Hr Hstrip Hs Hd Hl Hi.
  assert (R : resolveReference (JObj ref) openapiSpec = Yields None).
  { unfold resolveReference. cbn [prop of_result outcome_bind]. rewrite Href.
    cbn [truthy_opt truthy]. apply String.eqb_neq in Hr. rewrite Hr. cbn [negb].
    rewrite Hstrip, split_join; [|destruct path; discriminate|exact Hs].
    exact (@descend_dangling _ _ _ _ Hd Hl Hi). }
  split; [exact R|]. split.
  - intros pathData operation rest Hp Ho.
    rewrite (@extractParameters_of_operation _ _ openapiSpec _ Hp Ho).
    cbn [fold_left outcome_bind].
    assert (A : add_param openapiSpec Parameters.empty (JObj ref)
                = Raises "Cannot read properties of undefined (reading 'schema')").
    { unfold add_param. rewrite R. reflexivity. }
    rewrite A. apply fold_left_Raises.
  - intros operation Hb. unfold extractRequestBody. cbn [prop of_result outcome_bind].
    rewrite Hb. cbn [truthy]. rewrite R. reflexivity.
Qed.

(** X16.  A parameter that declares no [schema] (as the parameters of a
    Swagger 2 document and those described by [content] do) cannot be
    extracted: when an operation lists such a parameter first, and its path
    item lists none, [extractParameters] throws a [TypeError], reading
    [type]. *)
Theorem parameter_without_schema_is_a_type_error (pathData operation : list (string * json))
    (openapiSpec : json) (fields : list (string * json)) (rest : list json) :
  lookup "parameters" pathData = None ->
  lookup "parameters" operation = Some (JArr (JObj fields :: rest)) ->
  lookup "$ref" fields = None ->
  lookup "schema" fields = None ->
  extractParameters engine (JObj pathData) (JObj operation) openapiSpec
  = Raises "Cannot read properties of undefined (reading 'type')".
Proof.
  intros Hp Ho Href Hschema.
  rewrite (@extractParameters_of_operation _ _ openapiSpec _ Hp Ho).
  cbn [fold_left outcome_bind].
  assert (A : add_param openapiSpec Parameters.empty (JObj fields)
              = Raises "Cannot read properties of undefined (reading 'type')").
  { unfold add_param, resolveReference. cbn [prop of_result outcome_bind]. rewrite Href.
    cbn [truthy_opt outcome_bind prop_of prop]. rewrite Hschema. reflexivity. }
  rewrite A. apply fold_left_Raises.
Qed.

(** X17.  Of the parameter that an operation lists last, whatever the path
    item and the operation list before it: if the parameters can be
    extracted at all, the entry under its place and name is its own, which
    overrides any earlier declaration of the same place and name; the entry
    holds the [type] of its schema, or ["string"] if the schema has none
    (as a schema that is a reference has none), its [description] if it has
    one, and nothing else. *)
Theorem last_declaration_is_kept (pathData operation openapiSpec : json)
    (parameters : Parameters.t) (operation_fields : list (string * json))
    (before : list json) (fields schema : list (string * json)) (place name : string) :
  extractParameters engine pathData operation openapiSpec = Yields parameters ->
  operation = JObj operation_fields ->
  lookup "parameters" operation_fields = Some (JArr (before ++ [JObj fields])) ->
  lookup "$ref" fields = None ->
  lookup "schema" fields = Some (JObj schema) ->
  lookup "in" fields = Some (JStr place) ->
  lookup "name" fields = Some (JStr name) ->
  exists entries,
    Parameters.get place parameters = Some entries
    /\ lookup name entries
       = Some (paramInfo (match lookup "type" schema with
                          | None | Some JNull => JStr "string"
                          | Some t => t
                          end) (lookup "description" fields)).
Proof.
  intros H -> Ho Href Hschema Hin Hname.
  destruct (@extractParameters_Yields _ _ _ _ H) as (ofPath & ofOperation & _ & Eo & F).
  cbn [prop result_bind] in Eo. rewrite Ho in Eo.
  assert (ofOperation = before ++ [JObj fields]) as ->.
  { unfold spread_or_empty in Eo. cbn [truthy] in Eo. congruence. }
  rewrite app_assoc, fold_left_app in F. cbn [fold_left] in F.
  match type of F with
  | outcome_bind ?o _ = _ => destruct o as [p0| |]; try discriminate
  end.
  cbn [outcome_bind] in F.
  destruct (@add_param_Yields _ _ _ _ F)
    as (resolvedParam & schema' & type & description & place' & name' & entries
        & E0 & E1 & E2 & E3 & E4 & E5 & G & _ & ->).
  unfold resolveReference in E0. cbn [prop of_result outcome_bind] in E0.
  rewrite Href in E0. cbn [truthy_opt] in E0. inversion E0; subst resolvedParam.
  cbn [prop_of prop] in E1, E3, E4, E5. rewrite Hschema in E1. rewrite Hin in E4.
  rewrite Hname in E5. inversion E1; subst schema'. inversion E3; subst description.
  inversion E4; subst place'. inversion E5; subst name'.
  cbn [prop_of prop] in E2. inversion E2; subst type.
  cbn [ToString_opt ToString] in G |- *.
  eexists. split; [exact (@get_set _ _ _ _ G)|]. apply lookup_define.
Qed.

Lemma filter_none (A : Type) (f : A -> bool) (l : list A) :
  (forall x, In x l -> f x = false) -> filter f l = [].
Proof.
  induction l as [|x rest IH]; intros H; [reflexivity|]. cbn [filter].
  rewrite (H x (or_introl eq_refl)). apply IH. intros y Hy. apply H. right. exact Hy.
Qed.

(** With infos as [extractParameters] keeps them, no parameter of a place
    is required. *)
Lemma location_schema_kept (fields : list (string * list (string * json))) :
  Forall (fun entry => kept (snd entry)) fields ->
  location_schema fields
  = JObj [("type", JStr "object");
          ("properties", JObj (map (fun kv => (fst kv, JObj (snd kv))) fields));
          ("required", JArr [])].
Proof.
  intros HF. unfold location_schema. rewrite filter_none; [reflexivity|].
  intros param _. destruct (lookup param fields) as [info|] eqn:L; [|reflexivity].
  apply lookup_In in L. rewrite Forall_forall in HF. specialize (HF _ L). cbn [snd] in HF.
  destruct (@kept_required _ HF) as (-> & _). reflexivity.
Qed.

Lemma parameterProperties_In (parameters : Parameters.t) (place : string) (schema : json) :
  In (place, schema) (parameterProperties parameters) ->
  exists entries,
    Parameters.get place parameters = Some entries
    /\ entries <> []
    /\ schema = location_schema entries.
Proof.
  unfold parameterProperties. cbv zeta. rewrite !in_app_iff.
  intros H.
  repeat match type of H with
         | _ \/ _ => destruct H as [H|H]
         end;
    match type of H with
    | In _ (if 0 <? length ?l then _ else _) =>
        destruct l as [|x l'] eqn:E; cbn in H; [contradiction|];
        destruct H as [H|[]]; inversion H; subst;
        exists (x :: l'); rewrite <- E; split; [reflexivity|];
        rewrite E; split; [discriminate|reflexivity]
    end.
Qed.

Lemma In_parameterProperties (parameters : Parameters.t) (place : string)
    (entries : list (string * list (string * json))) :
  Parameters.get place parameters = Some entries ->
  entries <> [] ->
  In (place, location_schema entries) (parameterProperties parameters).
Proof.
  unfold Parameters.get, parameterProperties. cbv zeta. rewrite !in_app_iff. intros G Hne.
  assert (Hlen : (0 <? length entries) = true) by (destruct entries; [congruence|reflexivity]).
  repeat match type of G with
         | (if String.eqb place ?k then _ else _) = _ =>
             destruct (String.eqb_spec place k) as [->|_];
             [inversion G; subst; rewrite Hlen; cbn; tauto|]
         end.
  discriminate.
Qed.

(** X18.  Whatever the document says of its parameters, none is required
    in the schema of a generated descriptor: the [properties] of the schema
    hold a property for each of the places [path], [query], [header],
    [cookie], [formData] and [body] that has a parameter, and the schema of
    a place declares every parameter of the place and requires none. *)
Theorem no_parameter_is_required (pathData operation openapiSpec : json)
    (parameters : Parameters.t) :
  extractParameters engine pathData operation openapiSpec = Yields parameters ->
  exists properties,
    tool_parameters parameters
    = JObj [("type", JStr "object"); ("properties", JObj properties); ("required", JArr [])]
    /\ forall place schema,
         In (place, schema) properties ->
         exists entries,
           Parameters.get place parameters = Some entries
           /\ entries <> []
           /\ schema = JObj [("type", JStr "object");
                             ("properties",
                              JObj (map (fun kv => (fst kv, JObj (snd kv))) entries));
                             ("required", JArr [])].
Proof.
  intros H. exists (parameterProperties parameters). split; [reflexivity|].
  intros place schema Hin.
  destruct (@parameterProperties_In _ _ _ Hin) as (entries & G & Hne & ->).
  exists entries. split; [exact G|]. split; [exact Hne|].
  apply location_schema_kept.
  exact (@get_each_place _ _ _ _ (@extractParameters_kept _ _ _ _ H) G).
Qed.

Lemma convert_fields_Thrown (convert : json -> result ZodTypeAny)
    (fields : list (string * json)) (key : string) (schema : json) (e : string) :
  In (key, schema) fields ->
  convert schema = Thrown e ->
  forall prototype properties,
  exists e', convert_fields convert fields prototype properties = Thrown e'.
Proof.
  intros Hin He. induction fields as [|[k s0] rest IH]; [destruct Hin|].
  intros prototype properties. cbn [convert_fields].
  destruct (convert s0) as [z|e0] eqn:C; cbn [result_bind]; [|eauto].
  destruct Hin as [Heq|Hin]; [inversion Heq; subst; congruence|].
  destruct (set_property k z prototype properties) as [[prototype' properties']|e1];
    cbn [result_bind fst snd]; [|eauto].
  apply IH. exact Hin.
Qed.

(** X19.  A parameter whose schema is of type [array] makes the schema of
    the generated descriptor unusable for strict validation: since the
    [items] of the schema are not kept, validating any arguments against the
    [properties] of the descriptor throws instead of answering. *)
Theorem array_parameter_breaks_validation (pathData operation openapiSpec : json)
    (parameters : Parameters.t) (place name : string)
    (entries : list (string * list (string * json))) (info : list (string * json)) :
  extractParameters engine pathData operation openapiSpec = Yields parameters ->
  Parameters.get place parameters = Some entries ->
  In (name, info) entries ->
  lookup "type" info = Some (JStr "array") ->
  forall args s,
    (exists e, validation (tool_parameters parameters) args = Thrown e)
    /\ (exists e,
          validateArgsWithZod args (Some (JObj (parameterProperties parameters))) s
          = (Thrown e, s)).
Proof.
  intros H G Hin Htype args s.
  pose proof (@get_each_place _ _ _ _ (@extractParameters_kept _ _ _ _ H) G) as K.
  assert (Hinfo : convertToZodSchema (JObj info)
                  = Thrown "Cannot read properties of undefined (reading 'type')").
  { rewrite convertToZodSchema_array by exact Htype.
    rewrite Forall_forall in K. specialize (K _ Hin). cbn [snd] in K.
    destruct (@kept_required _ K) as (_ & ->). reflexivity. }
  assert (Hplace : exists e, convertToZodSchema (location_schema entries) = Thrown e).
  { unfold location_schema. rewrite convertToZodSchema_object by reflexivity.
    cbn [lookup String.eqb Ascii.eqb Bool.eqb]. unfold zodSchema_of. cbn [for_in].
    destruct (@convert_fields_Thrown convertToZodSchema
                (map (fun kv => (fst kv, JObj (snd kv))) entries) name (JObj info) _
                (in_map (fun kv => (fst kv, JObj (snd kv))) _ _ Hin) Hinfo None [])
      as (e' & ->).
    eexists. reflexivity. }
  destruct Hplace as (e & Hplace).
  assert (Hne : entries <> []) by (destruct entries; [destruct Hin|discriminate]).
  destruct (@convert_fields_Thrown convertToZodSchema (parameterProperties parameters)
              place _ _ (@In_parameterProperties _ _ _ G Hne) Hplace None [])
    as (e' & Hall).
  split; exists e'.
  - unfold validation, tool_parameters. cbn [prop lookup String.eqb Ascii.eqb Bool.eqb result_bind].
    unfold zodSchema_of. cbn [for_in]. rewrite Hall. reflexivity.
  - unfold validateArgsWithZod, bind, lift, zodSchema_of. cbn [for_in]. rewrite Hall.
    reflexivity.
Qed.

(* ------------------------------------------------------------------------- *)
(** ** The creation of the tools *)

(** X20.  How [createToolsFromOpenAPISpec] fails on its specification.  A
    text that cannot be parsed makes it throw ["Failed to fetch or parse the
    OpenAPI specification"], after a line on the console that does not
    depend on the logging switch; so does a text that parses to a falsy
    document (as an empty YAML text, which is [null]), without that line.
    But a specification that cannot be fetched makes it throw the error of
    the fetch, as it is.  In each case nothing else has happened: logging is
    not switched on, whatever [verbose] says. *)
Theorem specification_failures (spec : string) (config : OpenAPIConfig.t) (s : St) :
  let parse := fun content => if prefix "{" (trim content) then JSON_parse engine content
                              else YAML_parse engine content in
  (forall e,
      prefix "http" spec = false ->
      parse spec = Thrown e ->
      createToolsFromOpenAPISpec engine spec config s
      = (Raises "Failed to fetch or parse the OpenAPI specification",
         {| world := world s; calls := calls s; invocations := invocations s;
            enabled := enabled s;
            console := console s ++ ["Error parsing the OpenAPI spec:"] |}))
  /\ (forall document,
         prefix "http" spec = false ->
         parse spec = Returned document ->
         truthy document = false ->
         createToolsFromOpenAPISpec engine spec config s
         = (Raises "Failed to fetch or parse the OpenAPI specification", s))
  /\ (forall e w,
         prefix "http" spec = true ->
         fetch_text engine spec (world s) = (Thrown e, w) ->
         createToolsFromOpenAPISpec engine spec config s
         = (Raises e,
            {| world := w; calls := calls s; invocations := invocations s;
               enabled := enabled s; console := console s |})).
Proof.
  intros parse. unfold parse. split; [|split].
  - intros e Hp He. unfold createToolsFromOpenAPISpec, fetchSpec, bind. rewrite Hp.
    unfold ret at 1. rewrite He. reflexivity.
  - intros document Hp Hd Ht. unfold createToolsFromOpenAPISpec, fetchSpec, bind. rewrite Hp.
    unfold ret at 1. rewrite Hd. unfold ret. cbn [truthy_opt]. rewrite Ht. reflexivity.
  - intros e w Hp Hf. unfold createToolsFromOpenAPISpec, fetchSpec, bind. rewrite Hp, Hf.
    reflexivity.
Qed.

(** What holds of a descriptor that the loop pushes. *)
Lemma tool_of_operation_Yields (openapiSpec : json) (config : OpenAPIConfig.t) (path : string)
    (pathData : json) (method : string) (operation : json) (w w' : World)
    (tool : GeneratedTool.t) :
  tool_of_operation engine openapiSpec config path pathData method operation w
  = (Yields (Some tool), w') ->
  isHttpMethod (Invoker.method (GeneratedTool.function tool)) = true
  /\ (forall patterns,
         OpenAPIConfig.matchPatterns config = Some patterns ->
         existsb (fun pattern => pattern (Invoker.url (GeneratedTool.function tool))) patterns
         = true)
  /\ exists parameters,
       GeneratedTool.parameters tool = tool_parameters parameters
       /\ each_place (Forall (fun entry => kept (snd entry))) parameters.
Proof.
  unfold tool_of_operation. intros H.
  destruct (isHttpMethod method) eqn:Hm; cbn [negb] in H; [|discriminate].
  destruct (getServerUrl engine openapiSpec pathData) as [url|e]; [|discriminate].
  cbv zeta in H.
  match type of H with
  | (if ?c then _ else _) = _ => destruct c eqn:Hc; [discriminate|]
  end.
  destruct (extractParameters engine pathData operation openapiSpec) as [parameters| |] eqn:Ep;
    try discriminate.
  destruct (extractRequestBody operation openapiSpec) as [requestBody| |]; try discriminate.
  destruct (prop operation "operationId") as [operationId|]; [|discriminate].
  destruct (prop operation "summary") as [summary|]; [|discriminate].
  inversion H; subst tool. cbn [GeneratedTool.function GeneratedTool.parameters
                                  Invoker.method Invoker.url].
  split; [exact Hm|]. split.
  - intros patterns Hpat. rewrite Hpat in Hc. apply negb_false_iff in Hc. exact Hc.
  - exists parameters. split; [reflexivity|]. exact (@extractParameters_kept _ _ _ _ Ep).
Qed.

Lemma tools_of_methods_Forall (P : GeneratedTool.t -> Prop) (openapiSpec : json)
    (config : OpenAPIConfig.t) (path : string) (pathData : json)
    (entries : list (string * json)) :
  (forall method operation w w' tool,
      tool_of_operation engine openapiSpec config path pathData method operation w
      = (Yields (Some tool), w') -> P tool) ->
  forall tools w tools' w',
    Forall P tools ->
    tools_of_methods engine openapiSpec config path pathData entries tools w
    = (Yields tools', w') ->
    Forall P tools'.
Proof.
  intros Hstep. induction entries as [|[method operation] rest IH];
    intros tools w tools' w' HF H; cbn [tools_of_methods] in H.
  - inversion H; subst. exact HF.
  - destruct (tool_of_operation engine openapiSpec config path pathData method operation w)
      as [[[tool|]| |] w1] eqn:T; try discriminate.
    + refine (IH _ _ _ _ _ H). apply Forall_app. split; [exact HF|].
      constructor; [|constructor]. exact (Hstep _ _ _ _ _ T).
    + exact (IH _ _ _ _ HF H).
Qed.

Lemma tools_of_paths_Forall (P : GeneratedTool.t -> Prop) (openapiSpec : json)
    (config : OpenAPIConfig.t) (entries : list (string * json)) :
  (forall path pathData method operation w w' tool,
      tool_of_operation engine openapiSpec config path pathData method operation w
      = (Yields (Some tool), w') -> P tool) ->
  forall tools w tools' w',
    Forall P tools ->
    tools_of_paths engine openapiSpec config entries tools w = (Yields tools', w') ->
    Forall P tools'.
Proof.
  intros Hstep. induction entries as [|[path pathData] rest IH];
    intros tools w tools' w' HF H; cbn [tools_of_paths] in H.
  - inversion H; subst. exact HF.
  - destruct (tools_of_methods engine openapiSpec config path pathData
                (for_in (Some pathData)) tools w) as [[tools1| |] w1] eqn:T;
      try discriminate.
    refine (IH _ _ _ _ _ H).
    exact (@tools_of_methods_Forall P openapiSpec config path pathData _
             (Hstep path pathData) _ _ _ _ HF T).
Qed.

Lemma fetchSpec_enabled (spec : string) (s : St) :
  enabled (snd (fetchSpec engine spec s)) = enabled s.
Proof.
  unfold fetchSpec, bind.
  destruct (prefix "http" spec).
  - destruct (fetch_text engine spec (world s)) as [[content|e] w]; [|reflexivity].
    destruct (if prefix "{" (trim content) then _ else _); reflexivity.
  - unfold ret at 1. destruct (if prefix "{" (trim spec) then _ else _); reflexivity.
Qed.

(** X21.  Every descriptor that [createToolsFromOpenAPISpec] returns is
    that of a property of a path item whose key is an HTTP method, in any
    letter case; when patterns are given, its URL is one that a pattern
    matches, so that an empty list of patterns lets no descriptor through;
    its [parameters] are built from extracted parameters, of which a type and
    perhaps a description are kept.  Logging is on afterwards if [verbose]
    was set or if it was on before. *)
Theorem tools_are_for_matching_operations (spec : string) (config : OpenAPIConfig.t)
    (s : St) (tools : list GeneratedTool.t) (s' : St) :
  createToolsFromOpenAPISpec engine spec config s = (Yields tools, s') ->
  Forall (fun tool =>
            isHttpMethod (Invoker.method (GeneratedTool.function tool)) = true
            /\ (forall patterns,
                   OpenAPIConfig.matchPatterns config = Some patterns ->
                   existsb (fun pattern => pattern (Invoker.url (GeneratedTool.function tool)))
                     patterns = true)
            /\ exists parameters,
                 GeneratedTool.parameters tool = tool_parameters parameters
                 /\ each_place (Forall (fun entry => kept (snd entry))) parameters)
    tools
  /\ (OpenAPIConfig.matchPatterns config = Some [] -> tools = [])
  /\ enabled s' = (default false (OpenAPIConfig.verbose config) || enabled s)%bool.
Proof.
  intros H.
  assert (HF : Forall (fun tool =>
                         isHttpMethod (Invoker.method (GeneratedTool.function tool)) = true
                         /\ (forall patterns,
                                OpenAPIConfig.matchPatterns config = Some patterns ->
                                existsb (fun pattern =>
                                           pattern (Invoker.url (GeneratedTool.function tool)))
                                  patterns = true)
                         /\ exists parameters,
                              GeneratedTool.parameters tool = tool_parameters parameters
                              /\ each_place (Forall (fun entry => kept (snd entry))) parameters)
                 tools
               /\ enabled s' = (default false (OpenAPIConfig.verbose config) || enabled s)%bool).
  { unfold createToolsFromOpenAPISpec in H.
    pose proof (fetchSpec_enabled spec s) as En.
    destruct (fetchSpec engine spec s) as [[openapiSpec|e] s1]; [|discriminate].
    cbn [snd] in En.
    destruct (truthy_opt openapiSpec); [|discriminate]. cbv zeta in H.
    destruct (result_bind (prop_of openapiSpec "paths") (fun paths => Returned (for_in paths)))
      as [entries|e]; [|discriminate].
    match type of H with
    | (let (r, w) := ?t in _) = _ => destruct t as [r w] eqn:T
    end.
    inversion H; subst r s'. cbn [enabled].
    split.
    - refine (@tools_of_paths_Forall _ _ config entries _ [] _ tools w (Forall_nil _) T).
      intros path pathData method operation w0 w1 tool. apply tool_of_operation_Yields.
    - rewrite <- En. destruct (default false (OpenAPIConfig.verbose config)); reflexivity. }
  destruct HF as (HF & En). split; [exact HF|]. split; [|exact En].
  intros Hpat. destruct tools as [|tool rest]; [reflexivity|].
  inversion HF as [|? ? (_ & Hmatch & _) _]. specialize (Hmatch [] Hpat). discriminate.
Qed.

(* ------------------------------------------------------------------------- *)
(** ** The specification reader of [utils.ts] *)

(** Cut at any depth, [fetchSpec] of [utils.ts] has not thrown; it has
    called no model and no tool and left the logging switch alone. *)
Lemma utils_fetchSpec_cut (fuel : nat) (spec : string) (s : St) :
  exists r s' lines,
    utils_fetchSpec engine fuel spec s = (Returned r, s')
    /\ calls s' = calls s
    /\ invocations s' = invocations s
    /\ enabled s' = enabled s
    /\ console s' = console s ++ lines
    /\ (forall e,
           JSON_parse engine spec = Thrown e ->
           fuel <> 0 ->
           exists rest, lines = "Failed to parse JSON, trying YAML..." :: rest).
Proof.
  revert spec s. induction fuel as [|fuel IH]; intros spec s.
  - exists None, s, []. cbn [utils_fetchSpec]. unfold ret. rewrite app_nil_r.
    repeat split. intros e _ H. congruence.
  - cbn [utils_fetchSpec].
    destruct (JSON_parse engine spec) as [document|e0] eqn:J.
    + exists (Some (Some document)), s, []. unfold ret. rewrite app_nil_r.
      repeat split. intros e H. discriminate.
    + assert (Fetch : forall s0 : St,
                 exists r s' lines,
                   try_catch
                     (response <- await (fetch engine spec) ;;
                      if negb (Response.ok response) then
                        console_error ("Failed to fetch OpenAPI spec: "
                                       ++ Number_toString (Response.status response) ++ " "
                                       ++ Response.statusText response) ;;;
                        ret (Some None)
                      else
                        content <- await (Response.text response) ;;
                        utils_fetchSpec engine fuel content)
                     (fun _ => console_error "Failed to fetch OpenAPI spec:" ;;;
                               ret (Some None)) s0
                   = (Returned r, s')
                   /\ calls s' = calls s0
                   /\ invocations s' = invocations s0
                   /\ enabled s' = enabled s0
                   /\ console s' = console s0 ++ lines).
      { intros s0. unfold try_catch, bind, await, console_error, ret.
        destruct (fetch engine spec (world s0)) as [[response|e1] w1].
        - destruct (Response.ok response);
            cbn [negb world calls invocations enabled console].
          + destruct (Response.text response w1) as [[content|e2] w2].
            * match goal with
              | |- context [utils_fetchSpec engine fuel content ?s1] =>
                  destruct (IH content s1) as (r & s' & lines & E & C & I & En & Co & _)
              end.
              rewrite E. exists r, s', lines. cbn in *. repeat split; assumption.
            * eexists _, _, _. cbn. repeat split.
          + eexists _, _, _. cbn. repeat split.
        - eexists _, _, _. cbn. repeat split. }
      unfold bind at 1. unfold console_error at 1.
      destruct (YAML_parse engine spec) as [yamlDoc|e1].
      * unfold bind at 1, ret at 1. destruct (is_object yamlDoc).
        -- eexists _, _, ["Failed to parse JSON, trying YAML..."]. unfold ret. cbn.
           repeat split. intros e _ _. eexists. reflexivity.
        -- match goal with
           | |- context [try_catch _ _ ?s0] =>
               destruct (Fetch s0) as (r & s' & lines & E & C & I & En & Co)
           end.
           exists r, s', ("Failed to parse JSON, trying YAML..." :: lines).
           cbn [calls invocations enabled console] in *.
           split; [exact E|]. split; [exact C|]. split; [exact I|]. split; [exact En|].
           split; [rewrite Co, <- app_assoc; reflexivity|].
           intros e _ _. eexists. reflexivity.
      * unfold bind at 1, bind at 1, console_error at 1, ret at 1.
        match goal with
        | |- context [try_catch _ _ ?s0] =>
            destruct (Fetch s0) as (r & s' & lines & E & C & I & En & Co)
        end.
        exists r, s',
          ("Failed to parse JSON, trying YAML..." :: "Failed to parse YAML." :: lines).
        cbn [calls invocations enabled console] in *.
        split; [exact E|]. split; [exact C|]. split; [exact I|]. split; [exact En|].
        split; [rewrite Co, <- !app_assoc; reflexivity|].
        intros e _ _. eexists. reflexivity.
Qed.

(** X22.  [fetchSpec] of [utils.ts] does not throw: whatever the parsers
    and the network do, no depth of its recursion is reached with an error
    thrown, no model and no tool is called, and the logging switch is left
    alone; but it writes to the console whether logging is on or not, and a
    text that is not JSON, as every YAML document, costs the line ["Failed
    to parse JSON, trying YAML..."].  It returns at once what [JSON.parse]
    made of the text, or else the object or array that [YAML.parse] made of
    it, or else [undefined] when the fetch fails or its response is not
    [ok].  Otherwise it calls itself on the body of the response, and
    nothing bounds that: against a server that answers a text with that
    same text, no depth is enough for it to return. *)
Theorem utils_fetchSpec_never_throws (fuel : nat) (spec : string) (s : St) :
  (forall e, fst (utils_fetchSpec engine fuel spec s) <> Thrown e)
  /\ calls (snd (utils_fetchSpec engine fuel spec s)) = calls s
  /\ invocations (snd (utils_fetchSpec engine fuel spec s)) = invocations s
  /\ enabled (snd (utils_fetchSpec engine fuel spec s)) = enabled s
  /\ (exists lines,
        console (snd (utils_fetchSpec engine fuel spec s)) = console s ++ lines
        /\ forall e,
             JSON_parse engine spec = Thrown e ->
             fuel <> 0 ->
             exists rest, lines = "Failed to parse JSON, trying YAML..." :: rest)
  /\ (forall document,
         JSON_parse engine spec = Returned document ->
         utils_fetchSpec engine (S fuel) spec s = (Returned (Some (Some document)), s))
  /\ (forall e document,
         JSON_parse engine spec = Thrown e ->
         YAML_parse engine spec = Returned document ->
         is_object document = true ->
         fst (utils_fetchSpec engine (S fuel) spec s) = Returned (Some (Some document)))
  /\ (forall e,
         JSON_parse engine spec = Thrown e ->
         no_yaml_document engine spec ->
         (forall w, (exists e', fst (fetch engine spec w) = Thrown e')
                    \/ exists response,
                         fst (fetch engine spec w) = Returned response
                         /\ Response.ok response = false) ->
         fst (utils_fetchSpec engine (S fuel) spec s) = Returned (Some None))
  /\ (forall e,
         JSON_parse engine spec = Thrown e ->
         no_yaml_document engine spec ->
         (forall w, exists response w1 w2,
             fetch engine spec w = (Returned response, w1)
             /\ Response.ok response = true
             /\ Response.text response w1 = (Returned spec, w2)) ->
         fst (utils_fetchSpec engine fuel spec s) = Returned None).
Proof.
  destruct (utils_fetchSpec_cut fuel spec s) as (r & s' & lines & E & C & I & En & Co & L).
  split; [rewrite E; discriminate|].
  split; [rewrite E; exact C|]. split; [rewrite E; exact I|]. split; [rewrite E; exact En|].
  split; [exists lines; rewrite E; split; assumption|].
  clear r s' lines E C I En Co L.
  split; [|split; [|split]].
  - intros document J. cbn [utils_fetchSpec]. rewrite J. reflexivity.
  - intros e document J Y O. cbn [utils_fetchSpec]. rewrite J, Y, O.
    unfold bind, console_error, ret. reflexivity.
  - intros e J Y F. cbn [utils_fetchSpec]. rewrite J.
    unfold no_yaml_document in Y.
    unfold bind at 1, console_error at 1.
    match goal with
    | |- fst ((yamlDoc <- ?m ;; _) ?s0) = _ =>
        assert (Hy : exists s1, m s0 = (Returned None, s1))
    end.
    { destruct (YAML_parse engine spec) as [yamlDoc|e1].
      - rewrite Y. eexists. reflexivity.
      - unfold bind, console_error, ret. eexists. reflexivity. }
    destruct Hy as (s1 & Hy). unfold bind at 1. rewrite Hy.
    unfold try_catch, bind, await, console_error, ret.
    destruct (F (world s1)) as [(e' & Fe)|(response & Fr & Fo)];
      destruct (fetch engine spec (world s1)) as [r w1]; cbn [fst] in *; subst r;
      [reflexivity|]. rewrite Fo. reflexivity.
  - intros e J Y F. revert s. induction fuel as [|fuel IH]; intros s; [reflexivity|].
    cbn [utils_fetchSpec]. rewrite J.
    unfold no_yaml_document in Y.
    unfold bind at 1, console_error at 1.
    match goal with
    | |- fst ((yamlDoc <- ?m ;; _) ?s0) = _ =>
        assert (Hy : exists s1, m s0 = (Returned None, s1))
    end.
    { destruct (YAML_parse engine spec) as [yamlDoc|e1].
      - rewrite Y. eexists. reflexivity.
      - unfold bind, console_error, ret. eexists. reflexivity. }
    destruct Hy as (s1 & Hy). unfold bind at 1. rewrite Hy.
    unfold try_catch, bind at 1, await at 1.
    destruct (F (world s1)) as (response & w1 & w2 & Fr & Fo & Ft).
    rewrite Fr, Fo. cbn [negb]. unfold bind at 1, await at 1.
    cbn [world]. rewrite Ft.
    match goal with
    | |- context [utils_fetchSpec engine fuel spec ?s2] => specialize (IH s2)
    end.
    destruct (utils_fetchSpec engine fuel spec _) as [[r|e0] s3]; cbn [fst] in *;
      [exact IH|discriminate].
Qed.

(** X23.  A document that [fetchSpec] of [utils.ts] returns is what a
    parser made of the text given or of the body of a response that was
    [ok]: whatever [JSON.parse] returned, be it a number, a string or [null],
    or else an object or an array that [YAML.parse] returned of a text that
    is not JSON; a YAML text that denotes a scalar is never returned. *)
Theorem utils_fetchSpec_document (fuel : nat) (spec : string) (s s' : St) (document : json) :
  utils_fetchSpec engine fuel spec s = (Returned (Some (Some document)), s') ->
  exists content,
    (content = spec
     \/ exists url w response w1 w2,
          fetch engine url w = (Returned response, w1)
          /\ Response.ok response = true
          /\ Response.text response w1 = (Returned content, w2))
    /\ (JSON_parse engine content = Returned document
        \/ ((exists e, JSON_parse engine content = Thrown e)
            /\ YAML_parse engine content = Returned document
            /\ is_object document = true)).
Proof.
  revert spec s. induction fuel as [|fuel IH]; intros spec s H; cbn [utils_fetchSpec] in H.
  - discriminate.
  - destruct (JSON_parse engine spec) as [document0|e0] eqn:J.
    + inversion H; subst. exists spec. split; [left; reflexivity|]. left. exact J.
    + assert (Fetch : forall s0 : St,
                 try_catch
                   (response <- await (fetch engine spec) ;;
                    if negb (Response.ok response) then
                      console_error ("Failed to fetch OpenAPI spec: "
                                     ++ Number_toString (Response.status response) ++ " "
                                     ++ Response.statusText response) ;;;
                      ret (Some None)
                    else
                      content <- await (Response.text response) ;;
                      utils_fetchSpec engine fuel content)
                   (fun _ => console_error "Failed to fetch OpenAPI spec:" ;;;
                             ret (Some None)) s0
                 = (Returned (Some (Some document)), s') ->
                 exists content,
                   (exists url w response w1 w2,
                       fetch engine url w = (Returned response, w1)
                       /\ Response.ok response = true
                       /\ Response.text response w1 = (Returned content, w2))
                   /\ (JSON_parse engine content = Returned document
                       \/ ((exists e, JSON_parse engine content = Thrown e)
                           /\ YAML_parse engine content = Returned document
                           /\ is_object document = true))).
      { intros s0. unfold try_catch, bind, await, console_error, ret.
        destruct (fetch engine spec (world s0)) as [[response|e1] w1] eqn:F;
          [|discriminate].
        destruct (Response.ok response) eqn:Ok;
          cbn [negb world calls invocations enabled console]; [|discriminate].
        destruct (Response.text response w1) as [[content|e2] w2] eqn:T; [|discriminate].
        match goal with
        | |- context [utils_fetchSpec engine fuel content ?s1] =>
            destruct (utils_fetchSpec engine fuel content s1) as [[r|e3] s2] eqn:E
        end; [|discriminate].
        intros H0. inversion H0; subst r s2.
        destruct (IH _ _ E) as (content' & [->|Hf] & P).
        - exists content. split; [|exact P]. eauto 10.
        - exists content'. split; [exact Hf|exact P]. }
      unfold bind at 1 in H. unfold console_error at 1 in H.
      destruct (YAML_parse engine spec) as [yamlDoc|e1] eqn:Y.
      * unfold bind at 1, ret at 1 in H. destruct (is_object yamlDoc) eqn:O.
        -- inversion H; subst. exists spec. split; [left; reflexivity|]. right.
           split; [eauto|]. split; [exact Y|exact O].
        -- destruct (Fetch _ H) as (content & Hf & P). exists content.
           split; [right; exact Hf|exact P].
      * unfold bind at 1, bind at 1, console_error at 1, ret at 1 in H.
        destruct (Fetch _ H) as (content & Hf & P). exists content.
        split; [right; exact Hf|exact P].
Qed.

End Documents.

End AiUtils.

(* ------------------------------------------------------------------------- *)
(** * The statements on sample data

    The world is trivial and the promises settle in the order they were
    made. *)

Example quote_json_user :
  QuoteJSONString (String "{" (String dquote ("name" ++ String dquote (":" ++ String dquote ("X"
      ++ String dquote "}")))))%string
  = String dquote (String "{" (quote_char dquote ++ "name" ++ quote_char dquote ++ ":" ++
      quote_char dquote ++ "X" ++ quote_char dquote ++ "}" ++ String dquote ""))%string.
Proof. reflexivity. Qed.

(** The scenario of the specification: one descriptor [getUser], a first
    response that requests it; the tool turn is appended under its name
    with the serialized result, the second call is made without tools and
    its output is returned. *)
Example concrete_scenario :
  fst (runWithTools decimal getters (in_order unit) (requesting "getUser" (JObj [])) "model"
         (asking [getUser unit]) (defaults unit) (fresh tt))
  = Returned (Output (Some "done") None)
  /\ map (fun c => (AiInput.messages (call_input c),
                    option_map (@length _) (AiInput.tools (call_input c))))
       (calls (snd (runWithTools decimal getters (in_order unit) (requesting "getUser" (JObj []))
           "model"
                      (asking [getUser unit]) (defaults unit) (fresh tt))))
     = [(question, Some 1);
        (question
         ++ [assistant_turn decimal (call "getUser");
             {| Message.role := Message.tool;
                Message.content :=
                  String dquote (String "{" (quote_char dquote ++ "name" ++ quote_char dquote ++ ":"
                    ++ quote_char dquote ++ "X" ++ quote_char dquote ++ "}" ++ String dquote
                        ""))%string;
                Message.name := Some "getUser" |}], None)].
Proof. split; reflexivity. Qed.

(** C1, as stated, fails: with [maxRecursiveToolRuns = 0] and an endpoint
    that requests a tool call whenever tools are offered, the run performs
    one dispatch round (and calls the invoker), not zero. *)
Lemma recursion_bound_counterexample :
  always_requests (requesting (World := unit) "getUser" (JObj []))
  /\ default 0%Z (maxRecursiveToolRuns (defaults unit)) = 0%Z
  /\ rounds (calls (snd (runWithTools decimal getters (in_order unit) (requesting "getUser" (JObj
      []))
                           "model" (asking [getUser unit]) (defaults unit) (fresh tt)))) = 1
  /\ length (invocations (snd (runWithTools decimal getters (in_order unit)
                                 (requesting "getUser" (JObj [])) "model"
                                 (asking [getUser unit]) (defaults unit) (fresh tt)))) = 1
  /\ ~ rounds (calls (snd (runWithTools decimal getters (in_order unit) (requesting "getUser"
      (JObj []))
                             "model" (asking [getUser unit]) (defaults unit) (fresh tt)))) <= 0.
Proof.
  split; [apply requesting_always_requests|].
  split; [reflexivity|]. split; [reflexivity|]. split; [reflexivity|].
  vm_compute. lia.
Qed.

(** The invoker of [getUser] does not reject. *)
Lemma getUser_readable : rejections_readable [getUser unit].
Proof.
  intros t fn args w [<-|[]] H. inversion H; subst. split; discriminate.
Qed.

(** [recursion_bound] with two recursive runs allowed: three rounds, then the
    final call. *)
Lemma recursion_bound_witness :
  selection (requesting "getUser" (JObj [])) "model" (asking [getUser unit]) (twice unit) (fresh tt)
  = (Returned [getUser unit], fresh tt)
  /\ always_requests (requesting (World := unit) "getUser" (JObj []))
  /\ schemas_build decimal getters (default false (strictValidation (twice unit)))
       (Input.tools (asking [getUser unit]))
  /\ rejections_readable (Input.tools (asking [getUser unit]))
  /\ exists new,
       calls (snd (runWithTools decimal getters (in_order unit) (requesting "getUser" (JObj []))
           "model"
                     (asking [getUser unit]) (twice unit) (fresh tt)))
       = calls (fresh tt) ++ new
       /\ rounds new <= 3
       /\ exists mid last,
            new = mid ++ [last] /\ length mid = 3
            /\ Forall (fun c => is_round c = true) mid
            /\ AiInput.tools (call_input last) = None.
Proof.
  assert (Hsel : selection (requesting "getUser" (JObj [])) "model" (asking [getUser unit])
                   (twice unit) (fresh tt) = (Returned [getUser unit], fresh tt))
    by reflexivity.
  pose proof (requesting_always_requests (World := unit) "getUser" (JObj [])) as Hreq.
  pose proof (schemas_build_unchecked decimal getters [getUser unit]) as Hbuild.
  destruct (recursion_bound decimal getters (in_order unit) (requesting "getUser" (JObj [])) "model"
              (asking [getUser unit]) (twice unit) (fresh tt) Hsel) as (new & C & B & X).
  destruct (X Hreq Hbuild getUser_readable) as (mid & last & E & L & F & T).
  split; [exact Hsel|]. split; [exact Hreq|]. split; [exact Hbuild|].
  split; [exact getUser_readable|].
  exists new. split; [exact C|]. split; [exact B|].
  exists mid, last. auto.
Defined.

(** [no_tool_call_termination] against the endpoint that requests nothing. *)
Lemma no_tool_call_termination_witness :
  trimFunction (defaults unit) = None
  /\ @silent unit "model"
       {| AiInput.messages := Input.messages (asking [getUser unit]); AiInput.stream := false;
          AiInput.tools := Some (map (@offer unit) (Input.tools (asking [getUser unit]))) |}
       (world (fresh tt))
     = (Returned (Output (Some "done") None), tt)
  /\ requested (Output (Some "done") None) = []
  /\ length (calls (snd (runWithTools decimal getters (in_order unit) (@silent unit) "model"
                            (asking [getUser unit]) (defaults unit) (fresh tt)))) = 2
  /\ invocations (snd (runWithTools decimal getters (in_order unit) (@silent unit) "model"
                         (asking [getUser unit]) (defaults unit) (fresh tt))) = []
  /\ fst (runWithTools decimal getters (in_order unit) (@silent unit) "model"
            (asking [getUser unit]) (defaults unit) (fresh tt))
     = Returned (Output (Some "done") None).
Proof.
  assert (Ht : trimFunction (defaults unit) = None) by reflexivity.
  assert (Hai : @silent unit "model"
                  {| AiInput.messages := Input.messages (asking [getUser unit]);
                     AiInput.stream := false;
                     AiInput.tools := Some (map (@offer unit) (Input.tools (asking [getUser
                         unit]))) |}
                  (world (fresh tt))
                = (Returned (Output (Some "done") None), tt)) by reflexivity.
  assert (Hreq : requested (Output (Some "done") None) = []) by reflexivity.
  destruct (no_tool_call_termination decimal getters (in_order unit) (@silent unit) "model"
              (asking [getUser unit]) (defaults unit) (fresh tt) Ht Hai Hreq) as (C & I & R).
  split; [exact Ht|]. split; [exact Hai|]. split; [exact Hreq|].
  split; [rewrite C; reflexivity|]. split; [rewrite I; reflexivity|].
  rewrite R. reflexivity.
Defined.

(** C3, as stated, fails: the descriptor [bare] has an invoker and is named
    by the request, strict validation is off, and yet the invoker is not
    called and no tool turn is pushed, because [bare] has no [parameters];
    the run logs that the function is undefined. *)
Lemma tool_call_dispatch_counterexample :
  Tool.function (bare unit) <> None
  /\ find (fun tool => String.eqb (Tool.name tool) (ToolCall.name (call "bare"))) [bare unit]
     = Some (bare unit)
  /\ invocations (snd (runWithTools decimal getters (in_order unit) (requesting "bare" (JObj []))
      "model"
                         (asking [bare unit]) (defaults unit) (fresh tt))) = []
  /\ map (fun c => AiInput.messages (call_input c))
       (calls (snd (runWithTools decimal getters (in_order unit) (requesting "bare" (JObj []))
           "model"
                      (asking [bare unit]) (defaults unit) (fresh tt))))
     = [question; question ++ [assistant_turn decimal (call "bare")]]
  /\ console (snd (runWithTools decimal getters (in_order unit) (requesting "bare" (JObj []))
      "model"
                     (asking [bare unit]) (defaults unit) (fresh tt)))
     = ["ERROR: Function for tool bare is undefined"].
Proof.
  split; [discriminate|]. repeat split; reflexivity.
Qed.

(** [tool_call_dispatch] on the run of the scenario with [getUser] and
    [bare] listed: the round of the first model call invokes [getUser], and
    the final call is made on a conversation that holds its tool turn. *)
Lemma tool_call_dispatch_witness :
  let run := runWithTools decimal getters (in_order unit) (requesting "getUser" (JObj [])) "model"
               (asking [getUser unit; bare unit]) (defaults unit) (fresh tt) in
  let response := Output None (Some [Some (call "getUser")]) in
  let c := {| call_model := "model";
              call_input := {| AiInput.messages := question; AiInput.stream := false;
                               AiInput.tools :=
                                 Some (map (@offer unit) [getUser unit; bare unit]) |};
              call_output := Returned response |} in
  exists c',
    selection (requesting "getUser" (JObj [])) "model" (asking [getUser unit; bare unit])
      (defaults unit) (fresh tt) = (Returned [getUser unit; bare unit], fresh tt)
    /\ calls (snd run) = calls (fresh tt) ++ [] ++ c :: [c']
    /\ AiInput.tools (call_input c) <> None
    /\ call_output c = Returned response
    /\ In (call "getUser") (requested response)
    /\ find (fun tool => String.eqb (Tool.name tool) (ToolCall.name (call "getUser")))
         (Input.tools (asking [getUser unit; bare unit])) = Some (getUser unit)
    /\ In {| invoked_tool := "getUser"; invoked_args := JObj [];
             invoked_outcome :=
               Returned (String "{" (String dquote ("name" ++ String dquote (":" ++
                           String dquote ("X" ++ String dquote "}")))))%string |}
         (invocations (snd run))
    /\ In {| Message.role := Message.tool;
             Message.content :=
               JSON_stringify decimal
                 (JStr (String "{" (String dquote ("name" ++ String dquote (":" ++
                          String dquote ("X" ++ String dquote "}")))))%string);
             Message.name := Some "getUser" |} (conversation c').
Proof.
  intros run response c. eexists.
  assert (Hsel : selection (requesting "getUser" (JObj [])) "model"
                   (asking [getUser unit; bare unit]) (defaults unit) (fresh tt)
                 = (Returned [getUser unit; bare unit], fresh tt)) by reflexivity.
  split; [exact Hsel|].
  assert (Hcalls : calls (snd run) = calls (fresh tt) ++ [] ++ c :: [_]) by reflexivity.
  split; [exact Hcalls|].
  assert (Htools : AiInput.tools (call_input c) <> None) by discriminate.
  assert (Hin : In (call "getUser") (requested response)) by (left; reflexivity).
  assert (F : find (fun tool => String.eqb (Tool.name tool) (ToolCall.name (call "getUser")))
                (Input.tools (asking [getUser unit; bare unit])) = Some (getUser unit))
    by reflexivity.
  split; [exact Htools|]. split; [reflexivity|]. split; [exact Hin|]. split; [exact F|].
  destruct (@tool_call_dispatch decimal unit getters (in_order unit)
              (requesting "getUser" (JObj [])) "model" (asking [getUser unit; bare unit])
              (defaults unit) (fresh tt) _ _ [] _ c response (call "getUser") (getUser unit)
              Hsel Hcalls Htools eq_refl Hin F) as (new & Hi & P1 & _).
  destruct (P1 _ no_parameters eq_refl eq_refl
              (fun H : false = true => False_ind _ (diff_false_true H)))
    as (w & Hw & T & _).
  split.
  - unfold run. rewrite Hi. apply in_or_app. right. exact Hw.
  - apply (T _ _ eq_refl). left. reflexivity.
Defined.


(** [invoker_rejecting_with_nothing_aborts] with the tool whose invoker
    rejects with [undefined]: the run throws a [TypeError] behind the two
    prefixes, after its first model call. *)
Lemma invoker_rejecting_with_nothing_aborts_witness :
  let run := runWithTools decimal getters (in_order unit) (requesting "vanishing" (JObj []))
               "model" (asking [vanishing unit]) (defaults unit) (fresh tt) in
  let first := {| AiInput.messages := question; AiInput.stream := false;
                  AiInput.tools := Some (map (@offer unit) [vanishing unit]) |} in
  let response := Output None (Some [Some (call "vanishing")]) in
  selection (requesting "vanishing" (JObj [])) "model" (asking [vanishing unit])
    (defaults unit) (fresh tt) = (Returned [vanishing unit], fresh tt)
  /\ fst (requesting "vanishing" (JObj []) "model" first (world (fresh tt))) = Returned response
  /\ In (call "vanishing") (requested response)
  /\ find (fun tool => String.eqb (Tool.name tool) (ToolCall.name (call "vanishing")))
       (Input.tools (asking [vanishing unit])) = Some (vanishing unit)
  /\ default false (strictValidation (defaults unit)) = false
  /\ (forall w : unit,
         fst ((fun (_ : json) (w : unit) => (@Thrown thrown string Undefined, w))
                (ToolCall.arguments (call "vanishing")) w) = Thrown Undefined
         \/ fst ((fun (_ : json) (w : unit) => (@Thrown thrown string Undefined, w))
                   (ToolCall.arguments (call "vanishing")) w) = Thrown Null)
  /\ fst run
     = Thrown (Error ("Error in runWithTools: Error in runAndProcessToolCall: "
                      ++ "Cannot read properties of undefined (reading 'message')"))
  /\ calls (snd run)
     = [{| call_model := "model"; call_input := first; call_output := Returned response |}]
  /\ exists message,
       fst run
       = Thrown (Error ("Error in runWithTools: Error in runAndProcessToolCall: " ++ message))
       /\ calls (snd run)
          = calls (fresh tt)
            ++ [{| call_model := "model"; call_input := first;
                   call_output := Returned response |}].
Proof.
  intros run first response.
  assert (Hsel : selection (requesting "vanishing" (JObj [])) "model" (asking [vanishing unit])
                   (defaults unit) (fresh tt) = (Returned [vanishing unit], fresh tt))
    by reflexivity.
  assert (Hai : fst (requesting "vanishing" (JObj []) "model" first (world (fresh tt)))
                = Returned response) by reflexivity.
  assert (Hin : In (call "vanishing") (requested response)) by (left; reflexivity).
  assert (F : find (fun tool => String.eqb (Tool.name tool) (ToolCall.name (call "vanishing")))
                (Input.tools (asking [vanishing unit])) = Some (vanishing unit))
    by reflexivity.
  assert (Hfn : forall w : unit,
             fst ((fun (_ : json) (w : unit) => (@Thrown thrown string Undefined, w))
                    (ToolCall.arguments (call "vanishing")) w) = Thrown Undefined
             \/ fst ((fun (_ : json) (w : unit) => (@Thrown thrown string Undefined, w))
                       (ToolCall.arguments (call "vanishing")) w) = Thrown Null)
    by (intros w; left; reflexivity).
  split; [exact Hsel|]. split; [exact Hai|]. split; [exact Hin|]. split; [exact F|].
  split; [reflexivity|]. split; [exact Hfn|]. split; [reflexivity|]. split; [reflexivity|].
  destruct (@invoker_rejecting_with_nothing_aborts decimal unit getters (in_order unit)
              (requesting "vanishing" (JObj [])) "model" (asking [vanishing unit])
              (defaults unit) (fresh tt) _ _ response (call "vanishing") (vanishing unit) _
              no_parameters Hsel Hai Hin F eq_refl eq_refl eq_refl Hfn)
    as (message & new & w & R & _ & C & _).
  exists message. split; [exact R|exact C].
Defined.

(** [hallucinated_tool_name] on a request for [nope], which is not listed. *)
Lemma hallucinated_tool_name_witness :
  find (fun tool => String.eqb (Tool.name tool) (ToolCall.name (call "nope")))
    (Input.tools (asking [getUser unit])) = None
  /\ toolCallCallback decimal getters (Input.tools (asking [getUser unit]))
       (default false (strictValidation (defaults unit))) (call "nope") question (fresh tt)
     = (Returned (question ++ [assistant_turn decimal (call "nope")], Done unit),
        {| world := tt; calls := []; invocations := []; enabled := true;
           console := ["ERROR: Tool nope not found, maybe AI hallucinated"] |})
  /\ (exists messages' extra,
        fst (dispatch decimal getters (in_order unit) (Input.tools (asking [getUser unit]))
               (default false (strictValidation (defaults unit)))
               [call "getUser"; call "nope"] question (fresh tt)) = Returned messages'
        /\ messages' = question ++ extra
        /\ forall m, In m extra -> Message.role m = Message.tool ->
                     Message.name m <> Some "nope")
  /\ answers (requesting (World := unit) "nope" (JObj []))
  /\ rejections_readable (Input.tools (asking [getUser unit]))
  /\ exists o extra,
       fst (runWithTools decimal getters (in_order unit) (requesting "nope" (JObj [])) "model"
              (asking [getUser unit]) (defaults unit) (fresh tt)) = Returned o
       /\ (forall m, In m extra -> Message.role m = Message.tool ->
                     Message.name m <> Some "nope")
       /\ exists mid,
            calls (snd (runWithTools decimal getters (in_order unit) (requesting "nope" (JObj []))
                          "model" (asking [getUser unit]) (defaults unit) (fresh tt)))
            = calls (fresh tt) ++ mid
              ++ [{| call_model := "model";
                     call_input := {| AiInput.messages := question ++ extra;
                                      AiInput.stream := false; AiInput.tools := None |};
                     call_output := Returned o |}].
Proof.
  destruct (hallucinated_tool_name decimal getters (in_order unit) (requesting "nope" (JObj []))
              "model" (asking [getUser unit]) (defaults unit)) as (P1 & P2 & P3).
  assert (F : find (fun tool => String.eqb (Tool.name tool) (ToolCall.name (call "nope")))
                (Input.tools (asking [getUser unit])) = None) by reflexivity.
  pose proof (requesting_answers (World := unit) "nope" (JObj [])) as Hans.
  split; [exact F|]. split; [|split; [|split; [exact Hans|split; [exact getUser_readable|]]]].
  - destruct (P1 (call "nope") question (fresh tt) F) as (E & _). rewrite E. reflexivity.
  - destruct (P2 [call "getUser"; call "nope"] (call "nope") question (fresh tt) _
                (or_intror (or_introl eq_refl)) F eq_refl) as (extra & E & X).
    eexists. exists extra. split; [reflexivity|]. split; [exact E|exact X].
  - destruct (P3 (fresh tt) [getUser unit] (fresh tt) "nope" Hans
                (schemas_build_unchecked decimal getters [getUser unit]) getUser_readable
                eq_refl)
      as (o & extra & mid & R & C & X).
    + intros t [<-|[]]. discriminate.
    + exists o, extra. split; [exact R|]. split; [exact X|]. exists mid. exact C.
Defined.

(** [offers_carry_no_function] with the default trim function and with
    [autoTrimTools]. *)
Lemma offers_carry_no_function_witness :
  selection (requesting "getUser" (JObj [])) "model" (asking [getUser unit]) (defaults unit)
    (fresh tt) = (Returned [getUser unit], fresh tt)
  /\ (trimFunction (trimming decimal unit) = None
      \/ trimFunction (trimming decimal unit) = Some (autoTrimTools decimal (World := unit)))
  /\ Tool.function (getUser unit) <> None
  /\ (exists new,
        calls (snd (runWithTools decimal getters (in_order unit) (requesting "getUser" (JObj []))
                      "model" (asking [getUser unit]) (defaults unit) (fresh tt)))
        = calls (fresh tt) ++ new
        /\ Forall (@function_free unit) new)
  /\ (exists new,
        calls (snd (runWithTools decimal getters (in_order unit) (requesting "a" (JObj []))
                      "model" (asking (five_tools unit)) (trimming decimal unit) (fresh tt)))
        = calls (fresh tt) ++ new
        /\ Forall (@function_free unit) new).
Proof.
  assert (Hsel : selection (requesting "getUser" (JObj [])) "model" (asking [getUser unit])
                   (defaults unit) (fresh tt) = (Returned [getUser unit], fresh tt))
    by reflexivity.
  assert (Ht : trimFunction (trimming decimal unit) = None
               \/ trimFunction (trimming decimal unit) = Some (autoTrimTools decimal (World :=
                   unit)))
    by (right; reflexivity).
  destruct (offers_carry_no_function decimal getters (in_order unit) (requesting "getUser" (JObj
      []))
              "model" (asking [getUser unit]) (defaults unit)) as (_ & _ & P3 & _).
  destruct (offers_carry_no_function decimal getters (in_order unit) (requesting "a" (JObj []))
              "model" (asking (five_tools unit)) (trimming decimal unit)) as (_ & _ & _ & P4).
  split; [exact Hsel|]. split; [exact Ht|]. split; [discriminate|].
  split; [exact (P3 (fresh tt) _ _ Hsel)|exact (P4 (fresh tt) Ht)].
Defined.

(* ------------------------------------------------------------------------- *)
(** * More statements on sample data *)

(** [error_wrapped_per_level] on a run that is allowed two recursive runs
    and whose endpoint fails on the second model call: the error crossed two
    levels. *)
Lemma error_wrapped_per_level_witness :
  let run := runWithTools decimal getters (in_order unit) (failing_after "getUser") "model"
               (asking [getUser unit]) (twice unit) (fresh tt) in
  let e := Error ("Error in runWithTools: Error in runAndProcessToolCall: "
                  ++ "Error in runAndProcessToolCall: overloaded")%string in
  selection (failing_after "getUser") "model" (asking [getUser unit]) (twice unit) (fresh tt)
  = (Returned [getUser unit], fresh tt)
  /\ fst run = Thrown e
  /\ exists depth e0 new c,
       depth <= 2
       /\ e = wrapped "Error in runWithTools: " (rethrown (S depth) e0)
       /\ calls (snd run) = calls (fresh tt) ++ new ++ [c]
       /\ (call_output c = Thrown e0
           \/ exists response toolCall t,
                call_output c = Returned response
                /\ In toolCall (requested response)
                /\ ((exists message,
                       verdict decimal getters (Input.tools (asking [getUser unit]))
                         (default false (strictValidation (twice unit))) toolCall
                       = Throws t message
                       /\ e0 = Error message)
                    \/ exists fn w error message,
                         verdict decimal getters (Input.tools (asking [getUser unit]))
                           (default false (strictValidation (twice unit))) toolCall
                         = Invoke t fn
                         /\ fst (fn (ToolCall.arguments toolCall) w) = Thrown error
                         /\ message_of error = Thrown message
                         /\ e0 = Error message)).
Proof.
  intros run e.
  assert (Hsel : selection (failing_after "getUser") "model" (asking [getUser unit]) (twice unit)
                   (fresh tt) = (Returned [getUser unit], fresh tt)) by reflexivity.
  assert (H : fst run = Thrown e) by reflexivity.
  split; [exact Hsel|]. split; [exact H|].
  exact (@error_wrapped_per_level decimal unit getters (in_order unit) (failing_after "getUser")
           "model" (asking [getUser unit]) (twice unit) (fresh tt) _ _ _ Hsel H).
Defined.

(** [trim_failure_not_wrapped] with five candidates and the endpoint that
    fails every call. *)
Lemma trim_failure_not_wrapped_witness :
  trimFunction (trimming decimal unit) = Some (autoTrimTools decimal (World := unit))
  /\ 5 <= length (Input.tools (asking (five_tools unit)))
  /\ fst (runWithTools decimal getters (in_order unit) (@overloaded unit) "model"
            (asking (five_tools unit)) (trimming decimal unit) (fresh tt))
     = Thrown (Error "overloaded")
  /\ length (calls (snd (runWithTools decimal getters (in_order unit) (@overloaded unit) "model"
                            (asking (five_tools unit)) (trimming decimal unit) (fresh tt)))) = 1
  /\ invocations (snd (runWithTools decimal getters (in_order unit) (@overloaded unit) "model"
                         (asking (five_tools unit)) (trimming decimal unit) (fresh tt))) = [].
Proof.
  assert (Ht : trimFunction (trimming decimal unit) = Some (autoTrimTools decimal (World := unit)))
    by reflexivity.
  assert (Hlen : 5 <= length (Input.tools (asking (five_tools unit)))) by (cbn; lia).
  destruct (@trim_failure_not_wrapped decimal unit getters (in_order unit) (@overloaded unit)
      "model"
              (asking (five_tools unit)) (trimming decimal unit) (fresh tt)
              (Error "overloaded") Ht Hlen eq_refl) as (R & C & I).
  split; [exact Ht|]. split; [exact Hlen|]. split; [exact R|].
  split; [rewrite C; reflexivity|exact I].
Defined.

(** [logging_stays_on]: a verbose run that starts with logging off leaves
    it on. *)
Lemma logging_stays_on_witness :
  (trimFunction (verbosely unit) = None
   \/ trimFunction (verbosely unit) = Some (autoTrimTools decimal (World := unit)))
  /\ enabled (muted tt) = false
  /\ enabled (snd (runWithTools decimal getters (in_order unit) (@silent unit) "model"
                     (asking [getUser unit]) (verbosely unit) (muted tt))) = true.
Proof.
  assert (Ht : trimFunction (verbosely unit) = None
               \/ trimFunction (verbosely unit) = Some (autoTrimTools decimal (World := unit)))
    by (left; reflexivity).
  split; [exact Ht|]. split; [reflexivity|].
  exact (@logging_stays_on decimal unit getters (in_order unit) (@silent unit) "model"
           (asking [getUser unit]) (verbosely unit) (muted tt) Ht).
Defined.

(** [silent_when_logging_is_off] on a run that has an error to log: the
    model requests a tool that is not listed. *)
Lemma silent_when_logging_is_off_witness :
  (trimFunction (defaults unit) = None
   \/ trimFunction (defaults unit) = Some (autoTrimTools decimal (World := unit)))
  /\ default false (verbose (defaults unit)) = false
  /\ enabled (muted tt) = false
  /\ console (snd (runWithTools decimal getters (in_order unit) (requesting "nope" (JObj []))
      "model"
                     (asking [getUser unit]) (defaults unit) (fresh tt)))
     = ["ERROR: Tool nope not found, maybe AI hallucinated"]
  /\ console (snd (runWithTools decimal getters (in_order unit) (requesting "nope" (JObj []))
      "model"
                     (asking [getUser unit]) (defaults unit) (muted tt))) = [].
Proof.
  assert (Ht : trimFunction (defaults unit) = None
               \/ trimFunction (defaults unit) = Some (autoTrimTools decimal (World := unit)))
    by (left; reflexivity).
  split; [exact Ht|]. split; [reflexivity|]. split; [reflexivity|]. split; [reflexivity|].
  exact (@silent_when_logging_is_off decimal unit getters (in_order unit) (requesting "nope" (JObj
      []))
           "model" (asking [getUser unit]) (defaults unit) (muted tt) Ht eq_refl eq_refl).
Defined.

(** [conversation_only_grows] on a run of three rounds. *)
Lemma conversation_only_grows_witness :
  selection (requesting "getUser" (JObj [])) "model" (asking [getUser unit]) (twice unit) (fresh tt)
  = (Returned [getUser unit], fresh tt)
  /\ length (calls (snd (runWithTools decimal getters (in_order unit) (requesting "getUser" (JObj
      []))
                            "model" (asking [getUser unit]) (twice unit) (fresh tt)))) = 4
  /\ exists c1 new,
       calls (snd (runWithTools decimal getters (in_order unit) (requesting "getUser" (JObj []))
                     "model" (asking [getUser unit]) (twice unit) (fresh tt)))
       = calls (fresh tt) ++ c1 :: new
       /\ conversation c1 = question
       /\ StronglySorted (fun a b => grown (conversation a) (conversation b)) (c1 :: new).
Proof.
  assert (Hsel : selection (requesting "getUser" (JObj [])) "model" (asking [getUser unit])
                   (twice unit) (fresh tt) = (Returned [getUser unit], fresh tt))
    by reflexivity.
  destruct (@conversation_only_grows decimal unit getters (in_order unit) (requesting "getUser"
      (JObj []))
              "model" (asking [getUser unit]) (twice unit) (fresh tt) _ _ Hsel)
    as (c1 & new & C & I & S & _).
  split; [exact Hsel|]. split; [reflexivity|].
  exists c1, new. split; [exact C|]. split; [|exact S].
  unfold conversation. rewrite I. reflexivity.
Defined.

(** [schema_failure_aborts_run]: the response requests [getUser] and
    [tagging]; the schema of [tagging] cannot be built; the run fails, and
    [getUser] has been called. *)
Lemma schema_failure_aborts_run_witness :
  let run := runWithTools decimal getters (in_order unit) (requesting_two "getUser" "tagging")
               "model" (asking [getUser unit; tagging unit]) (strictly unit) (fresh tt) in
  let first := {| AiInput.messages := question; AiInput.stream := false;
                  AiInput.tools := Some (map (@offer unit) [getUser unit; tagging unit]) |} in
  let response := Output None (Some [Some (call "getUser"); Some (call "tagging")]) in
  selection (requesting_two "getUser" "tagging") "model" (asking [getUser unit; tagging unit])
    (strictly unit) (fresh tt)
  = (Returned [getUser unit; tagging unit], fresh tt)
  /\ requested response = [call "getUser"] ++ call "tagging" :: []
  /\ Forall (fun c => forall t' e',
               verdict decimal getters [getUser unit; tagging unit] true c <> Throws t' e')
       [call "getUser"]
  /\ verdict decimal getters [getUser unit; tagging unit] true (call "tagging")
     = Throws (tagging unit) "Cannot read properties of undefined (reading 'type')"
  /\ map invoked_tool (invocations (snd run)) = ["getUser"]
  /\ exists new,
       fst run
       = Thrown (Error ("Error in runWithTools: Error in runAndProcessToolCall: "
                        ++ "Cannot read properties of undefined (reading 'type')"))
       /\ calls (snd run)
          = calls (fresh tt)
            ++ [{| call_model := "model"; call_input := first;
                   call_output := Returned response |}]
       /\ invocations (snd run) = invocations (fresh tt) ++ new
       /\ length new = 1.
Proof.
  intros run first response.
  assert (Hsel : selection (requesting_two "getUser" "tagging") "model"
                   (asking [getUser unit; tagging unit]) (strictly unit) (fresh tt)
                 = (Returned [getUser unit; tagging unit], fresh tt)) by reflexivity.
  assert (Hreq : requested response = [call "getUser"] ++ call "tagging" :: [])
    by reflexivity.
  assert (Hearlier : Forall (fun c => forall t' e',
                               verdict decimal getters [getUser unit; tagging unit] true c
                               <> Throws t' e') [call "getUser"]).
  { constructor; [|constructor]. intros t' e'. discriminate. }
  assert (V : verdict decimal getters [getUser unit; tagging unit] true (call "tagging")
              = Throws (tagging unit) "Cannot read properties of undefined (reading 'type')")
    by reflexivity.
  destruct (@schema_failure_aborts_run decimal unit getters (in_order unit)
              (requesting_two "getUser" "tagging") "model" (asking [getUser unit; tagging unit])
              (strictly unit) (fresh tt) _ _ response [call "getUser"] [] (call "tagging") _ _
              Hsel eq_refl Hreq Hearlier V)
    as (new & R & C & I & L & _).
  split; [exact Hsel|]. split; [exact Hreq|]. split; [exact Hearlier|]. split; [exact V|].
  split; [reflexivity|].
  exists new. split; [exact R|]. split; [exact C|]. split; [exact I|exact L].
Defined.

(** [trimmed_tool_still_dispatched]: the trim function lets nothing
    through, the model is offered an empty list of tools and requests
    [getUser] all the same; [getUser] is called. *)
Lemma trimmed_tool_still_dispatched_witness :
  selection (requesting "getUser" (JObj [])) "model" (asking [getUser unit]) (trimming_all unit)
    (fresh tt)
  = (Returned [], fresh tt)
  /\ map (fun c => option_map (@length _) (AiInput.tools (call_input c)))
       (calls (snd (runWithTools decimal getters (in_order unit) (requesting "getUser" (JObj []))
                      "model" (asking [getUser unit]) (trimming_all unit) (fresh tt))))
     = [Some 0; None]
  /\ verdict decimal getters [getUser unit] false (call "getUser")
     = Invoke (getUser unit)
         (fun _ w => (Returned (String "{" (String dquote ("name" ++ String dquote (":" ++
                                 String dquote ("X" ++ String dquote "}")))))%string, w))
  /\ exists new w,
       invocations (snd (runWithTools decimal getters (in_order unit) (requesting "getUser" (JObj
           []))
                           "model" (asking [getUser unit]) (trimming_all unit) (fresh tt)))
       = invocations (fresh tt) ++ new
       /\ In {| invoked_tool := "getUser"; invoked_args := JObj [];
                invoked_outcome :=
                  fst ((Returned (String "{" (String dquote ("name" ++ String dquote (":" ++
                                    String dquote ("X" ++ String dquote "}")))))%string, w)
                       : settled string * unit) |} new.
Proof.
  assert (Hsel : selection (requesting "getUser" (JObj [])) "model" (asking [getUser unit])
                   (trimming_all unit) (fresh tt) = (Returned [], fresh tt)) by reflexivity.
  split; [exact Hsel|]. split; [reflexivity|]. split; [reflexivity|].
  exact (@trimmed_tool_still_dispatched decimal unit getters (in_order unit)
           (requesting "getUser" (JObj [])) "model" (asking [getUser unit]) (trimming_all unit)
           (fresh tt) _ _ _ (call "getUser") _ _ Hsel eq_refl (or_introl eq_refl) eq_refl).
Defined.

(** [every_declared_property_is_required] on a schema that declares a
    string [q]: [null] and an object without [q] are refused.  With a
    property declared under [__proto__] before [q], the shape is that of
    [q] alone, and arguments that hold [q] only are accepted. *)
Lemma every_declared_property_is_required_witness :
  zodSchema_of decimal getters (Some (JObj [("q", JObj [("type", JStr "string")])]))
  = Returned [("q", ZodString)]
  /\ fst (validateArgsWithZod decimal getters JNull
            (Some (JObj [("q", JObj [("type", JStr "string")])])) (fresh tt)) = Returned false
  /\ fst (validateArgsWithZod decimal getters (JObj [("p", JStr "x")])
            (Some (JObj [("q", JObj [("type", JStr "string")])])) (fresh tt)) = Returned false
  /\ validation decimal getters
       (JObj [("type", JStr "object");
              ("properties", JObj [("q", JObj [("type", JStr "string")])]);
              ("required", JArr [])])
       (JObj []) = Returned false
  /\ zodSchema_of decimal getters
       (Some (JObj [("__proto__", JObj [("type", JStr "string")]);
                    ("q", JObj [("type", JStr "string")])]))
     = Returned [("q", ZodString)]
  /\ fst (validateArgsWithZod decimal getters (JObj [("q", JStr "x")])
            (Some (JObj [("__proto__", JObj [("type", JStr "string")]);
                         ("q", JObj [("type", JStr "string")])])) (fresh tt))
     = Returned true
  /\ ~ In "__proto__" (map fst [("q", ZodString)]).
Proof.
  assert (H : zodSchema_of decimal getters (Some (JObj [("q", JObj [("type", JStr "string")])]))
              = Returned [("q", ZodString)]) by reflexivity.
  assert (H' : zodSchema_of decimal getters
                 (Some (JObj [("__proto__", JObj [("type", JStr "string")]);
                              ("q", JObj [("type", JStr "string")])]))
               = Returned [("q", ZodString)]) by reflexivity.
  destruct (@every_declared_property_is_required decimal unit getters _ _ (fresh tt) H)
    as (P1 & P2 & P3 & _).
  destruct (@every_declared_property_is_required decimal unit getters _ _ (fresh tt) H')
    as (_ & _ & _ & P4).
  split; [exact H|]. split; [|split; [|split; [|split; [exact H'|split; [reflexivity|exact P4]]]]].
  - apply P1. intros fields. discriminate.
  - apply (P2 _ "q"); [left; reflexivity|discriminate|reflexivity].
  - apply (P3 _ _ "q"); [reflexivity|left; reflexivity|discriminate|reflexivity].
Defined.

(** [undeclared_arguments_ignored]: an argument [extra] that the schema
    does not declare changes nothing. *)
Lemma undeclared_arguments_ignored_witness :
  (forall key,
      In key (map fst (for_in (Some (JObj [("q", JObj [("type", JStr "string")])])))) ->
      lookup key [("q", JStr "x")] = lookup key [("q", JStr "x"); ("extra", JBool true)])
  /\ fst (validateArgsWithZod decimal getters (JObj [("q", JStr "x"); ("extra", JBool true)])
            (Some (JObj [("q", JObj [("type", JStr "string")])])) (fresh tt))
     = Returned true.
Proof.
  assert (H : forall key,
             In key (map fst (for_in (Some (JObj [("q", JObj [("type", JStr "string")])])))) ->
             lookup key [("q", JStr "x")] = lookup key [("q", JStr "x"); ("extra", JBool true)]).
  { intros key [<-|[]]. reflexivity. }
  split; [exact H|].
  rewrite <- (@undeclared_arguments_ignored decimal unit getters _ _ _ (fresh tt) H). reflexivity.
Defined.

(** [other_schema_keywords_ignored]: an [enum] changes nothing to what a
    string schema converts to, and a value outside of it is accepted. *)
Lemma other_schema_keywords_ignored_witness :
  lookup "type" [("type", JStr "string")]
  = lookup "type" [("type", JStr "string"); ("enum", JArr [JStr "a"; JStr "b"])]
  /\ convertToZodSchema decimal getters (JObj [("type", JStr "string")])
     = convertToZodSchema decimal getters
         (JObj [("type", JStr "string"); ("enum", JArr [JStr "a"; JStr "b"])])
  /\ fst (validateArgsWithZod decimal getters (JObj [("q", JStr "c")])
            (Some (JObj [("q", JObj [("type", JStr "string");
                                     ("enum", JArr [JStr "a"; JStr "b"])])])) (fresh tt))
     = Returned true.
Proof.
  split; [reflexivity|]. split; [|reflexivity].
  exact (@other_schema_keywords_ignored decimal getters
           [("type", JStr "string")]
           [("type", JStr "string"); ("enum", JArr [JStr "a"; JStr "b"])]
           eq_refl eq_refl eq_refl).
Defined.

(** [autoTrimTools_filters_by_name]: the model chooses [b] and a name that
    no candidate carries. *)
Lemma autoTrimTools_filters_by_name_witness :
  fst (autoTrimTools decimal (five_tools unit)
         (requesting "chooseTool" (JObj [("tools", JArr [JStr "b"; JStr "zzz"])]))
         "model" question (fresh tt))
  = Returned [named unit "b"]
  /\ exists keep : string -> bool,
       [named unit "b"] = filter (fun tool => keep (Tool.name tool)) (five_tools unit).
Proof.
  assert (H : fst (autoTrimTools decimal (five_tools unit)
                     (requesting "chooseTool" (JObj [("tools", JArr [JStr "b"; JStr "zzz"])]))
                     "model" question (fresh tt))
              = Returned [named unit "b"]) by reflexivity.
  split; [exact H|].
  exact (@autoTrimTools_filters_by_name decimal unit _ _ _ _ _ _ H).
Defined.


(** [reference_follows_own_properties] on the reference of the sample
    operation to the parameter [verbose] of the components. *)
Lemma reference_follows_own_properties_witness :
  descend ["components"; "parameters"; "verbose"] petstore
  = Some (JObj [("name", JStr "verbose"); ("in", JStr "query");
                ("schema", JObj [("type", JStr "boolean")])])
  /\ resolveReference (JObj [("$ref", JStr "#/components/parameters/verbose")]) petstore
     = Yields (Some (JObj [("name", JStr "verbose"); ("in", JStr "query");
                           ("schema", JObj [("type", JStr "boolean")])])).
Proof.
  assert (Hd : descend ["components"; "parameters"; "verbose"] petstore
               = Some (JObj [("name", JStr "verbose"); ("in", JStr "query");
                             ("schema", JObj [("type", JStr "boolean")])])) by reflexivity.
  split; [exact Hd|].
  refine (@reference_follows_own_properties
            [("$ref", JStr "#/components/parameters/verbose")]
            "#/components/parameters/verbose" ["components"; "parameters"; "verbose"]
            petstore _ eq_refl _ eq_refl _ eq_refl Hd); discriminate.
Defined.

(** [dangling_reference_is_a_type_error] on a reference to a parameter
    [missing] that the components of the sample document do not hold. *)
Lemma dangling_reference_is_a_type_error_witness :
  lookup "missing" [("verbose",
                     JObj [("name", JStr "verbose"); ("in", JStr "query");
                           ("schema", JObj [("type", JStr "boolean")])])] = None
  /\ inherited "missing" = false
  /\ resolveReference (JObj [("$ref", JStr "#/components/parameters/missing")]) petstore
     = Yields None
  /\ extractParameters decimal (sample_engine unit) (JObj [])
       (JObj [("parameters", JArr [JObj [("$ref", JStr "#/components/parameters/missing")]])])
       petstore
     = Raises "Cannot read properties of undefined (reading 'schema')"
  /\ extractRequestBody
       (JObj [("requestBody", JObj [("$ref", JStr "#/components/parameters/missing")])])
       petstore
     = Raises "Cannot read properties of undefined (reading 'content')".
Proof.
  assert (Hr : "#/components/parameters/missing" <> "") by discriminate.
  destruct (@dangling_reference_is_a_type_error decimal unit (sample_engine unit)
              [("$ref", JStr "#/components/parameters/missing")]
              "#/components/parameters/missing" ["components"; "parameters"] "missing"
              petstore _ eq_refl Hr eq_refl eq_refl eq_refl eq_refl eq_refl)
    as (R & P & B).
  split; [reflexivity|]. split; [reflexivity|]. split; [exact R|]. split.
  - exact (P [] [("parameters",
                  JArr [JObj [("$ref", JStr "#/components/parameters/missing")]])] []
             eq_refl eq_refl).
  - exact (B [("requestBody", JObj [("$ref", JStr "#/components/parameters/missing")])]
             eq_refl).
Defined.

(** [parameter_without_schema_is_a_type_error] on a parameter written as in
    a Swagger 2 document, with its [type] beside its name. *)
Lemma parameter_without_schema_is_a_type_error_witness :
  lookup "schema" [("name", JStr "limit"); ("in", JStr "query"); ("type", JStr "integer")]
  = None
  /\ extractParameters decimal (sample_engine unit) (JObj [])
       (JObj [("parameters",
               JArr [JObj [("name", JStr "limit"); ("in", JStr "query");
                           ("type", JStr "integer")]])])
       petstore
     = Raises "Cannot read properties of undefined (reading 'type')".
Proof.
  split; [reflexivity|].
  exact (@parameter_without_schema_is_a_type_error decimal unit (sample_engine unit) []
           [("parameters",
             JArr [JObj [("name", JStr "limit"); ("in", JStr "query");
                         ("type", JStr "integer")]])]
           petstore
           [("name", JStr "limit"); ("in", JStr "query"); ("type", JStr "integer")] []
           eq_refl eq_refl eq_refl eq_refl).
Defined.

(** [last_declaration_is_kept] on the sample operation: its path item
    declares [id] an integer, the operation declares it again, last, with a
    schema that is a reference; the entry is that of the operation, of type
    [string]. *)
Lemma last_declaration_is_kept_witness :
  exists parameters,
    extractParameters decimal (sample_engine unit) pets_item get_pet petstore
    = Yields parameters
    /\ exists entries,
         Parameters.get "path" parameters = Some entries
         /\ lookup "id" entries
            = Some [("type", JStr "string"); ("description", JStr "the id")].
Proof.
  eexists. split; [vm_compute; reflexivity|].
  exact (@last_declaration_is_kept decimal unit (sample_engine unit) pets_item get_pet petstore
           _ _
           [JObj [("$ref", JStr "#/components/parameters/verbose")];
            JObj [("name", JStr "tags"); ("in", JStr "query");
                  ("schema",
                   JObj [("type", JStr "array");
                         ("items", JObj [("type", JStr "string")])])]]
           [("name", JStr "id"); ("in", JStr "path"); ("required", JBool true);
            ("description", JStr "the id");
            ("schema", JObj [("$ref", JStr "#/components/schemas/Id")])]
           [("$ref", JStr "#/components/schemas/Id")] "path" "id"
           eq_refl eq_refl eq_refl eq_refl eq_refl eq_refl eq_refl).
Defined.

(** [no_parameter_is_required] on the sample operation, whose parameter
    [id] the document declares required. *)
Lemma no_parameter_is_required_witness :
  exists parameters,
    extractParameters decimal (sample_engine unit) pets_item get_pet petstore
    = Yields parameters
    /\ exists properties,
         tool_parameters parameters
         = JObj [("type", JStr "object"); ("properties", JObj properties);
                 ("required", JArr [])]
         /\ forall place schema,
              In (place, schema) properties ->
              exists entries,
                Parameters.get place parameters = Some entries
                /\ entries <> []
                /\ schema = JObj [("type", JStr "object");
                                  ("properties",
                                   JObj (map (fun kv => (fst kv, JObj (snd kv))) entries));
                                  ("required", JArr [])].
Proof.
  eexists. split; [vm_compute; reflexivity|].
  exact (@no_parameter_is_required decimal unit (sample_engine unit) pets_item get_pet petstore
           _ eq_refl).
Defined.

(** [array_parameter_breaks_validation] on the sample operation, whose
    parameter [tags] is an array of strings. *)
Lemma array_parameter_breaks_validation_witness :
  exists parameters,
    extractParameters decimal (sample_engine unit) pets_item get_pet petstore
    = Yields parameters
    /\ Parameters.get "query" parameters
       = Some [("verbose", [("type", JStr "boolean")]); ("tags", [("type", JStr "array")])]
    /\ forall args s,
         (exists e, validation decimal getters (tool_parameters parameters) args = Thrown e)
         /\ (exists e,
               validateArgsWithZod decimal getters args (Some (JObj (parameterProperties
                   parameters)))
                 (s : St unit)
               = (Thrown e, s)).
Proof.
  eexists. split; [vm_compute; reflexivity|]. split; [reflexivity|].
  exact (@array_parameter_breaks_validation decimal unit getters (sample_engine unit) pets_item
      get_pet
           petstore _ "query" "tags" _ [("type", JStr "array")]
           eq_refl eq_refl (or_intror (or_introl eq_refl)) eq_refl).
Defined.

(** [specification_failures] on a text that is neither JSON nor YAML, on
    the empty text, which is YAML for [null], and on a URL, with the sample
    engine, which cannot fetch it; [verbose] is set and logging stays off. *)
Lemma specification_failures_witness :
  createToolsFromOpenAPISpec decimal (sample_engine unit) "openapi: [3"
    {| OpenAPIConfig.matchPatterns := None; OpenAPIConfig.verbose := Some true |} (muted tt)
  = (Raises "Failed to fetch or parse the OpenAPI specification",
     {| world := tt; calls := []; invocations := []; enabled := false;
        console := ["Error parsing the OpenAPI spec:"] |})
  /\ createToolsFromOpenAPISpec decimal (sample_engine unit) ""
       {| OpenAPIConfig.matchPatterns := None; OpenAPIConfig.verbose := Some true |} (muted tt)
     = (Raises "Failed to fetch or parse the OpenAPI specification", muted tt)
  /\ createToolsFromOpenAPISpec decimal (sample_engine unit) "https://example.org/missing.json"
       {| OpenAPIConfig.matchPatterns := None; OpenAPIConfig.verbose := Some true |} (muted tt)
     = (Raises "fetch failed", muted tt).
Proof.
  split; [|split].
  - exact (proj1 (@specification_failures decimal unit (sample_engine unit) "openapi: [3"
                    {| OpenAPIConfig.matchPatterns := None; OpenAPIConfig.verbose := Some true |}
                    (muted tt))
             "Unexpected scalar" eq_refl eq_refl).
  - exact (proj1 (proj2 (@specification_failures decimal unit (sample_engine unit) ""
                           {| OpenAPIConfig.matchPatterns := None;
                              OpenAPIConfig.verbose := Some true |}
                           (muted tt)))
             JNull eq_refl eq_refl eq_refl).
  - exact (proj2 (proj2 (@specification_failures decimal unit (sample_engine unit)
                           "https://example.org/missing.json"
                           {| OpenAPIConfig.matchPatterns := None;
                              OpenAPIConfig.verbose := Some true |}
                           (muted tt)))
             "fetch failed" tt eq_refl eq_refl).
Defined.

(** [tools_are_for_matching_operations] on the sample document, with a
    pattern that matches every URL of its server: the two descriptors are for
    [get] and [DELETE], none is for [parameters] or [trace]. *)
Lemma tools_are_for_matching_operations_witness :
  exists tools s',
    createToolsFromOpenAPISpec decimal (sample_engine unit) "{petstore}"
      {| OpenAPIConfig.matchPatterns := Some [prefix "https://api.example.org/"];
         OpenAPIConfig.verbose := Some true |} (muted tt)
    = (Yields tools, s')
    /\ map (fun tool => Invoker.method (GeneratedTool.function tool)) tools = ["get"; "DELETE"]
    /\ Forall (fun tool =>
                 isHttpMethod (Invoker.method (GeneratedTool.function tool)) = true
                 /\ (forall patterns,
                        Some [prefix "https://api.example.org/"] = Some patterns ->
                        existsb (fun pattern =>
                                   pattern (Invoker.url (GeneratedTool.function tool)))
                          patterns = true)
                 /\ exists parameters,
                      GeneratedTool.parameters tool = tool_parameters parameters
                      /\ each_place (Forall (fun entry => kept (snd entry))) parameters)
         tools
    /\ (Some [prefix "https://api.example.org/"] = Some (@nil (string -> bool)) -> tools = [])
    /\ enabled s' = true.
Proof.
  eexists. eexists. split; [vm_compute; reflexivity|]. split; [reflexivity|].
  exact (@tools_are_for_matching_operations decimal unit (sample_engine unit) "{petstore}"
           {| OpenAPIConfig.matchPatterns := Some [prefix "https://api.example.org/"];
              OpenAPIConfig.verbose := Some true |} (muted tt) _ _ eq_refl).
Defined.

(** [utils_fetchSpec_never_throws] on a YAML document, with logging off:
    the line on the console is written all the same; and against the server
    that answers an address with that address, where no depth is enough. *)
Lemma utils_fetchSpec_never_throws_witness :
  utils_fetchSpec decimal (sample_engine unit) 1 "paths: {}" (muted tt)
  = (Returned (Some (Some (JObj [("paths", JObj [])]))),
     {| world := tt; calls := []; invocations := []; enabled := false;
        console := ["Failed to parse JSON, trying YAML..."] |})
  /\ (forall e,
         fst (utils_fetchSpec decimal (sample_engine unit) 1 "paths: {}" (muted tt))
         <> Thrown e)
  /\ forall fuel,
       fst (utils_fetchSpec decimal (echoing unit) fuel "https://example.org/self" (muted tt))
       = Returned None.
Proof.
  split; [reflexivity|]. split.
  - exact (proj1 (@utils_fetchSpec_never_throws decimal unit (sample_engine unit) 1
                    "paths: {}" (muted tt))).
  - intros fuel.
    destruct (@utils_fetchSpec_never_throws decimal unit (echoing unit) fuel
                "https://example.org/self" (muted tt))
      as (_ & _ & _ & _ & _ & _ & _ & _ & Loop).
    apply (Loop "Unexpected token"); [reflexivity|reflexivity|].
    intros w. eexists. exists w, w. repeat split.
Defined.

(** [utils_fetchSpec_document] on the URL of the sample resource, which is
    neither JSON nor YAML: the document is what [JSON.parse] made of the
    body of the response. *)
Lemma utils_fetchSpec_document_witness :
  utils_fetchSpec decimal (sample_engine unit) 2 "https://example.org/openapi.json" (muted tt)
  = (Returned (Some (Some petstore)),
     {| world := tt; calls := []; invocations := []; enabled := false;
        console := ["Failed to parse JSON, trying YAML..."; "Failed to parse YAML."] |})
  /\ exists content,
       (content = "https://example.org/openapi.json"
        \/ exists url w response w1 w2,
             fetch (sample_engine unit) url w = (Returned response, w1)
             /\ Response.ok response = true
             /\ Response.text response w1 = (Returned content, w2))
       /\ (JSON_parse (sample_engine unit) content = Returned petstore
           \/ ((exists e, JSON_parse (sample_engine unit) content = Thrown e)
               /\ YAML_parse (sample_engine unit) content = Returned petstore
               /\ is_object petstore = true)).
Proof.
  assert (H : utils_fetchSpec decimal (sample_engine unit) 2 "https://example.org/openapi.json"
                (muted tt)
              = (Returned (Some (Some petstore)),
                 {| world := tt; calls := []; invocations := []; enabled := false;
                    console := ["Failed to parse JSON, trying YAML...";
                                "Failed to parse YAML."] |})) by reflexivity.
  split; [exact H|].
  exact (@utils_fetchSpec_document decimal unit (sample_engine unit) 2
           "https://example.org/openapi.json" (muted tt) _ petstore H).
Defined.
